(** * The NPPES pipeline of [function_app.py]: chunked load, chunked export,
      API snapshot load.

    Shallow embedding of the Python functions and proofs of the properties
    the pipeline's specification states about them.

    Conventions of the embedding.
    - A Python string is a [string]; every character is one code point
      below 256.
    - A Python value that reaches the functions modelled here is [None], a
      [str] or an [int]: type [value].
    - A Polars frame is kept row-major: its column names and its rows.
      A lazy frame is a plan over such a frame; the exceptions of polars
      for bytes it cannot read and for columns it does not find are
      raised when the plan is collected, not when it is built.
    - The psycopg2 connection is an explicit state [Conn]: the committed
      tables, the tables as the open transaction sees them, and the log of
      the statements sent so far, oldest first.
    - A [while True] loop is a fixpoint on a fuel argument; [None] is "fuel
      exhausted", and each entry point is proved never to return it. *)

From Stdlib Require Import ZArith Lia String Ascii List Bool DecimalString.
From stdpp Require Import gmap strings.
Import ListNotations.

Local Open Scope string_scope.
Local Open Scope list_scope.
Local Open Scope nat_scope.

(* ===================================================================== *)
(** ** Python values *)
(* ===================================================================== *)

Inductive value : Type :=
| VNone
| VStr (s : string)
| VInt (z : Z).

Definition is_none (v : value) : bool :=
  match v with VNone => true | _ => false end.

Definition row : Type := list value.

(** Exceptions that cross a function boundary in the modelled code. *)
Inductive exn : Type :=
| StoreError (chunk_count : nat)     (* psycopg2 error in a chunk transaction *)
| BlobError                          (* object storage client *)
| PolarsError                        (* polars: parse, schema, column lookup *)
| IndexError.                        (* Python list index out of range *)

(* ===================================================================== *)
(** ** The relational store behind a psycopg2 connection *)
(* ===================================================================== *)

Module Store.

Inductive event : Type :=
| EvTruncate (table : string)        (* CALL truncate_table(%s) *)
| EvCopy (table : string) (columns : list string) (data : list row)
| EvCommit
| EvRollback
| EvClose.

Record Conn : Type := mkConn {
  committed : gmap string (list row);
  working : gmap string (list row);
  closed : bool;
  log : list event
}.

Definition table_of (m : gmap string (list row)) (t : string) : list row :=
  default [] (m !! t).

Definition emit (e : event) (c : Conn) : Conn :=
  mkConn (committed c) (working c) (closed c) (log c ++ [e]).

(** Modelled from the spec: the stored procedure [truncate_table] is not
    part of the Python source; the spec calls it the store-side truncate
    procedure for the table.  It empties the table inside the open
    transaction. *)
Definition truncate_table (t : string) (c : Conn) : Conn :=
  mkConn (committed c) (<[t := []]> (working c)) (closed c)
         (log c ++ [EvTruncate t]).

(** [cursor.copy_from]: the rows handed over are appended to the table
    inside the open transaction.  A table is kept as the rows that were
    handed to the store, in the values the caller had them; how the text
    format of the store writes a value down (a null, an empty text) is
    not part of this state. *)
Definition copy_from (t : string) (cols : list string) (data : list row)
    (c : Conn) : Conn :=
  mkConn (committed c) (<[t := table_of (working c) t ++ data]> (working c))
         (closed c) (log c ++ [EvCopy t cols data]).

Definition commit (c : Conn) : Conn :=
  mkConn (working c) (working c) (closed c) (log c ++ [EvCommit]).

Definition rollback (c : Conn) : Conn :=
  mkConn (committed c) (committed c) (closed c) (log c ++ [EvRollback]).

Definition close (c : Conn) : Conn :=
  mkConn (committed c) (committed c) true (log c ++ [EvClose]).

Definition is_truncate (e : event) : bool :=
  match e with EvTruncate _ => true | _ => false end.

Definition is_copy (e : event) : bool :=
  match e with EvCopy _ _ _ => true | _ => false end.

(** The bulk copies of a log that were committed, oldest first:
    [pending] holds the copies of the transaction that is open. *)
Fixpoint committed_windows (pending : list (list row)) (evs : list event)
    : list (list row) :=
  match evs with
  | [] => []
  | EvCopy _ _ d :: evs' => committed_windows (pending ++ [d]) evs'
  | EvCommit :: evs' => pending ++ committed_windows [] evs'
  | EvRollback :: evs' => committed_windows [] evs'
  | _ :: evs' => committed_windows pending evs'
  end.

End Store.
Import Store.

(* ===================================================================== *)
(** ** Polars frames and lazy frames *)
(* ===================================================================== *)

(** The content of a frame, names and rows: what a polars [DataFrame]
    holds, and what a lazy frame yields when it is collected. *)
Record LazyFrame : Type := mkLazyFrame {
  lf_columns : list string;
  lf_rows : list row
}.

Inductive dtype : Type := Utf8.

Definition bind_exn {A B : Type} (x : A + exn) (f : A -> B + exn) : B + exn :=
  match x with
  | inl a => f a
  | inr e => inr e
  end.

(** Position of a column name in a list of column names. *)
Fixpoint index_of (name : string) (columns : list string) : option nat :=
  match columns with
  | [] => None
  | c :: rest =>
      if (c =? name)%string then Some 0 else option_map S (index_of name rest)
  end.

Fixpoint indexes_of (names columns : list string) : option (list nat) :=
  match names with
  | [] => Some []
  | c :: rest =>
      match index_of c columns, indexes_of rest columns with
      | Some i, Some idxs => Some (i :: idxs)
      | _, _ => None
      end
  end.

Definition project (idxs : list nat) (r : row) : row :=
  map (fun i => nth i r VNone) idxs.

(** [select(columns)] on the content of a frame: the named columns in the
    order asked for; polars raises for a name the frame does not have and
    for a name asked twice.  A [DataFrame] raises at the call; a lazy frame
    raises when it is collected (see [collect]). *)
Definition select (columns : list string) (lf : LazyFrame) : LazyFrame + exn :=
  if negb (bool_decide (NoDup columns)) then inr PolarsError
  else
    match indexes_of columns (lf_columns lf) with
    | None => inr PolarsError
    | Some idxs => inl (mkLazyFrame columns (map (project idxs) (lf_rows lf)))
    end.

Definition renamed (mapping : gmap string string) (c : string) : string :=
  default c (mapping !! c).

(** [rename(mapping)] on the content of a frame: polars raises for a key
    that is not a column and for a result with two columns of one name. *)
Definition rename (mapping : gmap string string) (lf : LazyFrame)
    : LazyFrame + exn :=
  if negb (forallb (fun k => bool_decide (k ∈ lf_columns lf))
                   (map fst (map_to_list mapping)))
  then inr PolarsError
  else
    let columns := map (renamed mapping) (lf_columns lf) in
    if negb (bool_decide (NoDup columns)) then inr PolarsError
    else inl (mkLazyFrame columns (lf_rows lf)).

(** A polars lazy frame is a plan.  [scan_csv], [scan_parquet], [select]
    and [rename] only extend the plan: the bytes are read and the column
    names are looked up when the plan is collected, and the exceptions of
    polars are raised then.  [Scan outcome] is the scan of a buffer, where
    [outcome] is what reading the buffer gives at that moment: the frame,
    or the exception for bytes polars cannot read. *)
Inductive LazyPlan : Type :=
| Scan (outcome : LazyFrame + exn)
| Select (columns : list string) (source : LazyPlan)
| Rename (mapping : gmap string string) (source : LazyPlan).

(** [lazy_df.collect()]. *)
Fixpoint collect (lazy_df : LazyPlan) : LazyFrame + exn :=
  match lazy_df with
  | Scan outcome => outcome
  | Select columns source => bind_exn (collect source) (select columns)
  | Rename mapping source => bind_exn (collect source) (rename mapping)
  end.

(** A frame that is read already, seen as a plan: the scan that gives it.
    Where a plan is expected, a frame [lf] stands for [ready lf]. *)
Definition ready (lf : LazyFrame) : LazyPlan := Scan (inl lf).

Coercion ready : LazyFrame >-> LazyPlan.

(** The rows of the window [offset, offset + len) of a frame. *)
Definition slice_collect (lf : LazyFrame) (offset len : nat) : list row :=
  firstn len (skipn offset (lf_rows lf)).

(** [lazy_df.slice(offset, length).collect()]: the window of the frame the
    plan yields, under the same column names.  A plan that cannot be
    collected raises for every window. *)
Definition collect_slice (lazy_df : LazyPlan) (offset len : nat)
    : LazyFrame + exn :=
  match collect lazy_df with
  | inr e => inr e
  | inl lf => inl (mkLazyFrame (lf_columns lf) (slice_collect lf offset len))
  end.

(** The rows a plan yields, none for a plan that cannot be collected. *)
Definition plan_rows (lazy_df : LazyPlan) : list row :=
  match collect lazy_df with
  | inr _ => []
  | inl lf => lf_rows lf
  end.

Definition is_empty (batch : list row) : bool :=
  match batch with [] => true | _ :: _ => false end.

(* ===================================================================== *)
(** ** [load_chunked_blob_data_to_postgres] *)
(* ===================================================================== *)

(** The two statements of a chunk transaction that the store can refuse. *)
Inductive stmt : Type := CallTruncate | CopyFrom.

Section ChunkTransaction.

(** [raises k s]: in the transaction of chunk [k] the store refuses
    statement [s] (psycopg2 raises). *)
Variable raises : nat -> stmt -> bool.

(** The frame the chunk is a window of: [copy_from] is given its column
    names, [list(batch_df.columns)]. *)
Variable lazy_df : LazyFrame.
Variable target_table : string.

(** The body of [with pg_conn.cursor() as cursor: try: ... except: ...]. *)
Definition chunk_transaction (chunk_count : nat) (batch : list row)
    (conn : Conn) : (unit + exn) * Conn :=
  let after_truncate :=
    if chunk_count =? 1 then
      if raises chunk_count CallTruncate
      then (inr (StoreError chunk_count), emit (EvTruncate target_table) conn)
      else (inl tt, truncate_table target_table conn)
    else (inl tt, conn) in
  match after_truncate with
  | (inr e, conn1) => (inr e, rollback conn1)
  | (inl _, conn1) =>
      if raises chunk_count CopyFrom
      then (inr (StoreError chunk_count),
            rollback (emit (EvCopy target_table (lf_columns lazy_df) batch) conn1))
      else (inl tt,
            commit (copy_from target_table (lf_columns lazy_df) batch conn1))
  end.

End ChunkTransaction.

Section Loader.

Variable raises : nat -> stmt -> bool.

(** The lazy frame the extractor returned. *)
Variable lazy_df : LazyPlan.
Variable target_table : string.
Variable chunk_size : nat.

(** The [while True] loop.  [chunk_count] and [total_rows_processed] are
    the values of the Python variables when the iteration starts.  An
    exception of [collect()] leaves the loop outside any transaction. *)
Fixpoint load_loop (fuel chunk_count total_rows_processed : nat) (conn : Conn)
    : option ((nat + exn) * Conn) :=
  match fuel with
  | 0 => None
  | S fuel' =>
      let chunk_count := chunk_count + 1 in
      match collect_slice lazy_df total_rows_processed chunk_size with
      | inr e => Some (inr e, conn)
      | inl batch_df =>
          if is_empty (lf_rows batch_df)
          then Some (inl total_rows_processed, conn)
          else if (chunk_count =? 6) && (target_table =? "nppes_providers")%string
          then Some (inl total_rows_processed, conn)
          else
            let current_chunk_size := length (lf_rows batch_df) in
            match chunk_transaction raises batch_df target_table chunk_count
                    (lf_rows batch_df) conn with
            | (inr e, conn1) => Some (inr e, conn1)
            | (inl _, conn1) =>
                let total_rows_processed :=
                  total_rows_processed + current_chunk_size in
                if current_chunk_size <? chunk_size
                then Some (inl total_rows_processed, conn1)
                else load_loop fuel' chunk_count total_rows_processed conn1
            end
      end
  end.

(** The function: [conn] is the connection [get_psycopg2_connection]
    returned.  The result is [inl total_rows_processed] when the Python
    function returns (it prints that number) and [inr e] when it raises;
    the connection is closed on both paths. *)
Definition load_chunked_blob_data_to_postgres (conn : Conn)
    : option ((nat + exn) * Conn) :=
  match load_loop (S (length (plan_rows lazy_df))) 0 0 conn with
  | None => None
  | Some (r, conn1) => Some (r, close conn1)
  end.

End Loader.

Definition no_fault : nat -> stmt -> bool := fun _ _ => false.

Definition fresh_conn (tables : gmap string (list row)) : Conn :=
  mkConn tables tables false [].

(* ===================================================================== *)
(** ** Row windows and the statements of a load *)
(* ===================================================================== *)

(** The window of index [i] (counted from 0) for chunk size [c]: the slice
    the loader materialises at offset [i * c]. *)
Definition window (lf : LazyFrame) (c i : nat) : list row :=
  slice_collect lf (i * c) c.

Definition ceil_div (n c : nat) : nat := (n + c - 1) / c.

Definition list_sum (l : list nat) : nat := fold_right Nat.add 0 l.

Section LoaderTrace.

Variable raises : nat -> stmt -> bool.
Variable lazy_df : LazyFrame.
Variable target_table : string.
Variable chunk_size : nat.

(** The connection after the transaction of chunk [cc] committed. *)
Definition ok_chunk (cc : nat) (w : list row) (conn : Conn) : Conn :=
  commit (copy_from target_table (lf_columns lazy_df) w
            (if cc =? 1 then truncate_table target_table conn else conn)).

(** The statements of a committed chunk transaction. *)
Definition ok_events (cc : nat) (w : list row) : list event :=
  (if cc =? 1 then [EvTruncate target_table] else [])
  ++ [EvCopy target_table (lf_columns lazy_df) w; EvCommit].

(** [d] committed transactions, for the windows [j], ..., [j + d - 1]. *)
Fixpoint run_full (j d : nat) (conn : Conn) : Conn :=
  match d with
  | 0 => conn
  | S d' => run_full (S j) d' (ok_chunk (S j) (window lazy_df chunk_size j) conn)
  end.

Definition capped : bool := (target_table =? "nppes_providers")%string.

Definition txn_succeeds (cc : nat) : bool :=
  negb ((cc =? 1) && raises cc CallTruncate) && negb (raises cc CopyFrom).

(** The statements one chunk transaction sends. *)
Definition txn_events (cc : nat) (batch : list row) : list event :=
  if (cc =? 1) && raises cc CallTruncate
  then [EvTruncate target_table; EvRollback]
  else (if cc =? 1 then [EvTruncate target_table] else [])
       ++ [EvCopy target_table (lf_columns lazy_df) batch;
           if raises cc CopyFrom then EvRollback else EvCommit].

End LoaderTrace.

(** A frame of [k] one-column rows [0], [1], ..., used in the examples. *)
Definition demo_frame (k : nat) : LazyFrame :=
  mkLazyFrame ["zip"] (map (fun i => [VInt (Z.of_nat i)]) (seq 0 k)).

Definition no_tables : gmap string (list row) := ∅.

Definition refuse_third_copy : nat -> stmt -> bool :=
  fun k s => match s with CopyFrom => k =? 3 | CallTruncate => false end.

(* ===================================================================== *)
(** ** Python string primitives *)
(* ===================================================================== *)

Module Py.

Definition quote : ascii := "034"%char.
Definition tab : ascii := "009"%char.
Definition newline : ascii := "010"%char.

(** The one-character strings made of a double quote and of a newline. *)
Definition dq : string := String quote EmptyString.
Definition nl : string := String newline EmptyString.

(** [str(value)]. *)
Definition str (v : value) : string :=
  match v with
  | VNone => "None"
  | VStr s => s
  | VInt z => NilZero.string_of_int (Z.to_int z)
  end.

Fixpoint zeros (k : nat) : string :=
  match k with
  | 0 => EmptyString
  | S k' => String "0" (zeros k')
  end.

Definition is_sign (c : ascii) : bool := (c =? "+")%char || (c =? "-")%char.

(** [s.zfill(width)]: zeros on the left, after a leading sign. *)
Definition zfill (width : nat) (s : string) : string :=
  if width <=? String.length s then s
  else
    let fill := width - String.length s in
    match s with
    | String c rest =>
        if is_sign c then String c (zeros fill +:+ rest) else zeros fill +:+ s
    | EmptyString => zeros fill
    end.

(** [s.replace(old, new)] for a one-character [old]. *)
Fixpoint replace_char (old : ascii) (new : string) (s : string) : string :=
  match s with
  | EmptyString => EmptyString
  | String c rest =>
      if (c =? old)%char then new +:+ replace_char old new rest
      else String c (replace_char old new rest)
  end.

(** [sep.join(parts)]. *)
Definition join (sep : string) (parts : list string) : string :=
  String.concat sep parts.

(** [s.split(sep)] for a one-character [sep]. *)
Fixpoint split (sep : ascii) (s : string) : list string :=
  match s with
  | EmptyString => [EmptyString]
  | String c rest =>
      if (c =? sep)%char then EmptyString :: split sep rest
      else
        match split sep rest with
        | [] => [String c EmptyString]
        | w :: ws => String c w :: ws
        end
  end.

Definition code (c : ascii) : nat := nat_of_ascii c.

(** The characters [str.splitlines] breaks a line at, among the code
    points below 256. *)
Definition is_linebreak (c : ascii) : bool :=
  existsb (Nat.eqb (code c)) [10; 11; 12; 13; 28; 29; 30; 133].

(** [s.splitlines()]: a carriage return followed by a line feed is one
    break, and no empty line is added after a final break. *)
Fixpoint splitlines (s : string) : list string :=
  match s with
  | EmptyString => []
  | String c rest =>
      if code c =? 13 then
        match rest with
        | String c2 rest2 =>
            if code c2 =? 10 then EmptyString :: splitlines rest2
            else EmptyString :: splitlines rest
        | EmptyString => [EmptyString]
        end
      else if is_linebreak c then EmptyString :: splitlines rest
      else
        match splitlines rest with
        | [] => [String c EmptyString]
        | w :: ws => String c w :: ws
        end
  end.

(** Python's whitespace ([str.isspace]) among the code points below 256. *)
Definition is_space (c : ascii) : bool :=
  existsb (Nat.eqb (code c)) [9; 10; 11; 12; 13; 28; 29; 30; 31; 32; 133; 160].

Fixpoint lstrip (ws : ascii -> bool) (s : string) : string :=
  match s with
  | EmptyString => EmptyString
  | String c rest => if ws c then lstrip ws rest else s
  end.

Fixpoint rstrip (ws : ascii -> bool) (s : string) : string :=
  match s with
  | EmptyString => EmptyString
  | String c rest =>
      match rstrip ws rest with
      | EmptyString => if ws c then EmptyString else String c EmptyString
      | kept => String c kept
      end
  end.

(** [s.strip()]. *)
Definition strip (s : string) : string := lstrip is_space (rstrip is_space s).

End Py.

(* ===================================================================== *)
(** ** [export_clean_data_to_csv_chunked] *)
(* ===================================================================== *)

Definition headers : list string :=
  [ "npi"; "entity_type"; "entity_name"; "provider_location_address_1";
    "provider_location_address_2"; "provider_city"; "provider_state";
    "provider_postal_code_clean"; "county_name"; "state_name";
    "primary_taxonomy_code"; "taxonomy_grouping"; "taxonomy_classification";
    "taxonomy_specialization"; "data_quality_score" ].

(** The header line: [",".join(f'"{col}"' for col in headers)]. *)
Definition header_line : string :=
  Py.join "," (map (fun col => Py.dq +:+ col +:+ Py.dq) headers).

(** The body of [for i, value in enumerate(row)]: the field appended to
    [escaped_row].  [headers[i]] is read only for a value that is not
    [None], and raises [IndexError] out of range. *)
Definition escape_value (i : nat) (value : value) : string + exn :=
  match value with
  | VNone => inl (Py.dq +:+ Py.dq)
  | _ =>
      match nth_error headers i with
      | None => inr IndexError
      | Some h =>
          let str_value :=
            if (h =? "provider_postal_code_clean")%string
            then Py.zfill 5 (Py.str value)
            else Py.str value in
          let str_value := Py.replace_char Py.quote (Py.dq +:+ Py.dq) str_value in
          inl (Py.dq +:+ str_value +:+ Py.dq)
      end
  end.

(** [escaped_row] for the values of a row from position [i] on. *)
Fixpoint escape_row_from (i : nat) (r : row) : list string + exn :=
  match r with
  | [] => inl []
  | value :: rest =>
      match escape_value i value with
      | inr e => inr e
      | inl field =>
          match escape_row_from (S i) rest with
          | inr e => inr e
          | inl fields => inl (field :: fields)
          end
      end
  end.

(** The line appended to [csv_content] for one row. *)
Definition render_row (r : row) : string + exn :=
  match escape_row_from 0 r with
  | inr e => inr e
  | inl escaped_row => inl (Py.join "," escaped_row)
  end.

(** [for row in rows: ... csv_content.append(...)]. *)
Fixpoint append_rows (rows : list row) (csv_content : list string)
    : list string + exn :=
  match rows with
  | [] => inl csv_content
  | r :: rest =>
      match render_row r with
      | inr e => inr e
      | inl line => append_rows rest (csv_content ++ [line])
      end
  end.

(** What the export loop hands over when it ends normally. *)
Record Exported : Type := mkExported {
  csv_content : list string;
  processed_count : nat;
  calls : list (nat * nat)           (* (chunk_size, chunk_start) per query *)
}.

Section ExportLoop.

(** The store function [get_export_chunk(limit, offset)]. *)
Variable get_export_chunk : nat -> nat -> list row.
Variable chunk_size : nat.

(** The [while True] loop; [st] holds [csv_content], [processed_count] and
    the queries made so far, [chunk_start] is the Python variable.  An
    exception leaves the loop with the queries made until then. *)
Fixpoint export_loop (fuel chunk_start : nat) (st : Exported)
    : option (Exported + exn * list (nat * nat)) :=
  match fuel with
  | 0 => None
  | S fuel' =>
      let rows := get_export_chunk chunk_size chunk_start in
      let queried := calls st ++ [(chunk_size, chunk_start)] in
      match rows with
      | [] => Some (inl (mkExported (csv_content st) (processed_count st) queried))
      | _ :: _ =>
          match append_rows rows (csv_content st) with
          | inr e => Some (inr (e, queried))
          | inl content =>
              let st' := mkExported content (processed_count st + length rows)
                                    queried in
              let chunk_start := chunk_start + chunk_size in
              if length rows <? chunk_size then Some (inl st')
              else export_loop fuel' chunk_start st'
          end
      end
  end.

End ExportLoop.

(** Modelled from the spec: the SQL function [get_export_chunk] is not part
    of the Python source; the spec calls it a paginated row-reader taking
    (limit, offset) and returning a row set over the cleaned view.  [view]
    is that view, in the order the function reads it. *)
Definition get_export_chunk (view : list row) (limit offset : nat) : list row :=
  firstn limit (skipn offset view).

(** The result of the function: the boolean it returns, the blob it
    uploaded if any (name and text), and the queries it made. *)
Record ExportResult : Type := mkExportResult {
  export_success : bool;
  uploaded : option (string * string);
  queries : list (nat * nat)
}.

(** [upload_error filename data] is what [upload_csv_to_azure_blob]
    returns: [None] when the upload went through, else the error text. *)
Definition export_clean_data_to_csv_chunked
    (view : list row) (upload_error : string -> string -> option string)
    (chunk_size : nat) (output_filename : string) : option ExportResult :=
  match export_loop (get_export_chunk view) chunk_size (S (length view)) 0
          (mkExported [header_line] 0 []) with
  | None => None
  | Some (inr (_, queried)) => Some (mkExportResult false None queried)
  | Some (inl st) =>
      let final_csv := Py.join Py.nl (csv_content st) in
      match upload_error output_filename final_csv with
      | None => Some (mkExportResult true (Some (output_filename, final_csv))
                                     (calls st))
      | Some _ => Some (mkExportResult false None (calls st))
      end
  end.

(** Reading a quoted field body back: a doubled quote is one quote, a
    single quote is an error. *)
Fixpoint unescape (s : string) : option string :=
  match s with
  | EmptyString => Some EmptyString
  | String c rest =>
      if (c =? Py.quote)%char then
        match rest with
        | String c' rest' =>
            if (c' =? Py.quote)%char
            then option_map (String Py.quote) (unescape rest')
            else None
        | EmptyString => None
        end
      else option_map (String c) (unescape rest)
  end.

(** The line of a row that renders. *)
Definition line_of (r : row) : string :=
  match render_row r with
  | inl line => line
  | inr _ => EmptyString
  end.

Definition fits (r : row) : Prop := length r <= 15.

Definition upload_always_works : string -> string -> option string :=
  fun _ _ => None.

Definition five_rows : list row := map (fun i => [VInt (Z.of_nat i)]) (seq 0 5).

(* ===================================================================== *)
(** ** [extract_csv_data_from_blob] *)
(* ===================================================================== *)

Section Extractor.

(** The object storage client: the bytes of a blob of a container, or the
    exception it raises. *)
Variable download_blob : string -> string -> string + exn.

(** What [polars.scan_csv(buffer, schema_overrides=...)] reads when the
    plan is collected: the frame, or the exception polars raises for bytes
    it cannot parse. *)
Variable scan_csv : string -> list (string * dtype) -> LazyFrame + exn.

(** The function returns [None] for an exception raised in its [try]
    block, which is an exception of the download: the calls to polars that
    follow build a plan and raise nothing.  [relevant_columns == []] picks
    the plan. *)
Definition extract_csv_data_from_blob (filename : string)
    (relevant_columns : list string) (column_mapping : gmap string string)
    (schema_overrides : list (string * dtype)) : option LazyPlan :=
  match download_blob "nppes" filename with
  | inr _ => None
  | inl file_buffer =>
      match relevant_columns with
      | [] => Some (Scan (scan_csv file_buffer schema_overrides))
      | _ :: _ =>
          Some (Rename column_mapping
                  (Select relevant_columns
                     (Scan (scan_csv file_buffer schema_overrides))))
      end
  end.

End Extractor.

(* ===================================================================== *)
(** ** The load phase of [NPPES_Data_Cleaning] *)
(* ===================================================================== *)

Definition default_chunk_size : nat := 100 * 1000.

(** [if lazy_df is not None: load_chunked_blob_data_to_postgres(...)], on
    the committed tables of the store; each load opens its own connection.
    [raises t] is the behaviour of the store during the load of table [t]. *)
Definition load_if_present (raises : string -> nat -> stmt -> bool)
    (lazy_df : option LazyPlan) (target_table : string)
    (tables : gmap string (list row))
    : option (gmap string (list row) + exn) :=
  match lazy_df with
  | None => Some (inl tables)
  | Some lf =>
      match load_chunked_blob_data_to_postgres (raises target_table) lf
              target_table default_chunk_size (fresh_conn tables) with
      | None => None
      | Some (inl _, conn) => Some (inl (committed conn))
      | Some (inr e, _) => Some (inr e)
      end
  end.

(** Sources handled one after the other; an exception ends the phase. *)
Fixpoint run_sources (raises : string -> nat -> stmt -> bool)
    (sources : list (option LazyPlan * string))
    (tables : gmap string (list row))
    : option (gmap string (list row) + exn) :=
  match sources with
  | [] => Some (inl tables)
  | (lazy_df, target_table) :: rest =>
      match load_if_present raises lazy_df target_table tables with
      | None => None
      | Some (inr e) => Some (inr e)
      | Some (inl tables') => run_sources raises rest tables'
      end
  end.

Definition zip_county_relevant_columns : list string :=
  [ "ZIP"; "COUNTY"; "USPS_ZIP_PREF_CITY"; "USPS_ZIP_PREF_STATE";
    "RES_RATIO"; "BUS_RATIO"; "OTH_RATIO"; "TOT_RATIO" ].

Definition zip_county_column_mapping : gmap string string :=
  list_to_map
    [ ("ZIP", "zip"); ("COUNTY", "county");
      ("USPS_ZIP_PREF_CITY", "usps_zip_pref_city");
      ("USPS_ZIP_PREF_STATE", "usps_zip_pref_state");
      ("RES_RATIO", "res_ratio"); ("BUS_RATIO", "bus_ratio");
      ("OTH_RATIO", "oth_ratio"); ("TOT_RATIO", "tot_ratio") ].

Definition zip_county_schema_overrides : list (string * dtype) :=
  [ ("ZIP", Utf8); ("COUNTY", Utf8); ("USPS_ZIP_PREF_CITY", Utf8);
    ("USPS_ZIP_PREF_STATE", Utf8) ].

Definition ssa_schema_overrides : list (string * dtype) :=
  [ ("ssa_code", Utf8); ("fipscounty", Utf8); ("cbsa_code", Utf8) ].

Definition taxonomy_relevant_columns : list string :=
  [ "Code"; "Grouping"; "Classification"; "Specialization" ].

Definition taxonomy_column_mapping : gmap string string :=
  list_to_map
    [ ("Code", "code"); ("Grouping", "grouping");
      ("Classification", "classification");
      ("Specialization", "specialization") ].

Definition taxonomy_schema_overrides : list (string * dtype) :=
  [ ("Code", Utf8); ("Grouping", Utf8); ("Classification", Utf8);
    ("Specialization", Utf8) ].

(** The blob names of the request body. *)
Record Body : Type := mkBody {
  parquet_target_file : string;
  csv_target_file_1 : string;
  csv_target_file_2 : string;
  csv_target_file_3 : string
}.

Section LoadPhase.

Variable download_blob : string -> string -> string + exn.
Variable scan_csv : string -> list (string * dtype) -> LazyFrame + exn.

(** What [extract_parquet_data_from_blob] returns for a blob name: the
    function has the shape of the CSV one, with its own reader and fixed
    column lists. *)
Variable extract_parquet_data_from_blob : string -> option LazyPlan.

Variable raises : string -> nat -> stmt -> bool.

Definition lazy_df_2 (body : Body) : option LazyPlan :=
  extract_csv_data_from_blob download_blob scan_csv (csv_target_file_1 body)
    zip_county_relevant_columns zip_county_column_mapping
    zip_county_schema_overrides.

Definition lazy_df_3 (body : Body) : option LazyPlan :=
  extract_csv_data_from_blob download_blob scan_csv (csv_target_file_2 body)
    [] ∅ ssa_schema_overrides.

Definition lazy_df_4 (body : Body) : option LazyPlan :=
  extract_csv_data_from_blob download_blob scan_csv (csv_target_file_3 body)
    taxonomy_relevant_columns taxonomy_column_mapping
    taxonomy_schema_overrides.

(** The four extract-and-load steps of [NPPES_Data_Cleaning]. *)
Definition load_phase (body : Body) (tables : gmap string (list row))
    : option (gmap string (list row) + exn) :=
  run_sources raises
    [ (extract_parquet_data_from_blob (parquet_target_file body),
       "nppes_providers");
      (lazy_df_2 body, "zip_county");
      (lazy_df_3 body, "ssa_fips_state_county");
      (lazy_df_4 body, "nucc_taxonomy") ]
    tables.

End LoadPhase.

(** Decimal integers with an optional minus sign, used in the examples in
    the place of the reader of polars. *)
Definition parse_decimal (s : string) : option Z :=
  option_map Z.of_int (NilZero.int_of_string s).

Definition is_digits (s : string) : bool :=
  match s with
  | EmptyString => false
  | _ => forallb (fun c => (48 <=? Py.code c) && (Py.code c <=? 57))
                 (list_ascii_of_string s)
  end.

Definition example_cell (as_text : bool) (s : string) : value :=
  match s with
  | EmptyString => VNone
  | _ =>
      if as_text then VStr s
      else match parse_decimal s with
           | Some z => VInt z
           | None => VStr s
           end
  end.

(** A reader of unquoted comma-separated text, used in the examples in the
    place of polars, for files of texts and non-negative integers: the
    first line names the columns; an empty cell is null; a column without
    an override whose cells are all decimal digits is read as integers,
    and every other column as text. *)
Definition example_scan_csv (buffer : string) (overrides : list (string * dtype))
    : LazyFrame + exn :=
  match Py.splitlines buffer with
  | [] => inr PolarsError
  | header :: lines =>
      let columns := Py.split "," header in
      let cells := map (Py.split ",") lines in
      if forallb (fun r => length r =? length columns) cells
      then
        let as_text :=
          map (fun jc =>
                 existsb (fun o => (fst o =? snd jc)%string) overrides
                 || negb (forallb
                            (fun r => let s := nth (fst jc) r EmptyString in
                                      (s =? EmptyString)%string || is_digits s)
                            cells))
              (combine (seq 0 (length columns)) columns) in
        inl (mkLazyFrame columns
               (map (fun r => map (fun ts => example_cell (fst ts) (snd ts))
                                  (combine as_text r))
                    cells))
      else inr PolarsError
  end.

(** An object store with two blobs; the taxonomy blob has two of the four
    columns the pipeline retains. *)
Definition example_download (container blob : string) : string + exn :=
  if (blob =? "ssa.csv")%string
  then inl ("ssa_code,fipscounty" +:+ Py.nl +:+ "01000,01001" +:+ Py.nl)
  else if (blob =? "taxonomy.csv")%string
  then inl ("Code,Grouping" +:+ Py.nl +:+ "101Y00000X,Behavioral" +:+ Py.nl)
  else inr BlobError.

(* ===================================================================== *)
(** ** [load_api_data] *)
(* ===================================================================== *)

(** The eager frame [df] is kept like a lazy one: names and rows. *)
Abbreviation DataFrame := LazyFrame.

(** The transposition of the rows made by [zip] has as many columns as the
    shortest row, and none for no row at all. *)
Definition zip_width (rows : list row) : nat :=
  match rows with
  | [] => 0
  | r :: rest => fold_left Nat.min (map (@length value) rest) (length r)
  end.

(** The keys of [dict(zip(names, ...))], in the order of first occurrence. *)
Fixpoint dict_keys (seen names : list string) : list string :=
  match names with
  | [] => []
  | c :: rest =>
      if existsb (String.eqb c) seen then dict_keys seen rest
      else c :: dict_keys (c :: seen) rest
  end.

(** The position whose value a key of the dict ends up with: the last one. *)
Fixpoint last_index_from (i : nat) (name : string) (names : list string)
    : option nat :=
  match names with
  | [] => None
  | c :: rest =>
      match last_index_from (S i) name rest with
      | Some j => Some j
      | None => if (c =? name)%string then Some i else None
      end
  end.

(** The frame [polars.DataFrame] builds from the dict of [headers] zipped
    with the transposed rows. *)
Definition frame_of_dict (headers : list string) (rows : list row) : DataFrame :=
  let names := firstn (zip_width rows) headers in
  let keys := dict_keys [] names in
  let idxs := map (fun k => default 0 (last_index_from 0 k names)) keys in
  mkLazyFrame keys (map (project idxs) rows).

Definition api_column_mapping : gmap string string :=
  list_to_map
    [ ("NAME", "name"); ("B01001_001E", "population");
      ("state", "state_fips"); ("county", "county_fips") ].

Definition db_columns : list string :=
  [ "name"; "population"; "state_fips"; "county_fips" ].

Definition in_int32 (z : Z) : bool :=
  ((- 2147483648 <=? z) && (z <=? 2147483647))%Z.

(** The characters [str.strip_chars()] of polars removes at both ends,
    among the code points below 256. *)
Definition polars_is_space (c : ascii) : bool :=
  existsb (Nat.eqb (Py.code c)) [9; 10; 11; 12; 13; 32; 133; 160].

Definition strip_chars (s : string) : string :=
  Py.lstrip polars_is_space (Py.rstrip polars_is_space s).

(** [col.cast(str).fill_null(<empty>).str.strip_chars()] on one value. *)
Definition to_trimmed_text (v : value) : value :=
  match v with
  | VNone => VStr (strip_chars EmptyString)
  | VStr s => VStr (strip_chars s)
  | VInt z => VStr (strip_chars (Py.str (VInt z)))
  end.

(** [col.str.len_chars()], 0 standing for null. *)
Definition len_chars (v : value) : nat :=
  match v with
  | VStr s => String.length s
  | _ => 0
  end.

(** [df.with_columns(f(df[name]).alias(name))]. *)
Definition with_column (name : string) (f : value -> value) (df : DataFrame)
    : DataFrame + exn :=
  match index_of name (lf_columns df) with
  | None => inr PolarsError
  | Some i => inl (mkLazyFrame (lf_columns df) (map (alter f i) (lf_rows df)))
  end.

(** [df.filter(mask)] for a mask computed from the four columns, in the
    order the Python expression names them. *)
Definition filter_on (names : list string) (mask : list value -> bool)
    (df : DataFrame) : DataFrame + exn :=
  match indexes_of names (lf_columns df) with
  | None => inr PolarsError
  | Some idxs =>
      inl (mkLazyFrame (lf_columns df)
             (List.filter (fun r => mask (project idxs r)) (lf_rows df)))
  end.

(** How polars writes one value of a CSV file with separator [sep]: a null
    is empty, an empty text is two quotes, a text with a separator, a
    quote, a line feed or a carriage return is quoted with its quotes
    doubled. *)
Definition needs_quotes (sep : ascii) (s : string) : bool :=
  existsb (fun c => (c =? sep)%char || (c =? Py.quote)%char
                    || (Py.code c =? 10) || (Py.code c =? 13))
          (list_ascii_of_string s).

Definition write_field (sep : ascii) (v : value) : string :=
  match v with
  | VNone => EmptyString
  | VInt z => Py.str (VInt z)
  | VStr s =>
      match s with
      | EmptyString => Py.dq +:+ Py.dq
      | _ =>
          if needs_quotes sep s
          then Py.dq +:+ Py.replace_char Py.quote (Py.dq +:+ Py.dq) s +:+ Py.dq
          else s
      end
  end.

Definition write_row (sep : ascii) (r : row) : string :=
  Py.join (String sep EmptyString) (map (write_field sep) r).

(** [df.write_csv(output, separator=sep, include_header=False)]. *)
Definition write_csv (sep : ascii) (df : DataFrame) : string :=
  String.concat EmptyString (map (fun r => write_row sep r +:+ Py.nl) (lf_rows df)).

(** The condition of the list comprehension on a line. *)
Definition line_ok (line : string) : bool :=
  negb (Py.strip line =? EmptyString)%string
  && (length (Py.split Py.tab line) =? 4).

Definition all_not_null (cells : list value) : bool :=
  forallb (fun v => negb (is_none v)) cells.

Definition some_not_empty (cells : list value) : bool :=
  existsb (fun v => 0 <? len_chars v) cells.

(** *** The text format of [COPY]

    PostgreSQL reads a line of [copy_from] field by field.  A tabulation
    ends a field.  A backslash takes the character after it out of the
    scan: [\b], [\f], [\n], [\r], [\t] and [\v] stand for the control
    characters, a backslash with one to three octal digits or with [x] and
    one or two hexadecimal digits for the byte of that code, and a
    backslash before any other character for that character; a backslash
    that ends the line is dropped.  A field is null when its text, before
    any backslash is resolved, is the null string, here the empty one. *)

Definition is_backslash (c : ascii) : bool := (Py.code c =? 92).

Definition octal_digit (c : ascii) : option nat :=
  let k := Py.code c in
  if (48 <=? k) && (k <=? 55) then Some (k - 48) else None.

Definition hex_digit (c : ascii) : option nat :=
  let k := Py.code c in
  if (48 <=? k) && (k <=? 57) then Some (k - 48)
  else if (65 <=? k) && (k <=? 70) then Some (k - 55)
  else if (97 <=? k) && (k <=? 102) then Some (k - 87)
  else None.

Definition byte (k : nat) : ascii := ascii_of_nat (k mod 256).

(** The character a backslash and [c] stand for, [c] being no digit. *)
Definition escape_letter (c : ascii) : ascii :=
  let k := Py.code c in
  if k =? 98 then byte 8
  else if k =? 102 then byte 12
  else if k =? 110 then byte 10
  else if k =? 114 then byte 13
  else if k =? 116 then byte 9
  else if k =? 118 then byte 11
  else c.

(** One more character for the field that is being read. *)
Definition push_char (c : ascii) (fields : list (bool * string))
    : list (bool * string) :=
  match fields with
  | [] => [(false, String c EmptyString)]
  | (_, w) :: ws => (false, String c w) :: ws
  end.

(** The fields of a line: for each, whether its raw text is empty, and
    its text with the backslashes resolved. *)
Fixpoint copy_fields (s : string) : list (bool * string) :=
  match s with
  | EmptyString => [(true, EmptyString)]
  | String c rest =>
      if (c =? Py.tab)%char then (true, EmptyString) :: copy_fields rest
      else if is_backslash c then
        match rest with
        | EmptyString => [(false, EmptyString)]
        | String d rest1 =>
            match octal_digit d with
            | Some v1 =>
                match rest1 with
                | EmptyString => push_char (byte v1) (copy_fields rest1)
                | String d2 rest2 =>
                    match octal_digit d2 with
                    | None => push_char (byte v1) (copy_fields rest1)
                    | Some v2 =>
                        match rest2 with
                        | EmptyString =>
                            push_char (byte (v1 * 8 + v2)) (copy_fields rest2)
                        | String d3 rest3 =>
                            match octal_digit d3 with
                            | None =>
                                push_char (byte (v1 * 8 + v2))
                                          (copy_fields rest2)
                            | Some v3 =>
                                push_char (byte (v1 * 64 + v2 * 8 + v3))
                                          (copy_fields rest3)
                            end
                        end
                    end
                end
            | None =>
                if Py.code d =? 120 then
                  match rest1 with
                  | EmptyString => push_char d (copy_fields rest1)
                  | String h1 rest2 =>
                      match hex_digit h1 with
                      | None => push_char d (copy_fields rest1)
                      | Some v1 =>
                          match rest2 with
                          | EmptyString =>
                              push_char (byte v1) (copy_fields rest2)
                          | String h2 rest3 =>
                              match hex_digit h2 with
                              | None => push_char (byte v1) (copy_fields rest2)
                              | Some v2 =>
                                  push_char (byte (v1 * 16 + v2))
                                            (copy_fields rest3)
                              end
                          end
                      end
                  end
                else push_char (escape_letter d) (copy_fields rest1)
            end
        end
      else push_char c (copy_fields rest)
  end.

Section ApiLoader.

(** How polars reads an integer out of a text when it casts; [None] for a
    text it cannot read. *)
Variable parse_int : string -> option Z.

(** [col.cast(polars.Int32, strict=False)] on one value. *)
Definition cast_int32 (v : value) : value :=
  match v with
  | VNone => VNone
  | VInt z => if in_int32 z then VInt z else VNone
  | VStr s =>
      match parse_int s with
      | Some z => if in_int32 z then VInt z else VNone
      | None => VNone
      end
  end.

(** Lines 27 to 40: the frame, renamed and reduced to the four columns. *)
Definition api_frame (headers : list string) (rows : list row)
    : DataFrame + exn :=
  bind_exn (rename api_column_mapping (frame_of_dict headers rows))
           (select db_columns).

(** Line 43. *)
Definition coerce_population (df : DataFrame) : DataFrame + exn :=
  with_column "population" cast_int32 df.

(** Lines 46 to 51. *)
Definition drop_null_rows (df : DataFrame) : DataFrame + exn :=
  filter_on ["population"; "name"; "state_fips"; "county_fips"] all_not_null df.

(** Lines 54 to 59. *)
Definition trim_columns (df : DataFrame) : DataFrame + exn :=
  fold_left (fun acc col => bind_exn acc (with_column col to_trimmed_text))
            db_columns (inl df).

(** Lines 62 to 67. *)
Definition drop_blank_rows (df : DataFrame) : DataFrame + exn :=
  filter_on db_columns some_not_empty df.

(** The frame that is written out: lines 27 to 67. *)
Definition clean_frame (headers : list string) (rows : list row)
    : DataFrame + exn :=
  bind_exn (api_frame headers rows) (fun df =>
  bind_exn (coerce_population df) (fun df =>
  bind_exn (drop_null_rows df) (fun df =>
  bind_exn (trim_columns df) drop_blank_rows))).

(** Lines 69 to 79: [cleaned_lines]. *)
Definition cleaned_lines_of (df : DataFrame) : list string :=
  List.filter line_ok (Py.splitlines (write_csv Py.tab df)).

Definition cleaned_lines (headers : list string) (rows : list row)
    : list string + exn :=
  bind_exn (clean_frame headers rows) (fun df => inl (cleaned_lines_of df)).

(** What [copy_from(..., sep=tab, null=<empty>)] reads from a line, the
    values being kept as texts.  The stream is read line by line: a line
    that ends in a backslash, which the store reads on into the next line,
    is outside this model. *)
Definition copied_row (line : string) : row :=
  map (fun f : bool * string => if fst f then VNone else VStr (snd f))
      (copy_fields line).

(** The function: [data] is the header row and the data rows;
    [copy_raises] tells whether the store refuses the bulk insert; [conn]
    is the connection [get_psycopg2_connection] returned. *)
Definition load_api_data (copy_raises : bool) (headers : list string)
    (rows : list row) (conn : Conn) : (unit + exn) * Conn :=
  match cleaned_lines headers rows with
  | inr e => (inr e, conn)
  | inl lines =>
      let data := map copied_row lines in
      if copy_raises
      then (inr (StoreError 1),
            close (rollback (emit (EvCopy "census_county_population" db_columns
                                     data) conn)))
      else (inl tt,
            close (commit (copy_from "census_county_population" db_columns
                             data conn)))
  end.

End ApiLoader.

Definition census_headers : list string :=
  ["NAME"; "B01001_001E"; "state"; "county"].

Fixpoint count_char (c : ascii) (s : string) : nat :=
  match s with
  | EmptyString => 0
  | String x rest => (if (x =? c)%char then 1 else 0) + count_char c rest
  end.

Fixpoint has_char (p : ascii -> bool) (s : string) : bool :=
  match s with
  | EmptyString => false
  | String x rest => p x || has_char p rest
  end.

Definition is_tab (c : ascii) : bool := (c =? Py.tab)%char.

Definition cell_text (v : value) : string :=
  match v with
  | VStr s => s
  | _ => EmptyString
  end.

(** Some cell of the row has a character with property [p]. *)
Definition row_has (p : ascii -> bool) (r : row) : bool :=
  existsb (fun v => has_char p (cell_text v)) r.

(* ===================================================================== *)
(** ** Well-formed logs *)
(* ===================================================================== *)

Definition is_empty_log (evs : list event) : bool :=
  match evs with
  | [] => true
  | _ :: _ => false
  end.

(** In a log of a finished call every statement is followed by its commit
    or rollback before anything else begins, and the close comes last, with
    no transaction open; [open] tells whether a transaction is open. *)
Fixpoint transactions_closed (open : bool) (evs : list event) : bool :=
  match evs with
  | [] => false
  | EvTruncate _ :: rest => transactions_closed true rest
  | EvCopy _ _ _ :: rest => transactions_closed true rest
  | EvCommit :: rest => open && transactions_closed false rest
  | EvRollback :: rest => open && transactions_closed false rest
  | EvClose :: rest => negb open && is_empty_log rest
  end.

Definition refuse_truncate : nat -> stmt -> bool :=
  fun _ s => match s with CallTruncate => true | CopyFrom => false end.

(** Tables with some rows already in [zip_county], used in the examples. *)
Definition old_tables : gmap string (list row) :=
  {[ "zip_county" := [[VInt 7]; [VInt 8]; [VInt 9]] ]}.

(* ===================================================================== *)
(** ** [extract_parquet_data_from_blob] *)
(* ===================================================================== *)

Definition nppes_relevant_columns : list string :=
  [
    "NPI"; "Entity Type Code";
    "Provider Organization Name (Legal Business Name)";
    "Provider Last Name (Legal Name)"; "Provider First Name";
    "Provider Middle Name"; "Provider Name Prefix Text";
    "Provider Name Suffix Text"; "Provider Credential Text";
    "Provider Other Organization Name";
    "Provider First Line Business Practice Location Address";
    "Provider Second Line Business Practice Location Address";
    "Provider Business Practice Location Address City Name";
    "Provider Business Practice Location Address State Name";
    "Provider Business Practice Location Address Postal Code";
    "Healthcare Provider Taxonomy Code_1";
    "Healthcare Provider Primary Taxonomy Switch_1";
    "Healthcare Provider Taxonomy Code_2";
    "Healthcare Provider Primary Taxonomy Switch_2";
    "Healthcare Provider Taxonomy Code_3";
    "Healthcare Provider Primary Taxonomy Switch_3";
    "Healthcare Provider Taxonomy Code_4";
    "Healthcare Provider Primary Taxonomy Switch_4";
    "Healthcare Provider Taxonomy Code_5";
    "Healthcare Provider Primary Taxonomy Switch_5";
    "Healthcare Provider Taxonomy Code_6";
    "Healthcare Provider Primary Taxonomy Switch_6";
    "Healthcare Provider Taxonomy Code_7";
    "Healthcare Provider Primary Taxonomy Switch_7";
    "Healthcare Provider Taxonomy Code_8";
    "Healthcare Provider Primary Taxonomy Switch_8";
    "Healthcare Provider Taxonomy Code_9";
    "Healthcare Provider Primary Taxonomy Switch_9";
    "Healthcare Provider Taxonomy Code_10";
    "Healthcare Provider Primary Taxonomy Switch_10";
    "Healthcare Provider Taxonomy Code_11";
    "Healthcare Provider Primary Taxonomy Switch_11";
    "Healthcare Provider Taxonomy Code_12";
    "Healthcare Provider Primary Taxonomy Switch_12";
    "Healthcare Provider Taxonomy Code_13";
    "Healthcare Provider Primary Taxonomy Switch_13";
    "Healthcare Provider Taxonomy Code_14";
    "Healthcare Provider Primary Taxonomy Switch_14";
    "Healthcare Provider Taxonomy Code_15";
    "Healthcare Provider Primary Taxonomy Switch_15"
  ].

Definition nppes_column_mapping : gmap string string :=
  list_to_map
  [
    ("NPI", "npi"); ("Entity Type Code", "entity_type_code");
    ("Provider Organization Name (Legal Business Name)", "provider_organization_name");
    ("Provider Last Name (Legal Name)", "provider_last_name");
    ("Provider First Name", "provider_first_name");
    ("Provider Middle Name", "provider_middle_name");
    ("Provider Name Prefix Text", "provider_name_prefix");
    ("Provider Name Suffix Text", "provider_name_suffix");
    ("Provider Credential Text", "provider_credential");
    ("Provider Other Organization Name", "provider_other_organization_name");
    ("Provider First Line Business Practice Location Address", "provider_location_address_1");
    ("Provider Second Line Business Practice Location Address", "provider_location_address_2");
    ("Provider Business Practice Location Address City Name", "provider_city");
    ("Provider Business Practice Location Address State Name", "provider_state");
    ("Provider Business Practice Location Address Postal Code", "provider_postal_code");
    ("Healthcare Provider Taxonomy Code_1", "healthcare_provider_taxonomy_code_1");
    ("Healthcare Provider Primary Taxonomy Switch_1", "healthcare_provider_primary_taxonomy_switch_1");
    ("Healthcare Provider Taxonomy Code_2", "healthcare_provider_taxonomy_code_2");
    ("Healthcare Provider Primary Taxonomy Switch_2", "healthcare_provider_primary_taxonomy_switch_2");
    ("Healthcare Provider Taxonomy Code_3", "healthcare_provider_taxonomy_code_3");
    ("Healthcare Provider Primary Taxonomy Switch_3", "healthcare_provider_primary_taxonomy_switch_3");
    ("Healthcare Provider Taxonomy Code_4", "healthcare_provider_taxonomy_code_4");
    ("Healthcare Provider Primary Taxonomy Switch_4", "healthcare_provider_primary_taxonomy_switch_4");
    ("Healthcare Provider Taxonomy Code_5", "healthcare_provider_taxonomy_code_5");
    ("Healthcare Provider Primary Taxonomy Switch_5", "healthcare_provider_primary_taxonomy_switch_5");
    ("Healthcare Provider Taxonomy Code_6", "healthcare_provider_taxonomy_code_6");
    ("Healthcare Provider Primary Taxonomy Switch_6", "healthcare_provider_primary_taxonomy_switch_6");
    ("Healthcare Provider Taxonomy Code_7", "healthcare_provider_taxonomy_code_7");
    ("Healthcare Provider Primary Taxonomy Switch_7", "healthcare_provider_primary_taxonomy_switch_7");
    ("Healthcare Provider Taxonomy Code_8", "healthcare_provider_taxonomy_code_8");
    ("Healthcare Provider Primary Taxonomy Switch_8", "healthcare_provider_primary_taxonomy_switch_8");
    ("Healthcare Provider Taxonomy Code_9", "healthcare_provider_taxonomy_code_9");
    ("Healthcare Provider Primary Taxonomy Switch_9", "healthcare_provider_primary_taxonomy_switch_9");
    ("Healthcare Provider Taxonomy Code_10", "healthcare_provider_taxonomy_code_10");
    ("Healthcare Provider Primary Taxonomy Switch_10", "healthcare_provider_primary_taxonomy_switch_10");
    ("Healthcare Provider Taxonomy Code_11", "healthcare_provider_taxonomy_code_11");
    ("Healthcare Provider Primary Taxonomy Switch_11", "healthcare_provider_primary_taxonomy_switch_11");
    ("Healthcare Provider Taxonomy Code_12", "healthcare_provider_taxonomy_code_12");
    ("Healthcare Provider Primary Taxonomy Switch_12", "healthcare_provider_primary_taxonomy_switch_12");
    ("Healthcare Provider Taxonomy Code_13", "healthcare_provider_taxonomy_code_13");
    ("Healthcare Provider Primary Taxonomy Switch_13", "healthcare_provider_primary_taxonomy_switch_13");
    ("Healthcare Provider Taxonomy Code_14", "healthcare_provider_taxonomy_code_14");
    ("Healthcare Provider Primary Taxonomy Switch_14", "healthcare_provider_primary_taxonomy_switch_14");
    ("Healthcare Provider Taxonomy Code_15", "healthcare_provider_taxonomy_code_15");
    ("Healthcare Provider Primary Taxonomy Switch_15", "healthcare_provider_primary_taxonomy_switch_15")
  ].

Section ParquetExtractor.

Variable download_blob : string -> string -> string + exn.

(** What [polars.scan_parquet(buffer)] reads when the plan is collected:
    the frame, or the exception polars raises. *)
Variable scan_parquet : string -> LazyFrame + exn.

(** As for the CSV files: [None] for an exception of the download, and
    the plan otherwise. *)
Definition extract_parquet_data_from_blob (filename : string)
    : option LazyPlan :=
  match download_blob "nppes" filename with
  | inr _ => None
  | inl file_buffer =>
      Some (Rename nppes_column_mapping
              (Select nppes_relevant_columns
                 (Scan (scan_parquet file_buffer))))
  end.

End ParquetExtractor.

(** Blobs and a parquet reader used in the examples. *)
Definition sample_zip_text : string :=
  "ZIP,COUNTY,USPS_ZIP_PREF_CITY,USPS_ZIP_PREF_STATE,RES_RATIO,BUS_RATIO,OTH_RATIO,TOT_RATIO"
  +:+ Py.nl +:+ "00501,36103,HOLTSVILLE,NY,0,1,0,1" +:+ Py.nl.

Definition sample_zip_frame : LazyFrame :=
  mkLazyFrame
    [ "ZIP"; "COUNTY"; "USPS_ZIP_PREF_CITY"; "USPS_ZIP_PREF_STATE";
      "RES_RATIO"; "BUS_RATIO"; "OTH_RATIO"; "TOT_RATIO" ]
    [ [ VStr "00501"; VStr "36103"; VStr "HOLTSVILLE"; VStr "NY";
        VInt 0; VInt 1; VInt 0; VInt 1 ] ].

Definition sample_download (container blob : string) : string + exn :=
  if (blob =? "zip.csv")%string then inl sample_zip_text else inr BlobError.

Definition sample_provider_frame : LazyFrame :=
  mkLazyFrame ("Last Update Date" :: nppes_relevant_columns)
    [ VStr "2024-01-01" :: map VStr nppes_relevant_columns ].

Definition sample_scan_parquet (buffer : string) : LazyFrame + exn :=
  match buffer with
  | EmptyString => inr PolarsError
  | _ => inl sample_provider_frame
  end.

Definition sample_body : Body :=
  mkBody "providers.parquet" "zip.csv" "ssa.csv" "taxonomy.csv".

(* ===================================================================== *)
(** ** Reading a line of the export back *)
(* ===================================================================== *)

(** The text the exporter puts between the quotes of a field, before it
    doubles the quotes: nothing for a null, [str(value)] otherwise,
    zero-filled at the position of the postal code. *)
Definition field_text (i : nat) (v : value) : string :=
  match v with
  | VNone => EmptyString
  | _ => if i =? 7 then Py.zfill 5 (Py.str v) else Py.str v
  end.

Fixpoint field_texts_from (i : nat) (r : row) : list string :=
  match r with
  | [] => []
  | v :: rest => field_text i v :: field_texts_from (S i) rest
  end.

Definition quote_field (t : string) : string :=
  Py.dq +:+ Py.replace_char Py.quote (Py.dq +:+ Py.dq) t +:+ Py.dq.

(** A reader of lines made of quoted fields separated by commas, in which
    a quote inside a field is written twice. *)
Inductive csv_state : Type := AtFieldStart | InQuoted | AfterQuote.

Fixpoint parse_quoted (st : csv_state) (cur : string) (done : list string)
    (s : string) : option (list string) :=
  match s with
  | EmptyString =>
      match st with
      | AfterQuote => Some (done ++ [cur])
      | AtFieldStart => match done with [] => Some [] | _ :: _ => None end
      | InQuoted => None
      end
  | String c rest =>
      match st with
      | AtFieldStart =>
          if (c =? Py.quote)%char then parse_quoted InQuoted EmptyString done rest
          else None
      | InQuoted =>
          if (c =? Py.quote)%char then parse_quoted AfterQuote cur done rest
          else parse_quoted InQuoted (cur +:+ String c EmptyString) done rest
      | AfterQuote =>
          if (c =? Py.quote)%char
          then parse_quoted InQuoted (cur +:+ Py.dq) done rest
          else if (c =? ",")%char
          then parse_quoted AtFieldStart EmptyString (done ++ [cur]) rest
          else None
      end
  end.

Definition read_csv_line (line : string) : option (list string) :=
  parse_quoted AtFieldStart EmptyString [] line.

(** A row of sixteen values, one more than the header has names. *)
Definition wide_row : row := map (fun i => VInt (Z.of_nat i)) (seq 0 16).

(* ===================================================================== *)
(** ** Plain texts *)
(* ===================================================================== *)

(** The characters of the decimal writing of an integer. *)
Definition decimal_char (c : ascii) : bool :=
  (48 <=? Py.code c) && (Py.code c <=? 57) || (c =? "-")%char.

(** The characters that change the shape of a line written for the bulk
    insert or the way it is read: the separator, the quote, the line
    breaks and the backslash. *)
Definition unsafe_char (c : ascii) : bool :=
  is_tab c || (c =? Py.quote)%char || Py.is_linebreak c || is_backslash c.

Definition not_space (c : ascii) : bool := negb (Py.is_space c).

(* ===================================================================== *)
(** ** The two routes: [NPPES_Data_Cleaning] and [export_clean_csv] *)
(* ===================================================================== *)

(** The JSON body of a request to [NPPES_Data_Cleaning]: the blob names and
    the three optional fields, [None] for a field that is absent. *)
Record Request : Type := mkRequest {
  body_files : Body;
  export_csv : option bool;
  csv_filename : option string;
  csv_chunk_size : option nat
}.

(** The JSON body of a request to [export_clean_csv]; an empty request
    body has no field. *)
Record ExportRequest : Type := mkExportRequest {
  chunk_size_field : option nat;
  output_filename_field : option string
}.

(** The answer of a route: its status code, and the blob the exporter
    uploaded on the way, if any. *)
Record Response : Type := mkResponse {
  status_code : nat;
  artifact : option (string * string)
}.

Definition default_export_chunk_size : nat := 50 * 1000.
Definition default_export_filename : string := "nppes_clean_export.csv".

Section Routes.

(** [fetch_api_data()]: the header row and the data rows, or the exception
    of the HTTP client. *)
Variable fetch_api_data : (list string * list row) + exn.
Variable parse_int : string -> option Z.
Variable api_copy_raises : bool.
Variable download_blob : string -> string -> string + exn.
Variable scan_csv : string -> list (string * dtype) -> LazyFrame + exn.
Variable scan_parquet : string -> LazyFrame + exn.
Variable raises : string -> nat -> stmt -> bool.

(** Modelled from the spec: the stored procedures
    [clean_and_populate_nppes_data] and [create_export_view] are not part
    of the Python source; the spec calls them opaque store-side cleaning
    and view population.  [procedures tables] is the store after both
    calls and the commit, or the exception of the store; [export_view
    tables] is the view [get_export_chunk] reads in that store. *)
Variable procedures : gmap string (list row) -> gmap string (list row) + exn.
Variable export_view : gmap string (list row) -> list row.

Variable upload_error : string -> string -> option string.

(** Every exception is turned into status 500 by the outer [except]. *)
Definition NPPES_Data_Cleaning (req : Request)
    (tables : gmap string (list row)) : option Response :=
  match fetch_api_data with
  | inr _ => Some (mkResponse 500 None)
  | inl (headers, rows) =>
      match load_api_data parse_int api_copy_raises headers rows
              (fresh_conn tables) with
      | (inr _, _) => Some (mkResponse 500 None)
      | (inl _, conn) =>
          match load_phase download_blob scan_csv
                  (extract_parquet_data_from_blob download_blob scan_parquet)
                  raises (body_files req) (committed conn) with
          | None => None
          | Some (inr _) => Some (mkResponse 500 None)
          | Some (inl loaded) =>
              match procedures loaded with
              | inr _ => Some (mkResponse 500 None)
              | inl cleaned =>
                  if default true (export_csv req) then
                    match export_clean_data_to_csv_chunked
                            (export_view cleaned) upload_error
                            (default default_export_chunk_size
                                     (csv_chunk_size req))
                            (default default_export_filename
                                     (csv_filename req)) with
                    | None => None
                    | Some result => Some (mkResponse 200 (uploaded result))
                    end
                  else Some (mkResponse 200 None)
              end
          end
      end
  end.

(** The export route answers 200 when the exporter returns [True] and 500
    when it returns [False]. *)
Definition export_clean_csv (req : ExportRequest)
    (tables : gmap string (list row)) : option Response :=
  match export_clean_data_to_csv_chunked (export_view tables) upload_error
          (default default_export_chunk_size (chunk_size_field req))
          (default default_export_filename (output_filename_field req)) with
  | None => None
  | Some result =>
      if export_success result
      then Some (mkResponse 200 (uploaded result))
      else Some (mkResponse 500 (uploaded result))
  end.

End Routes.

(** A world for the examples: the API answers one county. *)
Definition sample_fetch : (list string * list row) + exn :=
  inl (census_headers,
       [ [VStr "Alpha County"; VStr "1200"; VStr "01"; VStr "001"] ]).

Definition upload_always_fails : string -> string -> option string :=
  fun _ _ => Some "upload refused".

Definition sample_request : Request :=
  mkRequest sample_body None None (Some 2).

(* ===================================================================== *)
(** ** Lemmas on row windows *)
(* ===================================================================== *)

Lemma is_empty_true (b : list row) : is_empty b = true <-> b = [].
Proof. destruct b; simpl; split; congruence. Qed.

Lemma is_empty_length (b : list row) : is_empty b = (length b =? 0).
Proof. now destruct b. Qed.

Lemma slice_collect_length lf off len :
  length (slice_collect lf off len) = Nat.min len (length (lf_rows lf) - off).
Proof. unfold slice_collect. now rewrite length_firstn, length_skipn. Qed.

Lemma window_length lf c i :
  length (window lf c i) = Nat.min c (length (lf_rows lf) - i * c).
Proof. apply slice_collect_length. Qed.

Lemma window_full lf c i :
  (i + 1) * c <= length (lf_rows lf) -> length (window lf c i) = c.
Proof. rewrite window_length. lia. Qed.

Lemma div_mod_split (n c : nat) :
  0 < c -> n = (n / c) * c + n mod c /\ n mod c < c.
Proof.
  intros Hc. split.
  - rewrite (Nat.div_mod_eq n c) at 1. lia.
  - apply Nat.mod_upper_bound. lia.
Qed.

Lemma ceil_div_split (n c : nat) :
  0 < c -> ceil_div n c = n / c + (if n mod c =? 0 then 0 else 1).
Proof.
  intros Hc. unfold ceil_div.
  destruct (div_mod_split n c Hc) as [Hn Hr].
  set (q := n / c) in *. set (r := n mod c) in *.
  destruct (Nat.eqb_spec r 0) as [E|E].
  - symmetry. apply (Nat.div_unique _ _ _ (c - 1)); lia.
  - symmetry. apply (Nat.div_unique _ _ _ (r - 1)); lia.
Qed.

Lemma concat_windows lf c d :
  concat (map (window lf c) (seq 0 d)) = firstn (d * c) (lf_rows lf).
Proof.
  induction d as [|d IH].
  - reflexivity.
  - rewrite seq_S, map_app, concat_app, IH. simpl.
    rewrite app_nil_r. unfold window, slice_collect.
    replace (c + d * c) with (d * c + c) by lia.
    rewrite <- (firstn_skipn (d * c) (firstn (d * c + c) (lf_rows lf))).
    f_equal.
    + rewrite firstn_firstn. f_equal. lia.
    + rewrite skipn_firstn_comm. f_equal. lia.
Qed.

Lemma list_sum_concat (ws : list (list row)) :
  list_sum (map (@length row) ws) = length (concat ws).
Proof.
  induction ws as [|w ws IH]; simpl; [reflexivity|].
  rewrite length_app. now rewrite IH.
Qed.

(** The load of a frame that is read already: the loop runs on its rows. *)
Lemma load_ready (raises : nat -> stmt -> bool) (lf : LazyFrame) (t : string)
    (c : nat) (conn : Conn) :
  load_chunked_blob_data_to_postgres raises lf t c conn =
  match load_loop raises lf t c (S (length (lf_rows lf))) 0 0 conn with
  | None => None
  | Some (r, conn1) => Some (r, close conn1)
  end.
Proof. reflexivity. Qed.

(* ===================================================================== *)
(** ** The loader: successful chunk transactions *)
(* ===================================================================== *)

Section LoaderFacts.

Variable raises : nat -> stmt -> bool.
Variable lazy_df : LazyFrame.
Variable target_table : string.
Variable chunk_size : nat.

Abbreviation n := (length (lf_rows lazy_df)).
Abbreviation cols := (lf_columns lazy_df).
Abbreviation loop := (load_loop raises lazy_df target_table chunk_size).
Abbreviation txn := (chunk_transaction raises lazy_df target_table).
Abbreviation win := (window lazy_df chunk_size).
Abbreviation okc := (ok_chunk lazy_df target_table).
Abbreviation oke := (ok_events lazy_df target_table).
Abbreviation full := (run_full lazy_df target_table chunk_size).
Abbreviation cap := (capped target_table).

Lemma txn_ok cc w conn :
  raises cc CallTruncate = false -> raises cc CopyFrom = false ->
  txn cc w conn = (inl tt, okc cc w conn).
Proof.
  intros Ht Hc. unfold chunk_transaction, ok_chunk.
  rewrite Ht, Hc. now destruct (cc =? 1).
Qed.

Lemma txn_copy_fails cc w conn :
  (cc = 1 -> raises cc CallTruncate = false) -> raises cc CopyFrom = true ->
  txn cc w conn =
    (inr (StoreError cc),
     rollback (emit (EvCopy target_table cols w)
                 (if cc =? 1 then truncate_table target_table conn else conn))).
Proof.
  intros Ht Hc. unfold chunk_transaction. rewrite Hc.
  destruct (Nat.eqb_spec cc 1) as [E|E]; [|reflexivity].
  now rewrite (Ht E).
Qed.

Lemma load_loop_step fuel cc total conn :
  loop (S fuel) cc total conn =
    let batch := slice_collect lazy_df total chunk_size in
    if is_empty batch then Some (inl total, conn)
    else if (cc + 1 =? 6) && (target_table =? "nppes_providers")%string
    then Some (inl total, conn)
    else match txn (cc + 1) batch conn with
         | (inr e, conn1) => Some (inr e, conn1)
         | (inl _, conn1) =>
             if length batch <? chunk_size
             then Some (inl (total + length batch), conn1)
             else loop fuel (cc + 1) (total + length batch) conn1
         end.
Proof. reflexivity. Qed.

(** [d] full windows that the store accepts take the loop from window
    [j] to window [j + d]. *)
Lemma load_loop_prefix d : forall j fuel conn,
  0 < chunk_size ->
  (forall i s, j < i <= j + d -> raises i s = false) ->
  (j + d) * chunk_size <= n ->
  (cap = true -> j + d <= 5) ->
  loop (d + fuel) j (j * chunk_size) conn =
  loop fuel (j + d) ((j + d) * chunk_size) (full j d conn).
Proof.
  induction d as [|d IH]; intros j fuel conn Hc Hr Hn Hcap.
  - simpl. now rewrite Nat.add_0_r.
  - change (S d + fuel) with (S (d + fuel)). rewrite load_loop_step. cbv zeta.
    fold (win j).
    assert (Hlen : length (win j) = chunk_size) by (apply window_full; lia).
    rewrite is_empty_length, Hlen.
    destruct (Nat.eqb_spec chunk_size 0) as [E|_]; [lia|].
    replace ((j + 1 =? 6) && (target_table =? "nppes_providers")%string)
      with false.
    2:{ symmetry. apply andb_false_iff.
        destruct (target_table =? "nppes_providers")%string eqn:E; [|now right].
        left. apply Nat.eqb_neq. specialize (Hcap E). lia. }
    rewrite txn_ok by (apply Hr; lia).
    rewrite Nat.ltb_irrefl.
    replace (j * chunk_size + chunk_size) with ((S j) * chunk_size) by lia.
    replace (j + 1) with (S j) by lia.
    rewrite IH; try assumption.
    + simpl. repeat f_equal; lia.
    + intros i s Hi. apply Hr. lia.
    + lia.
    + intros E. specialize (Hcap E). lia.
Qed.

Lemma load_loop_prefix0 d fuel conn :
  0 < chunk_size ->
  (forall i s, 0 < i <= d -> raises i s = false) ->
  d * chunk_size <= n ->
  (cap = true -> d <= 5) ->
  loop (d + fuel) 0 0 conn = loop fuel d (d * chunk_size) (full 0 d conn).
Proof.
  intros Hc Hr Hn Hcap.
  apply (load_loop_prefix d 0 fuel conn); assumption.
Qed.

Lemma run_full_log d : forall j conn,
  log (full j d conn) =
  log conn ++ flat_map (fun i => oke (S i) (win i)) (seq j d).
Proof.
  induction d as [|d IH]; intros j conn; simpl.
  - now rewrite app_nil_r.
  - rewrite IH. unfold ok_chunk, ok_events. simpl.
    destruct j; simpl; rewrite <- ?app_assoc; reflexivity.
Qed.

Lemma run_full_closed d : forall j conn,
  closed (full j d conn) = closed conn.
Proof.
  induction d as [|d IH]; intros j conn; simpl; [reflexivity|].
  rewrite IH. unfold ok_chunk. now destruct (S j =? 1).
Qed.

Lemma run_full_working d : forall j conn,
  working conn = committed conn ->
  working (full j d conn) = committed (full j d conn).
Proof.
  induction d as [|d IH]; intros j conn H; simpl; [assumption|].
  now apply IH.
Qed.

Lemma committed_windows_ok_events cc w rest :
  committed_windows [] (oke cc w ++ rest) =
  w :: committed_windows [] rest.
Proof. unfold ok_events. now destruct (cc =? 1). Qed.

Lemma committed_windows_full d : forall j rest,
  committed_windows []
    (flat_map (fun i => oke (S i) (win i)) (seq j d) ++ rest) =
  map win (seq j d) ++ committed_windows [] rest.
Proof.
  induction d as [|d IH]; intros j rest; simpl; [reflexivity|].
  rewrite <- app_assoc, committed_windows_ok_events. now rewrite IH.
Qed.

Lemma table_of_insert (m : gmap string (list row)) t v :
  table_of (<[t := v]> m) t = v.
Proof. unfold table_of. now rewrite lookup_insert_eq. Qed.

Lemma ok_chunk_committed cc w conn :
  working conn = committed conn ->
  committed (okc cc w conn) =
  <[target_table :=
      (if cc =? 1 then [] else table_of (committed conn) target_table) ++ w]>
    (committed conn).
Proof.
  intros H. unfold ok_chunk. destruct (cc =? 1); simpl; rewrite H.
  - now rewrite table_of_insert, insert_insert_eq.
  - reflexivity.
Qed.

Lemma run_full_committed d : forall j conn,
  working conn = committed conn ->
  committed (full j (S d) conn) =
  <[target_table :=
      (if j =? 0 then [] else table_of (committed conn) target_table)
      ++ concat (map win (seq j (S d)))]> (committed conn).
Proof.
  induction d as [|d IH]; intros j conn H.
  - change (full j 1 conn) with (okc (S j) (win j) conn).
    rewrite ok_chunk_committed by assumption.
    change (S j =? 1) with (j =? 0). simpl. now rewrite app_nil_r.
  - change (full j (S (S d)) conn)
      with (full (S j) (S d) (okc (S j) (win j) conn)).
    rewrite IH by reflexivity.
    rewrite ok_chunk_committed by assumption.
    rewrite table_of_insert, insert_insert_eq.
    change (S j =? 0) with false. cbv iota.
    change (S j =? 1) with (j =? 0).
    f_equal. change (seq j (S (S d))) with (j :: seq (S j) (S d)).
    rewrite map_cons, concat_cons. now rewrite app_assoc.
Qed.

End LoaderFacts.

Section LoaderRuns.

Variable lazy_df : LazyFrame.
Variable target_table : string.
Variable chunk_size : nat.

Abbreviation n := (length (lf_rows lazy_df)).
Abbreviation cols := (lf_columns lazy_df).
Abbreviation win := (window lazy_df chunk_size).
Abbreviation full := (run_full lazy_df target_table chunk_size).

Lemma run_full_snoc d : forall j conn,
  full j (S d) conn =
  ok_chunk lazy_df target_table (S (j + d)) (win (j + d)) (full j d conn).
Proof.
  induction d as [|d IH]; intros j conn.
  - simpl. now rewrite Nat.add_0_r.
  - change (full j (S (S d)) conn)
      with (full (S j) (S d) (ok_chunk lazy_df target_table (S j) (win j) conn)).
    rewrite IH. simpl. repeat f_equal; lia.
Qed.

Lemma capped_spec :
  capped target_table = true <-> target_table = "nppes_providers".
Proof. unfold capped. apply String.eqb_eq. Qed.

(** A load that the store accepts and that the cap does not cut. *)
Lemma load_no_fault_uncapped conn :
  0 < chunk_size ->
  (target_table <> "nppes_providers" \/ n <= 5 * chunk_size) ->
  load_chunked_blob_data_to_postgres no_fault lazy_df target_table chunk_size conn
  = Some (inl n, close (full 0 (ceil_div n chunk_size) conn)).
Proof.
  intros Hc Hcap.
  destruct (div_mod_split n chunk_size Hc) as [Hn Hr].
  rewrite (ceil_div_split _ _ Hc).
  set (q := n / chunk_size) in *. set (r := n mod chunk_size) in *.
  assert (Hq : q <= n) by nia.
  rewrite load_ready.
  replace (S n) with (q + S (n - q)) by lia.
  rewrite load_loop_prefix0; try assumption; try reflexivity.
  2:{ lia. }
  2:{ rewrite capped_spec. intros E. destruct Hcap as [H|H]; [congruence|].
      nia. }
  rewrite load_loop_step. cbv zeta.
  rewrite is_empty_length, slice_collect_length.
  destruct (Nat.eqb_spec r 0) as [E|E].
  - replace (Nat.min chunk_size (n - q * chunk_size) =? 0) with true
      by (symmetry; apply Nat.eqb_eq; lia).
    rewrite Nat.add_0_r. do 3 f_equal. lia.
  - replace (Nat.min chunk_size (n - q * chunk_size) =? 0) with false
      by (symmetry; apply Nat.eqb_neq; lia).
    replace ((q + 1 =? 6) && (target_table =? "nppes_providers")%string)
      with false.
    2:{ symmetry. apply andb_false_iff.
        destruct (String.eqb_spec target_table "nppes_providers") as [E'|E'];
          [|now right].
        left. apply Nat.eqb_neq. destruct Hcap as [H|H]; [congruence|nia]. }
    rewrite txn_ok by reflexivity.
    replace (Nat.min chunk_size (n - q * chunk_size) <? chunk_size) with true
      by (symmetry; apply Nat.ltb_lt; lia).
    replace (q + 1) with (S q) by lia.
    rewrite run_full_snoc. simpl (0 + q).
    do 3 f_equal. lia.
Qed.

(** The store refuses the bulk insert of chunk [k] and nothing before. *)
Lemma load_copy_fails raises k conn :
  0 < chunk_size -> 0 < k -> (k - 1) * chunk_size < n ->
  (target_table = "nppes_providers" -> k <= 5) ->
  (forall i s, i < k -> raises i s = false) ->
  (k = 1 -> raises 1 CallTruncate = false) ->
  raises k CopyFrom = true ->
  load_chunked_blob_data_to_postgres raises lazy_df target_table chunk_size conn
  = Some (inr (StoreError k),
          close (rollback (emit (EvCopy target_table cols (win (k - 1)))
                   (if k =? 1
                    then truncate_table target_table (full 0 (k - 1) conn)
                    else full 0 (k - 1) conn)))).
Proof.
  intros Hc Hk Hlt Hcap Hok Htr Hfail.
  assert (Hq : k - 1 <= n) by nia.
  rewrite load_ready.
  replace (S n) with ((k - 1) + S (n - (k - 1))) by lia.
  rewrite load_loop_prefix0; try assumption.
  2:{ intros i s Hi. apply Hok. lia. }
  2:{ lia. }
  2:{ rewrite capped_spec. intros E. specialize (Hcap E). lia. }
  rewrite load_loop_step. cbv zeta.
  rewrite is_empty_length, slice_collect_length.
  replace (Nat.min chunk_size (n - (k - 1) * chunk_size) =? 0) with false
    by (symmetry; apply Nat.eqb_neq; lia).
  replace (k - 1 + 1) with k by lia.
  replace ((k =? 6) && (target_table =? "nppes_providers")%string) with false.
  2:{ symmetry. apply andb_false_iff.
      destruct (String.eqb_spec target_table "nppes_providers") as [E'|E'];
        [|now right].
      left. apply Nat.eqb_neq. specialize (Hcap E'). lia. }
  rewrite txn_copy_fails; try assumption.
  - reflexivity.
  - intros ->. now apply Htr.
Qed.

Lemma copies_of_full d : forall j,
  length (List.filter is_copy
            (flat_map (fun i => ok_events lazy_df target_table (S i) (win i))
                      (seq j d))) = d.
Proof.
  induction d as [|d IH]; intros j; simpl; [reflexivity|].
  rewrite List.filter_app, length_app, IH.
  unfold ok_events. now destruct (S j =? 1).
Qed.

End LoaderRuns.

(* ===================================================================== *)
(** ** The loader under an arbitrary behaviour of the store *)
(* ===================================================================== *)

Section LoaderAnyStore.

Variable raises : nat -> stmt -> bool.
Variable lazy_df : LazyFrame.
Variable target_table : string.
Variable chunk_size : nat.

Abbreviation n := (length (lf_rows lazy_df)).
Abbreviation cols := (lf_columns lazy_df).
Abbreviation loop := (load_loop raises lazy_df target_table chunk_size).
Abbreviation txn := (chunk_transaction raises lazy_df target_table).
Abbreviation succeeds := (txn_succeeds raises).
Abbreviation events := (txn_events raises lazy_df target_table).

Lemma txn_result cc b conn :
  fst (txn cc b conn) =
  if succeeds cc then inl tt else inr (StoreError cc).
Proof.
  unfold chunk_transaction, txn_succeeds.
  destruct (cc =? 1), (raises cc CallTruncate), (raises cc CopyFrom);
    reflexivity.
Qed.

Lemma txn_log cc b conn :
  log (snd (txn cc b conn)) = log conn ++ events cc b.
Proof.
  unfold chunk_transaction, txn_events.
  destruct (cc =? 1), (raises cc CallTruncate), (raises cc CopyFrom);
    simpl; rewrite <- ?app_assoc; reflexivity.
Qed.

Lemma txn_events_windows cc b rest :
  committed_windows [] (events cc b ++ rest) =
  (if succeeds cc then [b] else []) ++ committed_windows [] rest.
Proof.
  unfold txn_events, txn_succeeds.
  destruct (cc =? 1), (raises cc CallTruncate), (raises cc CopyFrom);
    reflexivity.
Qed.

Lemma txn_events_no_truncate cc b :
  cc <> 1 -> List.filter is_truncate (events cc b) = [].
Proof.
  intros H. unfold txn_events.
  destruct (Nat.eqb_spec cc 1) as [E|_]; [contradiction|].
  simpl. now destruct (raises cc CopyFrom).
Qed.

(** The loop returns whatever the store does. *)
Lemma load_loop_total fuel : forall cc total conn,
  n - total < fuel -> exists r conn', loop fuel cc total conn = Some (r, conn').
Proof.
  induction fuel as [|fuel IH]; intros cc total conn Hf; [lia|].
  rewrite load_loop_step. cbv zeta.
  destruct (is_empty _) eqn:Eempty; [eauto|].
  destruct (_ && _); [eauto|].
  destruct (txn _ _ conn) as [[u|e] conn1]; [|eauto].
  destruct (Nat.ltb_spec (length (slice_collect lazy_df total chunk_size))
              chunk_size) as [Hlt|Hge]; [eauto|].
  apply IH.
  rewrite is_empty_length in Eempty. apply Nat.eqb_neq in Eempty.
  rewrite slice_collect_length in *. lia.
Qed.

(** What a run of the loop from chunk count [cc] sends to the store. *)
Lemma load_loop_events fuel : forall cc total conn r conn',
  loop fuel cc total conn = Some (r, conn') ->
  exists evs,
    log conn' = log conn ++ evs /\
    (1 <= cc -> List.filter is_truncate evs = []) /\
    Forall (fun w => length w <= chunk_size) (committed_windows [] evs) /\
    (capped target_table = true -> cc <= 5 ->
     length (committed_windows [] evs) <= 5 - cc).
Proof.
  induction fuel as [|fuel IH]; intros cc total conn r conn' H; [discriminate|].
  rewrite load_loop_step in H. cbv zeta in H.
  destruct (is_empty _) eqn:Eempty.
  { injection H as <- <-. exists []. rewrite app_nil_r.
    repeat split; simpl; auto; lia. }
  destruct (_ && _) eqn:Ecap.
  { injection H as <- <-. exists []. rewrite app_nil_r.
    repeat split; simpl; auto; lia. }
  set (batch := slice_collect lazy_df total chunk_size) in *.
  assert (Hb : length batch <= chunk_size)
    by (unfold batch; rewrite slice_collect_length; lia).
  assert (Hcc : capped target_table = true -> cc <= 5 -> cc <= 4).
  { intros E Hle. unfold capped in E. rewrite E, andb_true_r in Ecap.
    apply Nat.eqb_neq in Ecap. lia. }
  pose proof (txn_log (cc + 1) batch conn) as Hlog.
  pose proof (txn_result (cc + 1) batch conn) as Hres.
  pose proof (txn_events_windows (cc + 1) batch) as Hwin.
  destruct (txn (cc + 1) batch conn) as [[u|e] conn1]; simpl in Hlog, Hres.
  - destruct (succeeds (cc + 1)); [|discriminate].
    destruct (length batch <? chunk_size).
    + injection H as <- <-. exists (events (cc + 1) batch).
      split; [assumption|].
      rewrite <- (app_nil_r (events _ _)) at 2 3.
      rewrite Hwin. simpl.
      split; [intros; apply txn_events_no_truncate; lia|].
      split; [repeat constructor; assumption|].
      intros E Hle. specialize (Hcc E Hle). lia.
    + apply IH in H. destruct H as (evs & Hl & Htr & Hall & Hcnt).
      exists (events (cc + 1) batch ++ evs).
      rewrite Hl, Hlog, <- app_assoc. split; [reflexivity|].
      rewrite Hwin. simpl.
      split.
      { intros Hge. rewrite List.filter_app, txn_events_no_truncate by lia.
        apply Htr. lia. }
      split; [constructor; assumption|].
      intros E Hle. specialize (Hcc E Hle).
      specialize (Hcnt E). lia.
  - destruct (succeeds (cc + 1)); [discriminate|].
    injection H as <- <-. exists (events (cc + 1) batch).
    split; [assumption|].
    rewrite <- (app_nil_r (events _ _)) at 2 3.
    rewrite Hwin. simpl.
    split; [intros; apply txn_events_no_truncate; lia|].
    split; [constructor|]. intros; lia.
Qed.

End LoaderAnyStore.

(** The loader returns or raises; it never runs out of fuel. *)
Lemma load_total (raises : nat -> stmt -> bool) (lf : LazyFrame) (t : string)
    (c : nat) (conn : Conn) :
  exists r conn',
    load_chunked_blob_data_to_postgres raises lf t c conn = Some (r, conn').
Proof.
  rewrite load_ready.
  destruct (load_loop_total raises lf t c (S (length (lf_rows lf))) 0 0 conn)
    as (r & conn1 & ->); [lia|].
  eauto.
Qed.

(* ===================================================================== *)
(** ** Properties of the chunked loader *)
(* ===================================================================== *)

(** The theorems of this part are about a dataset [lf] that polars reads
    without error, handed to the loader as the plan [ready lf].  Lemma
    [load_collected] carries them to every lazy frame that collects to
    [lf]; lemma [load_collect_error] is about the lazy frames that do not
    collect. *)

Lemma ceil_div_covers (n c : nat) :
  0 < c -> n <= ceil_div n c * c /\ (0 < n -> 0 < ceil_div n c).
Proof.
  intros Hc. rewrite (ceil_div_split _ _ Hc).
  destruct (div_mod_split n c Hc) as [Hn Hr].
  destruct (Nat.eqb_spec (n mod c) 0); split; nia.
Qed.

(** A load the store accepts and the cap does not cut: result and log. *)
Lemma uncapped_load_all_rows (lf : LazyFrame) (t : string) (c : nat)
    (tables : gmap string (list row)) :
  0 < c ->
  (t <> "nppes_providers" \/ length (lf_rows lf) <= 5 * c) ->
  exists conn',
    load_chunked_blob_data_to_postgres no_fault lf t c (fresh_conn tables)
      = Some (inl (length (lf_rows lf)), conn') /\
    concat (committed_windows [] (log conn')) = lf_rows lf.
Proof.
  intros Hc Hcap.
  destruct (ceil_div_covers (length (lf_rows lf)) c Hc) as [Hcover _].
  eexists. split; [now apply load_no_fault_uncapped|].
  simpl. rewrite run_full_log. simpl.
  rewrite committed_windows_full. simpl. rewrite app_nil_r.
  rewrite concat_windows. apply firstn_all2. lia.
Qed.

(** C1, as the code has it.  For a chunk size [c >= 1], when the store
    accepts every statement and the cap of the table [nppes_providers] is
    not reached, the loader returns, and the windows it loads are the
    slices at the offsets 0, c, 2c, ...: there are [ceil (n / c)] of them,
    every one but the last has exactly [c] rows, the last has between 1 and
    [c] rows and has fewer than [c] exactly when [c] does not divide [n],
    and together they are the [n] rows of the dataset. *)
Theorem loader_row_windows (lf : LazyFrame) (t : string) (c : nat)
    (tables : gmap string (list row)) :
  0 < c ->
  (t <> "nppes_providers" \/ length (lf_rows lf) <= 5 * c) ->
  exists conn',
    load_chunked_blob_data_to_postgres no_fault lf t c (fresh_conn tables)
      = Some (inl (length (lf_rows lf)), conn') /\
    committed_windows [] (log conn')
      = map (fun i => slice_collect lf (i * c) c)
            (seq 0 (ceil_div (length (lf_rows lf)) c)) /\
    (forall i, i + 1 < ceil_div (length (lf_rows lf)) c ->
       length (slice_collect lf (i * c) c) = c) /\
    (forall i, i + 1 = ceil_div (length (lf_rows lf)) c ->
       0 < length (slice_collect lf (i * c) c) <= c /\
       (length (slice_collect lf (i * c) c) < c
        <-> length (lf_rows lf) mod c <> 0)) /\
    concat (committed_windows [] (log conn')) = lf_rows lf /\
    list_sum (map (@length row) (committed_windows [] (log conn')))
      = length (lf_rows lf) /\
    (lf_rows lf <> [] -> committed conn' = <[t := lf_rows lf]> tables).
Proof.
  intros Hc Hcap.
  set (n := length (lf_rows lf)). set (k := ceil_div n c).
  destruct (ceil_div_covers n c Hc) as [Hcover Hpos].
  pose proof (ceil_div_split n c Hc) as Hk.
  destruct (div_mod_split n c Hc) as [Hn Hr].
  fold k in Hcover, Hpos, Hk.
  assert (Hwins : committed_windows [] (log (close (run_full lf t c 0 k (fresh_conn tables))))
                  = map (window lf c) (seq 0 k)).
  { simpl. rewrite run_full_log. simpl.
    rewrite committed_windows_full. simpl. apply app_nil_r. }
  assert (Hall : concat (map (window lf c) (seq 0 k)) = lf_rows lf).
  { rewrite concat_windows. apply firstn_all2. fold n. lia. }
  exists (close (run_full lf t c 0 k (fresh_conn tables))).
  split; [now apply load_no_fault_uncapped|].
  split; [exact Hwins|].
  split.
  { intros i Hi. apply (window_full lf c i). fold n.
    destruct (n mod c =? 0); nia. }
  split.
  { intros i Hi. fold (window lf c i). rewrite window_length. fold n.
    destruct (Nat.eqb_spec (n mod c) 0) as [E|E].
    - assert (n - i * c = c) by nia. split; [lia|]. split; lia.
    - assert (i = n / c) by lia. subst i.
      assert (n - n / c * c = n mod c) by lia. split; [lia|]. split; lia. }
  split; [now rewrite Hwins|].
  split; [now rewrite list_sum_concat, Hwins, Hall|].
  intros Hne.
  assert (0 < n) by (unfold n; destruct (lf_rows lf); [contradiction|simpl; lia]).
  destruct k as [|k']; [lia|].
  change (committed (close ?x)) with (committed x).
  rewrite run_full_committed by reflexivity.
  simpl (0 =? 0). cbv iota. rewrite app_nil_l. now rewrite Hall.
Qed.

Lemma loader_row_windows_witness :
  exists conn',
    load_chunked_blob_data_to_postgres no_fault (demo_frame 5) "zip_county" 2
      (fresh_conn no_tables) = Some (inl 5, conn') /\
    list_sum (map (@length row) (committed_windows [] (log conn'))) = 5.
Proof.
  destruct (loader_row_windows (demo_frame 5) "zip_county" 2 no_tables)
    as (conn' & H1 & _ & _ & _ & _ & H6 & _).
  - lia.
  - right. simpl. lia.
  - exists conn'. split; [exact H1 | exact H6].
Defined.

(** C1 as the specification words it fails: on four rows with chunk size
    two the loader loads two windows, and the last one loaded has two rows,
    which is not fewer than the chunk size. *)
Lemma loader_final_window_full :
  exists conn',
    load_chunked_blob_data_to_postgres no_fault (demo_frame 4) "zip_county" 2
      (fresh_conn no_tables) = Some (inl 4, conn') /\
    length (committed_windows [] (log conn')) = ceil_div 4 2 /\
    ~ length (List.last (committed_windows [] (log conn')) []) < 2.
Proof.
  eexists. split; [vm_compute; reflexivity|].
  split; [reflexivity|]. vm_compute. lia.
Qed.

Lemma committed_windows_close (evs : list event) : forall pending,
  committed_windows pending (evs ++ [EvClose]) = committed_windows pending evs.
Proof.
  induction evs as [|e evs IH]; intros pending; [reflexivity|].
  destruct e; simpl; now rewrite ?IH.
Qed.

Lemma list_sum_bound (c : nat) (ws : list (list row)) :
  Forall (fun w => length w <= c) ws ->
  list_sum (map (@length row) ws) <= length ws * c.
Proof. induction 1; simpl; lia. Qed.

(** C2 as the specification words it fails: on an empty dataset the loader
    returns without ever calling the truncate procedure. *)
Lemma loader_empty_dataset_no_truncate :
  exists conn',
    load_chunked_blob_data_to_postgres no_fault (demo_frame 0) "zip_county" 2
      (fresh_conn no_tables) = Some (inl 0, conn') /\
    length (List.filter is_truncate (log conn')) <> 1.
Proof. eexists. split; [vm_compute; reflexivity|]. vm_compute. lia. Qed.

(** C2, as the code has it.  Whatever the store does, the loader returns.
    When the first window is empty it never calls the truncate procedure.
    When the first window is not empty the truncate call is the first
    statement of the first chunk's transaction: that transaction is
    truncate, bulk insert, commit, or it is rolled back as a whole and the
    committed tables are the ones the loader found; no later statement is a
    truncate call. *)
Theorem loader_truncate_first_chunk (raises : nat -> stmt -> bool)
    (lf : LazyFrame) (t : string) (c : nat) (tables : gmap string (list row)) :
  exists r conn',
    load_chunked_blob_data_to_postgres raises lf t c (fresh_conn tables)
      = Some (r, conn') /\
    (slice_collect lf 0 c = [] -> List.filter is_truncate (log conn') = []) /\
    (slice_collect lf 0 c <> [] ->
     exists rest,
       List.filter is_truncate rest = [] /\
       (log conn' = EvTruncate t :: EvCopy t (lf_columns lf) (slice_collect lf 0 c)
                      :: EvCommit :: rest
        \/ (log conn' = EvTruncate t :: EvCopy t (lf_columns lf) (slice_collect lf 0 c)
                          :: EvRollback :: rest
            /\ committed conn' = tables)
        \/ (log conn' = EvTruncate t :: EvRollback :: rest
            /\ committed conn' = tables))).
Proof.
  rewrite load_ready.
  destruct (load_loop_total raises lf t c (S (length (lf_rows lf))) 0 0
              (fresh_conn tables)) as (r & conn1 & Hrun); [lia|].
  rewrite Hrun. exists r, (close conn1). split; [reflexivity|].
  rewrite load_loop_step in Hrun. cbv zeta in Hrun.
  destruct (is_empty (slice_collect lf 0 c)) eqn:Eempty.
  { apply is_empty_true in Eempty. injection Hrun as <- <-.
    split; [reflexivity | intros H; contradiction]. }
  assert (Hne : slice_collect lf 0 c <> []).
  { intros E. rewrite E in Eempty. discriminate. }
  split; [intros E; contradiction | intros _].
  change ((0 + 1 =? 6) && (t =? "nppes_providers")%string) with false in Hrun.
  cbv iota in Hrun.
  unfold chunk_transaction in Hrun. change (0 + 1 =? 1) with true in Hrun.
  cbv iota in Hrun. change (0 + 1) with 1 in Hrun.
  destruct (raises 1 CallTruncate).
  { injection Hrun as <- <-. exists [EvClose]. split; [reflexivity|].
    right. right. split; reflexivity. }
  destruct (raises 1 CopyFrom).
  { injection Hrun as <- <-. exists [EvClose]. split; [reflexivity|].
    right. left. split; reflexivity. }
  destruct (length (slice_collect lf 0 c) <? c).
  { injection Hrun as <- <-. exists [EvClose]. split; [reflexivity|].
    left. reflexivity. }
  apply load_loop_events in Hrun.
  destruct Hrun as (evs & Hlog & Htr & _).
  exists (evs ++ [EvClose]). split.
  - rewrite List.filter_app, Htr by lia. reflexivity.
  - left. simpl. rewrite Hlog. reflexivity.
Qed.

Lemma loader_truncate_first_chunk_witness :
  exists r conn' rest,
    load_chunked_blob_data_to_postgres no_fault (demo_frame 3) "zip_county" 2
      (fresh_conn no_tables) = Some (r, conn') /\
    List.filter is_truncate rest = [] /\
    length (List.filter is_truncate (log conn')) = 1 /\
    log conn' = EvTruncate "zip_county"
                  :: EvCopy "zip_county" ["zip"] [[VInt 0]; [VInt 1]]
                  :: EvCommit :: rest.
Proof.
  destruct (loader_truncate_first_chunk no_fault (demo_frame 3) "zip_county" 2
              no_tables) as (r & conn' & Hrun & _ & Hfirst).
  destruct Hfirst as (rest & Hrest & Hlog); [vm_compute; discriminate|].
  exists r, conn', rest.
  split; [exact Hrun|]. split; [exact Hrest|].
  vm_compute in Hrun. injection Hrun as <- <-.
  destruct Hlog as [Hlog | [[Hlog _] | [Hlog _]]]; try discriminate Hlog.
  split; [reflexivity | exact Hlog].
Defined.

(** C3.  When the store refuses the bulk insert of chunk [k] and nothing
    before it, the loader rolls the transaction of chunk [k] back, closes
    the connection and raises the store's error; the log ends with the
    refused insert, the rollback and the close, so that no later chunk is
    attempted; the windows 1..k-1 stay committed, and the committed tables
    are the ones the loader found when [k = 1]. *)
Theorem loader_chunk_failure (raises : nat -> stmt -> bool) (lf : LazyFrame)
    (t : string) (c k : nat) (tables : gmap string (list row)) :
  0 < c -> 0 < k -> (k - 1) * c < length (lf_rows lf) ->
  (t = "nppes_providers" -> k <= 5) ->
  (forall i s, i < k -> raises i s = false) ->
  (k = 1 -> raises 1 CallTruncate = false) ->
  raises k CopyFrom = true ->
  exists conn',
    load_chunked_blob_data_to_postgres raises lf t c (fresh_conn tables)
      = Some (inr (StoreError k), conn') /\
    log conn' =
      flat_map (fun i => ok_events lf t (S i) (slice_collect lf (i * c) c))
               (seq 0 (k - 1))
      ++ (if k =? 1 then [EvTruncate t] else [])
      ++ [EvCopy t (lf_columns lf) (slice_collect lf ((k - 1) * c) c);
          EvRollback; EvClose] /\
    length (List.filter is_copy (log conn')) = k /\
    committed_windows [] (log conn')
      = map (fun i => slice_collect lf (i * c) c) (seq 0 (k - 1)) /\
    committed conn'
      = (if k =? 1 then tables
         else <[t := firstn ((k - 1) * c) (lf_rows lf)]> tables) /\
    closed conn' = true.
Proof.
  intros Hc Hk Hlt Hcap Hok Htr Hfail.
  eexists. split; [now apply load_copy_fails|].
  assert (Hlog : forall X : Conn,
            log (close (rollback (emit
                   (EvCopy t (lf_columns lf) (window lf c (k - 1))) X)))
            = log X ++ [EvCopy t (lf_columns lf) (window lf c (k - 1));
                        EvRollback; EvClose]).
  { intros X. simpl. now rewrite <- !app_assoc. }
  rewrite Hlog.
  assert (HlogX :
    log (if k =? 1
         then truncate_table t (run_full lf t c 0 (k - 1) (fresh_conn tables))
         else run_full lf t c 0 (k - 1) (fresh_conn tables))
    = flat_map (fun i => ok_events lf t (S i) (window lf c i)) (seq 0 (k - 1))
      ++ (if k =? 1 then [EvTruncate t] else [])).
  { destruct (k =? 1); simpl; rewrite run_full_log; simpl;
      now rewrite ?app_nil_r. }
  rewrite HlogX, <- app_assoc.
  split; [reflexivity|].
  split.
  { rewrite !List.filter_app, !length_app.
    rewrite (copies_of_full lf t c (k - 1) 0).
    destruct (k =? 1); simpl; lia. }
  split.
  { rewrite (committed_windows_full lf t c (k - 1) 0).
    destruct (k =? 1); simpl; now rewrite app_nil_r. }
  split; [|reflexivity].
  change (committed (close ?x)) with (committed x).
  change (committed (rollback ?x)) with (committed x).
  change (committed (emit ?e ?x)) with (committed x).
  destruct (Nat.eqb_spec k 1) as [E|E].
  - subst k. reflexivity.
  - destruct k as [|[|k']]; try lia.
    replace (S (S k') - 1) with (S k') by lia.
    rewrite run_full_committed by reflexivity.
    simpl (0 =? 0). cbv iota. rewrite app_nil_l.
    now rewrite concat_windows.
Qed.

Lemma loader_chunk_failure_witness :
  exists conn',
    load_chunked_blob_data_to_postgres refuse_third_copy (demo_frame 9)
      "zip_county" 2 (fresh_conn no_tables)
      = Some (inr (StoreError 3), conn') /\
    committed_windows [] (log conn')
      = [[[VInt 0]; [VInt 1]]; [[VInt 2]; [VInt 3]]] /\
    length (List.filter is_copy (log conn')) = 3.
Proof.
  destruct (loader_chunk_failure refuse_third_copy (demo_frame 9) "zip_county"
              2 3 no_tables) as (conn' & Hrun & _ & Hcopies & Hwin & _).
  - lia.
  - lia.
  - simpl. lia.
  - intros E. discriminate E.
  - intros i s Hi. destruct s; [reflexivity|].
    destruct i as [|[|[|i]]]; [reflexivity | reflexivity | reflexivity | lia].
  - intros E. discriminate E.
  - reflexivity.
  - exists conn'. split; [exact Hrun|]. split; [exact Hwin | exact Hcopies].
Defined.

(** C6.  For the table [nppes_providers] the loader commits at most five
    windows, hence at most five times the chunk size in rows, whatever the
    store does; when the store accepts every statement and more than five
    windows of data exist, it stops after the fifth window although data
    remains.  For every other table, when the store accepts every
    statement, all the rows of the dataset are loaded. *)
Theorem loader_demo_cap (lf : LazyFrame) (c : nat)
    (tables : gmap string (list row)) :
  0 < c ->
  (forall raises, exists r conn',
     load_chunked_blob_data_to_postgres raises lf "nppes_providers" c
       (fresh_conn tables) = Some (r, conn') /\
     length (committed_windows [] (log conn')) <= 5 /\
     list_sum (map (@length row) (committed_windows [] (log conn'))) <= 5 * c) /\
  (5 * c < length (lf_rows lf) ->
   exists conn',
     load_chunked_blob_data_to_postgres no_fault lf "nppes_providers" c
       (fresh_conn tables) = Some (inl (5 * c), conn') /\
     committed_windows [] (log conn')
       = map (fun i => slice_collect lf (i * c) c) (seq 0 5) /\
     committed conn' = <[ "nppes_providers" := firstn (5 * c) (lf_rows lf) ]> tables) /\
  (forall t, t <> "nppes_providers" ->
   exists conn',
     load_chunked_blob_data_to_postgres no_fault lf t c (fresh_conn tables)
       = Some (inl (length (lf_rows lf)), conn') /\
     concat (committed_windows [] (log conn')) = lf_rows lf).
Proof.
  intros Hc. split; [|split].
  - intros raises. rewrite load_ready.
    destruct (load_loop_total raises lf "nppes_providers" c
                (S (length (lf_rows lf))) 0 0 (fresh_conn tables))
      as (r & conn1 & Hrun); [lia|].
    rewrite Hrun. exists r, (close conn1). split; [reflexivity|].
    apply load_loop_events in Hrun.
    destruct Hrun as (evs & Hlog & _ & Hall & Hcnt).
    simpl in Hlog. simpl (log (close conn1)). rewrite Hlog.
    rewrite committed_windows_close.
    specialize (Hcnt eq_refl). apply list_sum_bound in Hall.
    split; [lia | nia].
  - intros Hmore. rewrite load_ready.
    replace (S (length (lf_rows lf))) with (5 + S (length (lf_rows lf) - 5))
      by lia.
    rewrite load_loop_prefix0; try assumption; try reflexivity; try lia.
    rewrite load_loop_step. cbv zeta.
    rewrite is_empty_length, slice_collect_length.
    replace (Nat.min c (length (lf_rows lf) - 5 * c) =? 0) with false
      by (symmetry; apply Nat.eqb_neq; lia).
    change ((5 + 1 =? 6) && ("nppes_providers" =? "nppes_providers")%string)
      with true.
    cbv iota. eexists. split; [reflexivity|].
    split.
    + change (log (close ?x)) with (log x ++ [EvClose]).
      rewrite run_full_log. change (log (fresh_conn tables)) with (@nil event).
      rewrite app_nil_l, committed_windows_full. simpl. reflexivity.
    + change (committed (close ?x)) with (committed x).
      rewrite run_full_committed by reflexivity.
      simpl (0 =? 0). cbv iota. rewrite app_nil_l.
      now rewrite concat_windows.
  - intros t Ht.
    destruct (uncapped_load_all_rows lf t c tables Hc (or_introl Ht))
      as (conn' & H1 & H2).
    exists conn'. split; assumption.
Qed.

Lemma loader_demo_cap_witness :
  exists conn',
    load_chunked_blob_data_to_postgres no_fault (demo_frame 13)
      "nppes_providers" 2 (fresh_conn no_tables) = Some (inl 10, conn') /\
    length (committed_windows [] (log conn')) = 5.
Proof.
  destruct (loader_demo_cap (demo_frame 13) 2 no_tables) as (_ & H & _); [lia|].
  destruct H as (conn' & Hrun & Hwin & _); [simpl; lia|].
  exists conn'. split; [exact Hrun|]. rewrite Hwin. reflexivity.
Defined.

(* ===================================================================== *)
(** ** CSV fields of the export *)
(* ===================================================================== *)

Lemma unescape_replace (s : string) :
  unescape (Py.replace_char Py.quote (Py.dq +:+ Py.dq) s) = Some s.
Proof.
  induction s as [|c s IH]; [reflexivity|].
  cbn [Py.replace_char].
  destruct (Ascii.eqb_spec c Py.quote) as [E|E].
  - subst c.
    change (unescape ((Py.dq +:+ Py.dq) +:+ ?x))
      with (option_map (String Py.quote) (unescape x)).
    now rewrite IH.
  - cbn [unescape]. destruct (Ascii.eqb_spec c Py.quote); [contradiction|].
    now rewrite IH.
Qed.

Lemma zeros_length (k : nat) : String.length (Py.zeros k) = k.
Proof. induction k as [|k IH]; simpl; [reflexivity | now rewrite IH]. Qed.

Lemma string_app_cons (c : ascii) (a b : string) :
  String c a +:+ b = String c (a +:+ b).
Proof. reflexivity. Qed.

Lemma string_app_length (a b : string) :
  String.length (a +:+ b) = String.length a + String.length b.
Proof.
  induction a as [|c a IH]; [reflexivity|].
  rewrite string_app_cons. simpl. now rewrite IH.
Qed.

Lemma string_app_nil_r (a : string) : a +:+ "" = a.
Proof.
  induction a as [|c a IH]; [reflexivity|].
  now rewrite string_app_cons, IH.
Qed.

Lemma string_app_assoc_nl (a b : string) :
  a +:+ Py.nl +:+ b = (a +:+ Py.nl) +:+ b.
Proof.
  induction a as [|c a IH]; [reflexivity|].
  now rewrite !string_app_cons, IH.
Qed.

Lemma zfill_length (w : nat) (s : string) :
  String.length (Py.zfill w s) = Nat.max w (String.length s).
Proof.
  unfold Py.zfill. destruct (Nat.leb_spec w (String.length s)) as [H|H]; [lia|].
  destruct s as [|c rest].
  - rewrite zeros_length. simpl. lia.
  - destruct (Py.is_sign c); simpl in *;
      rewrite string_app_length, zeros_length; simpl; lia.
Qed.

(** [zfill] only adds zeros, between an optional sign and the rest. *)
Lemma zfill_shape (w : nat) (s : string) :
  exists sign rest,
    s = sign +:+ rest /\
    (sign = "" \/ sign = "+" \/ sign = "-") /\
    Py.zfill w s = sign +:+ Py.zeros (w - String.length s) +:+ rest.
Proof.
  unfold Py.zfill. destruct (Nat.leb_spec w (String.length s)) as [H|H].
  - exists "", s. replace (w - String.length s) with 0 by lia.
    split; [reflexivity|]. split; [now left | reflexivity].
  - destruct s as [|c rest].
    + exists "", "". split; [reflexivity|]. split; [now left|].
      simpl. now rewrite string_app_nil_r.
    + unfold Py.is_sign.
      destruct (Ascii.eqb_spec c "+") as [E|E];
        [|destruct (Ascii.eqb_spec c "-") as [E'|E']].
      * subst c. exists "+", rest.
        split; [reflexivity|]. split; [right; now left | reflexivity].
      * subst c. exists "-", rest.
        split; [reflexivity|]. split; [right; now right | reflexivity].
      * exists "", (String c rest).
        split; [reflexivity|]. split; [now left | reflexivity].
Qed.

(** The field the exporter writes at position [i < 15]. *)
Lemma escape_value_spec (i : nat) (v : value) :
  i < 15 ->
  escape_value i v =
    inl (if is_none v then Py.dq +:+ Py.dq
         else Py.dq
              +:+ Py.replace_char Py.quote (Py.dq +:+ Py.dq)
                    (if i =? 7 then Py.zfill 5 (Py.str v) else Py.str v)
              +:+ Py.dq).
Proof.
  intros Hi.
  do 15 (destruct i as [|i]; [destruct v; reflexivity|]). lia.
Qed.

Lemma escape_row_from_spec (r : row) : forall i,
  i + length r <= 15 ->
  exists fields,
    escape_row_from i r = inl fields /\
    length fields = length r /\
    forall j v, nth_error r j = Some v ->
      exists f, nth_error fields j = Some f /\ escape_value (i + j) v = inl f.
Proof.
  induction r as [|v r IH]; intros i Hi.
  - exists []. repeat split. intros [|j] w H; discriminate H.
  - simpl in Hi. destruct (IH (S i)) as (fields & Hf & Hlen & Hnth); [lia|].
    cbn [escape_row_from]. rewrite (escape_value_spec i v) by lia. rewrite Hf.
    eexists. split; [reflexivity|]. split; [simpl; congruence|].
    intros [|j] w H; simpl in H.
    + injection H as <-. eexists. split; [reflexivity|].
      rewrite Nat.add_0_r. apply escape_value_spec. lia.
    + destruct (Hnth j w H) as (f & Hf1 & Hf2). exists f. split; [exact Hf1|].
      now replace (i + S j) with (S i + j) by lia.
Qed.

(** A row with at most fifteen values is rendered. *)
Lemma render_row_ok (r : row) :
  length r <= 15 -> exists line, render_row r = inl line.
Proof.
  intros H. destruct (escape_row_from_spec r 0) as (fields & Hf & _); [lia|].
  unfold render_row. rewrite Hf. eauto.
Qed.

(** C7.  In a row of at most fifteen values (the query selects fifteen
    columns) every value is rendered as one field and the fields are joined
    by commas; a null is the two-character field made of two double quotes;
    any other value is its text between double quotes with every double
    quote inside doubled, so that reading the body back gives the text; the
    text is [str(value)], zero-filled to width 5 first at position 7, the
    column [provider_postal_code_clean].  Zero-filling gives at least five
    characters and only inserts zeros, after a leading sign.  The row
    [(None, 00501)] and the postal value 501 render as the specification
    says. *)
Theorem exporter_csv_fields :
  (forall r : row, length r <= 15 ->
     exists fields,
       render_row r = inl (Py.join "," fields) /\
       length fields = length r /\
       forall i v, nth_error r i = Some v ->
         (v = VNone -> nth_error fields i = Some (Py.dq +:+ Py.dq)) /\
         (v <> VNone ->
          exists body,
            nth_error fields i = Some (Py.dq +:+ body +:+ Py.dq) /\
            unescape body
              = Some (if i =? 7 then Py.zfill 5 (Py.str v) else Py.str v))) /\
  nth_error headers 7 = Some "provider_postal_code_clean" /\
  (forall s,
     String.length (Py.zfill 5 s) = Nat.max 5 (String.length s) /\
     exists sign rest,
       s = sign +:+ rest /\ (sign = "" \/ sign = "+" \/ sign = "-") /\
       Py.zfill 5 s = sign +:+ Py.zeros (5 - String.length s) +:+ rest) /\
  render_row [VNone; VStr "00501"]
    = inl (Py.dq +:+ Py.dq +:+ "," +:+ Py.dq +:+ "00501" +:+ Py.dq) /\
  render_row [VStr "Acme"; VStr "123"]
    = inl (Py.dq +:+ "Acme" +:+ Py.dq +:+ "," +:+ Py.dq +:+ "123" +:+ Py.dq) /\
  escape_value 7 (VStr "501") = inl (Py.dq +:+ "00501" +:+ Py.dq).
Proof.
  split; [|split; [reflexivity|split; [|repeat split]]].
  - intros r Hr.
    destruct (escape_row_from_spec r 0) as (fields & Hf & Hlen & Hnth); [lia|].
    exists fields. unfold render_row. rewrite Hf.
    split; [reflexivity|]. split; [exact Hlen|].
    intros i v Hv. destruct (Hnth i v Hv) as (f & Hf1 & Hf2).
    assert (Hi : i < 15).
    { assert (i < length r); [|lia].
      apply nth_error_Some. congruence. }
    simpl in Hf2. rewrite (escape_value_spec i v Hi) in Hf2.
    injection Hf2 as <-. split.
    + intros ->. exact Hf1.
    + intros Hne. destruct v as [|s|z]; [contradiction| |];
        (eexists; split; [exact Hf1 | apply unescape_replace]).
  - intros s. split; [apply zfill_length | apply zfill_shape].
Qed.

Lemma exporter_csv_fields_witness :
  exists fields,
    render_row [VNone; VStr "00501"] = inl (Py.join "," fields) /\
    nth_error fields 0 = Some (Py.dq +:+ Py.dq).
Proof.
  destruct exporter_csv_fields as (H & _).
  destruct (H [VNone; VStr "00501"]) as (fields & Hr & _ & Hf); [simpl; lia|].
  exists fields. split; [exact Hr|].
  destruct (Hf 0 VNone eq_refl) as (Hnone & _). now apply Hnone.
Defined.

(* ===================================================================== *)
(** ** Pagination of the export *)
(* ===================================================================== *)

Lemma render_row_line_of (r : row) : fits r -> render_row r = inl (line_of r).
Proof.
  intros H. unfold line_of. destruct (render_row_ok r H) as (line & ->).
  reflexivity.
Qed.

Lemma append_rows_ok (rows : list row) : forall content,
  Forall fits rows ->
  append_rows rows content = inl (content ++ map line_of rows).
Proof.
  induction rows as [|r rows IH]; intros content H; simpl.
  - now rewrite app_nil_r.
  - inversion H as [|? ? Hr Hrows]; subst.
    rewrite (render_row_line_of r Hr), IH by assumption.
    now rewrite <- app_assoc.
Qed.

Lemma firstn_plus {A : Type} (a b : nat) : forall l : list A,
  firstn (a + b) l = firstn a l ++ firstn b (skipn a l).
Proof.
  induction a as [|a IH]; intros l; [reflexivity|].
  destruct l as [|x l]; simpl.
  - now rewrite firstn_nil.
  - now rewrite IH.
Qed.

Lemma skipn_plus {A : Type} (a b : nat) : forall l : list A,
  skipn a (skipn b l) = skipn (b + a) l.
Proof.
  induction b as [|b IH]; intros l; [reflexivity|].
  destruct l as [|x l]; simpl.
  - now rewrite skipn_nil.
  - apply IH.
Qed.

Lemma Forall_slice {A : Type} (P : A -> Prop) (l : list A) (a b : nat) :
  Forall P l -> Forall P (firstn a (skipn b l)).
Proof.
  intros H. apply Forall_take, Forall_drop, H.
Qed.

Section ExporterFacts.

Variable view : list row.
Variable chunk_size : nat.

Abbreviation fetch := (get_export_chunk view).
Abbreviation pages := (export_loop (get_export_chunk view) chunk_size).
Abbreviation query := (fun i : nat => (chunk_size, i * chunk_size)).

Lemma export_loop_step fuel chunk_start st :
  pages (S fuel) chunk_start st =
    match fetch chunk_size chunk_start with
    | [] => Some (inl (mkExported (csv_content st) (processed_count st)
                                  (calls st ++ [(chunk_size, chunk_start)])))
    | r :: rows =>
        match append_rows (r :: rows) (csv_content st) with
        | inr e => Some (inr (e, calls st ++ [(chunk_size, chunk_start)]))
        | inl content =>
            if length (r :: rows) <? chunk_size
            then Some (inl (mkExported content
                              (processed_count st + length (r :: rows))
                              (calls st ++ [(chunk_size, chunk_start)])))
            else pages fuel (chunk_start + chunk_size)
                   (mkExported content (processed_count st + length (r :: rows))
                               (calls st ++ [(chunk_size, chunk_start)]))
        end
    end.
Proof. simpl. destruct (fetch chunk_size chunk_start); reflexivity. Qed.

Lemma fetch_length offset :
  length (fetch chunk_size offset) = Nat.min chunk_size (length view - offset).
Proof. unfold get_export_chunk. now rewrite length_firstn, length_skipn. Qed.

(** The export loop ends on every view. *)
Lemma export_loop_total fuel : forall chunk_start st,
  length view - chunk_start < fuel ->
  exists r, pages fuel chunk_start st = Some r.
Proof.
  induction fuel as [|fuel IH]; intros chunk_start st Hf; [lia|].
  rewrite export_loop_step.
  pose proof (fetch_length chunk_start) as Hlen.
  destruct (fetch chunk_size chunk_start) as [|r rows]; [eauto|].
  destruct (append_rows (r :: rows) (csv_content st)) as [content|e]; [|eauto].
  destruct (Nat.ltb_spec (length (r :: rows)) chunk_size) as [Hlt|Hge]; [eauto|].
  apply IH. simpl in Hlen, Hge. lia.
Qed.

(** [d] full pages take the loop from page [j] to page [j + d]. *)
Lemma export_loop_prefix d : forall j fuel content processed queried,
  0 < chunk_size -> Forall fits view ->
  (j + d) * chunk_size <= length view ->
  pages (d + fuel) (j * chunk_size) (mkExported content processed queried) =
  pages fuel ((j + d) * chunk_size)
    (mkExported
       (content ++ map line_of (firstn (d * chunk_size) (skipn (j * chunk_size) view)))
       (processed + d * chunk_size)
       (queried ++ map query (seq j d))).
Proof.
  induction d as [|d IH]; intros j fuel content processed queried Hc Hfit Hn.
  - simpl. now rewrite !app_nil_r, !Nat.add_0_r.
  - change (S d + fuel) with (S (d + fuel)). rewrite export_loop_step.
    pose proof (fetch_length (j * chunk_size)) as Hlen.
    assert (Hpage : Forall fits (fetch chunk_size (j * chunk_size)))
      by (apply Forall_slice; assumption).
    destruct (fetch chunk_size (j * chunk_size)) as [|r rows] eqn:Epage.
    { simpl in Hlen. lia. }
    rewrite append_rows_ok by assumption.
    replace (length (r :: rows) <? chunk_size) with false
      by (symmetry; apply Nat.ltb_ge; lia).
    cbn [csv_content processed_count calls].
    replace (j * chunk_size + chunk_size) with (S j * chunk_size) by lia.
    rewrite IH by (try assumption; lia).
    replace (S j + d) with (j + S d) by lia.
    f_equal. f_equal.
    + rewrite <- app_assoc. f_equal. rewrite <- map_app. f_equal.
      replace (S d * chunk_size) with (chunk_size + d * chunk_size) by lia.
      rewrite firstn_plus, skipn_plus. rewrite <- Epage.
      unfold get_export_chunk. do 3 f_equal. lia.
    + rewrite Hlen. lia.
    + rewrite <- app_assoc. reflexivity.
Qed.

(** The whole loop on a view whose rows render. *)
Lemma export_loop_all content :
  0 < chunk_size -> Forall fits view ->
  pages (S (length view)) 0 (mkExported content 0 []) =
  Some (inl (mkExported (content ++ map line_of view) (length view)
               (map query (seq 0 (length view / chunk_size + 1))))).
Proof.
  intros Hc Hfit.
  destruct (div_mod_split (length view) chunk_size Hc) as [Hn Hr].
  set (q := length view / chunk_size) in *.
  set (r := length view mod chunk_size) in *.
  assert (Hq : q <= length view) by nia.
  clearbody q r.
  replace (S (length view)) with (q + S (length view - q)) by lia.
  pose proof (export_loop_prefix q 0 (S (length view - q)) content 0 [] Hc Hfit)
    as Hpre.
  simpl (0 * chunk_size) in Hpre. simpl (0 + q) in Hpre.
  rewrite Hpre by lia. clear Hpre.
  rewrite export_loop_step.
  pose proof (fetch_length (q * chunk_size)) as Hlen.
  assert (Hpage : Forall fits (fetch chunk_size (q * chunk_size)))
    by (apply Forall_slice; assumption).
  assert (Hrest : fetch chunk_size (q * chunk_size) = skipn (q * chunk_size) view).
  { unfold get_export_chunk. apply firstn_all2. rewrite length_skipn. lia. }
  assert (Hcalls : map query (seq 0 q) ++ [(chunk_size, q * chunk_size)]
                   = map query (seq 0 (q + 1))).
  { rewrite Nat.add_1_r, seq_S, map_app. reflexivity. }
  change (skipn 0 view) with view. change ([] ++ ?l) with l.
  destruct (fetch chunk_size (q * chunk_size)) as [|x rows] eqn:Epage.
  - cbn [csv_content processed_count calls]. rewrite Hcalls.
    simpl in Hlen.
    assert (Hall : firstn (q * chunk_size) view = view)
      by (apply firstn_all2; lia).
    rewrite Hall. do 3 f_equal. lia.
  - rewrite append_rows_ok by assumption.
    cbn [csv_content processed_count calls]. rewrite Hcalls.
    replace (length (x :: rows) <? chunk_size) with true
      by (symmetry; apply Nat.ltb_lt; lia).
    rewrite <- app_assoc, <- map_app, Hrest, firstn_skipn.
    do 3 f_equal. rewrite <- Hrest. lia.
Qed.

End ExporterFacts.

(** The exporter returns a boolean on every view, page size and upload. *)
Lemma export_total (view : list row)
    (upload_error : string -> string -> option string) (p : nat)
    (filename : string) :
  exists result,
    export_clean_data_to_csv_chunked view upload_error p filename = Some result.
Proof.
  unfold export_clean_data_to_csv_chunked.
  destruct (export_loop_total view p (S (length view)) 0
              (mkExported [header_line] 0 [])) as ([st|[e queried]] & ->);
    [lia| |eauto].
  destruct (upload_error filename _); eauto.
Qed.

Lemma Forall2_line_of (view : list row) :
  Forall fits view ->
  Forall2 (fun r line => render_row r = inl line) view (map line_of view).
Proof.
  induction 1 as [|r view Hr _ IH]; simpl; constructor.
  - now apply render_row_line_of.
  - exact IH.
Qed.

Lemma concat_pages (view : list row) (p d : nat) :
  concat (map (fun i => get_export_chunk view p (i * p)) (seq 0 d))
  = firstn (d * p) view.
Proof. exact (concat_windows (mkLazyFrame [] view) p d). Qed.

(** C8.  For a page size [p >= 1], a view whose rows have at most fifteen
    values and an upload that goes through, the exporter returns [True];
    its queries are at the offsets 0, p, 2p, ..., one more than the number
    of full pages; every page before the last has exactly [p] rows and the
    last one has fewer than [p] (possibly none); the pages together are
    the view, and the uploaded text is the header line followed by the
    line of every row of the view, once and in order. *)
Theorem exporter_pagination (view : list row)
    (upload_error : string -> string -> option string) (p : nat)
    (filename : string) :
  0 < p ->
  Forall (fun r => length r <= 15) view ->
  (forall data, upload_error filename data = None) ->
  export_clean_data_to_csv_chunked view upload_error p filename
    = Some (mkExportResult true
              (Some (filename,
                     Py.join Py.nl (header_line :: map line_of view)))
              (map (fun i => (p, i * p)) (seq 0 (length view / p + 1)))) /\
  Forall2 (fun r line => render_row r = inl line) view (map line_of view) /\
  concat (map (fun i => get_export_chunk view p (i * p))
              (seq 0 (length view / p + 1))) = view /\
  (forall i, i < length view / p ->
     length (get_export_chunk view p (i * p)) = p) /\
  length (get_export_chunk view p (length view / p * p)) = length view mod p /\
  length view mod p < p.
Proof.
  intros Hp Hfit Hup.
  destruct (div_mod_split (length view) p Hp) as [Hn Hr].
  split.
  { unfold export_clean_data_to_csv_chunked.
    rewrite export_loop_all by assumption.
    cbn [csv_content calls]. rewrite Hup. reflexivity. }
  split; [now apply Forall2_line_of|].
  split.
  { rewrite concat_pages. apply firstn_all2. nia. }
  split.
  { intros i Hi. rewrite fetch_length.
    assert ((i + 1) * p <= length view / p * p) by nia. lia. }
  split; [|exact Hr].
  rewrite fetch_length. lia.
Qed.

Lemma exporter_pagination_witness :
  option_map queries
    (export_clean_data_to_csv_chunked five_rows upload_always_works 2 "out.csv")
    = Some [(2, 0); (2, 2); (2, 4)] /\
  map (fun q => length (get_export_chunk five_rows (fst q) (snd q)))
      [(2, 0); (2, 2); (2, 4)] = [2; 2; 1].
Proof.
  destruct (exporter_pagination five_rows upload_always_works 2 "out.csv")
    as (Hrun & _).
  - lia.
  - unfold five_rows. simpl. repeat constructor.
  - reflexivity.
  - rewrite Hrun. split; reflexivity.
Defined.

(* ===================================================================== *)
(** ** Properties of the extractor and of its caller *)
(* ===================================================================== *)

Lemma index_of_none (name : string) (columns : list string) :
  ~ In name columns -> index_of name columns = None.
Proof.
  induction columns as [|c columns IH]; intros H; [reflexivity|].
  simpl. destruct (String.eqb_spec c name) as [E|E].
  - exfalso. apply H. now left.
  - rewrite IH; [reflexivity|]. intros Hin. apply H. now right.
Qed.

Lemma index_of_some (name : string) (columns : list string) :
  In name columns ->
  exists i, index_of name columns = Some i /\ nth_error columns i = Some name.
Proof.
  induction columns as [|c columns IH]; intros H; [contradiction|].
  simpl. destruct (String.eqb_spec c name) as [E|E].
  - exists 0. subst. split; reflexivity.
  - destruct H as [H|H]; [contradiction|].
    destruct (IH H) as (i & Hi & Hn). exists (S i). rewrite Hi. split; [reflexivity|exact Hn].
Qed.

Lemma indexes_of_missing (names columns : list string) (c : string) :
  In c names -> ~ In c columns -> indexes_of names columns = None.
Proof.
  induction names as [|x names IH]; intros Hin Hout; [contradiction|].
  simpl. destruct Hin as [->|Hin].
  - now rewrite (index_of_none c columns Hout).
  - rewrite (IH Hin Hout). now destruct (index_of x columns).
Qed.

Lemma indexes_of_present (names columns : list string) :
  (forall c, In c names -> In c columns) ->
  exists idxs, indexes_of names columns = Some idxs /\
               length idxs = length names.
Proof.
  induction names as [|x names IH]; intros H.
  - exists []. split; reflexivity.
  - destruct (index_of_some x columns) as (i & Hi & _); [apply H; now left|].
    destruct IH as (idxs & Hidxs & Hlen); [intros c Hc; apply H; now right|].
    exists (i :: idxs). simpl. rewrite Hi, Hidxs. split; [reflexivity|].
    simpl. now rewrite Hlen.
Qed.

Lemma select_missing (columns : list string) (lf : LazyFrame) (c : string) :
  In c columns -> ~ In c (lf_columns lf) -> select columns lf = inr PolarsError.
Proof.
  intros Hin Hout. unfold select.
  destruct (negb _); [reflexivity|].
  now rewrite (indexes_of_missing columns (lf_columns lf) c).
Qed.

Lemma rename_ok (mapping : gmap string string) (lf : LazyFrame) :
  (forall k v, mapping !! k = Some v -> In k (lf_columns lf)) ->
  NoDup (map (renamed mapping) (lf_columns lf)) ->
  rename mapping lf
  = inl (mkLazyFrame (map (renamed mapping) (lf_columns lf)) (lf_rows lf)).
Proof.
  intros Hkeys Hnodup. unfold rename.
  replace (forallb _ _) with true.
  - simpl. now rewrite (bool_decide_eq_true_2 _ Hnodup).
  - symmetry. apply forallb_forall. intros k Hk.
    apply in_map_iff in Hk. destruct Hk as ([k' v] & <- & Hkv).
    apply list_elem_of_In, elem_of_map_to_list in Hkv.
    apply bool_decide_eq_true_2, list_elem_of_In. exact (Hkeys _ _ Hkv).
Qed.

(** A plan that cannot be collected: the first [collect()] of the loader
    raises before any statement is sent, and the connection is closed. *)
Lemma load_collect_error (raises : nat -> stmt -> bool) (lazy_df : LazyPlan)
    (t : string) (c : nat) (e : exn) (conn : Conn) :
  collect lazy_df = inr e ->
  load_chunked_blob_data_to_postgres raises lazy_df t c conn
  = Some (inr e, close conn).
Proof.
  intros H. unfold load_chunked_blob_data_to_postgres.
  cbn [load_loop]. unfold collect_slice. rewrite H. reflexivity.
Qed.

Lemma load_loop_collected (raises : nat -> stmt -> bool) (lazy_df : LazyPlan)
    (lf : LazyFrame) (t : string) (c : nat) :
  collect lazy_df = inl lf ->
  forall fuel cc total conn,
    load_loop raises lazy_df t c fuel cc total conn
    = load_loop raises lf t c fuel cc total conn.
Proof.
  intros H. induction fuel as [|fuel IH]; intros cc total conn; [reflexivity|].
  cbn [load_loop]. unfold collect_slice. rewrite H.
  cbn [collect ready lf_rows lf_columns].
  destruct (is_empty _); [reflexivity|].
  destruct (_ && _); [reflexivity|].
  destruct (chunk_transaction _ _ _ _ _ _) as [[u|e] conn1]; [|reflexivity].
  destruct (_ <? _); [reflexivity|]. apply IH.
Qed.

(** The loader sees a plan through what it collects to. *)
Lemma load_collected (raises : nat -> stmt -> bool) (lazy_df : LazyPlan)
    (lf : LazyFrame) (t : string) (c : nat) (conn : Conn) :
  collect lazy_df = inl lf ->
  load_chunked_blob_data_to_postgres raises lazy_df t c conn
  = load_chunked_blob_data_to_postgres raises lf t c conn.
Proof.
  intros H. rewrite load_ready. unfold load_chunked_blob_data_to_postgres.
  unfold plan_rows. rewrite H.
  now rewrite (load_loop_collected raises lazy_df lf t c H).
Qed.

(** The loader returns or raises for every plan. *)
Lemma load_plan_total (raises : nat -> stmt -> bool) (lazy_df : LazyPlan)
    (t : string) (c : nat) (conn : Conn) :
  exists r conn',
    load_chunked_blob_data_to_postgres raises lazy_df t c conn
    = Some (r, conn').
Proof.
  destruct (collect lazy_df) as [lf|e] eqn:H.
  - rewrite (load_collected raises lazy_df lf t c conn H). apply load_total.
  - rewrite (load_collect_error raises lazy_df t c e conn H). eauto.
Qed.

(** The plan the extractor returns for a blob that is downloaded. *)
Lemma extract_csv_plan
    (download_blob : string -> string -> string + exn)
    (scan_csv : string -> list (string * dtype) -> LazyFrame + exn)
    (filename : string) (relevant_columns : list string)
    (column_mapping : gmap string string)
    (schema_overrides : list (string * dtype)) (buffer : string) :
  download_blob "nppes" filename = inl buffer ->
  exists lazy_df,
    extract_csv_data_from_blob download_blob scan_csv filename relevant_columns
      column_mapping schema_overrides = Some lazy_df /\
    collect lazy_df
    = match relevant_columns with
      | [] => scan_csv buffer schema_overrides
      | _ :: _ =>
          bind_exn (bind_exn (scan_csv buffer schema_overrides)
                             (select relevant_columns))
                   (rename column_mapping)
      end.
Proof.
  intros Hd. unfold extract_csv_data_from_blob. rewrite Hd.
  destruct relevant_columns; eexists; split; reflexivity.
Qed.

(** C4 fails on the code.  The calls to polars in the extractor only build
    a plan: nothing is read inside the [try] block.  For a blob that is
    downloaded, and that polars cannot parse or that lacks a column of the
    retain list, the extractor returns a lazy frame and not [None]; the
    exception is raised by the first [collect()] of the loader, which has
    sent no statement, closes its connection and raises.  The caller does
    not skip the source: the load phase ends with that exception and the
    sources that follow are not loaded. *)
Theorem extractor_deferred_error_reaches_loader
    (download_blob : string -> string -> string + exn)
    (scan_csv : string -> list (string * dtype) -> LazyFrame + exn)
    (filename : string) (relevant_columns : list string)
    (column_mapping : gmap string string)
    (schema_overrides : list (string * dtype)) (buffer : string) :
  download_blob "nppes" filename = inl buffer ->
  ((exists e, scan_csv buffer schema_overrides = inr e) \/
   (exists scanned c,
      scan_csv buffer schema_overrides = inl scanned /\
      In c relevant_columns /\ ~ In c (lf_columns scanned))) ->
  exists lazy_df e,
    extract_csv_data_from_blob download_blob scan_csv filename relevant_columns
      column_mapping schema_overrides = Some lazy_df /\
    collect lazy_df = inr e /\
    (forall raises target_table chunk_size conn,
       load_chunked_blob_data_to_postgres raises lazy_df target_table
         chunk_size conn = Some (inr e, close conn)) /\
    (forall raises target_table rest tables,
       load_if_present raises (Some lazy_df) target_table tables
         = Some (inr e) /\
       run_sources raises ((Some lazy_df, target_table) :: rest) tables
         = Some (inr e)).
Proof.
  intros Hd Hbad.
  destruct (extract_csv_plan download_blob scan_csv filename relevant_columns
              column_mapping schema_overrides buffer Hd) as (lazy_df & Hx & Hc).
  assert (He : exists e, collect lazy_df = inr e).
  { rewrite Hc.
    destruct Hbad as [(e & Hs) | (scanned & c & Hs & Hin & Hout)]; rewrite Hs.
    - exists e. now destruct relevant_columns.
    - destruct relevant_columns as [|x xs]; [contradiction|].
      exists PolarsError. cbn [bind_exn].
      now rewrite (select_missing (x :: xs) scanned c Hin Hout). }
  destruct He as (e & He). exists lazy_df, e.
  split; [exact Hx|]. split; [exact He|]. split.
  - intros raises target_table chunk_size conn.
    now apply load_collect_error.
  - intros raises target_table rest tables.
    assert (Hl : load_if_present raises (Some lazy_df) target_table tables
                 = Some (inr e)).
    { unfold load_if_present.
      now rewrite (load_collect_error _ lazy_df _ _ e _ He). }
    split; [exact Hl|]. cbn [run_sources]. now rewrite Hl.
Qed.

(** On the taxonomy blob of the examples, which has two of the four
    retained columns, the extractor returns a plan and the route answers
    500, where the claim has the source skipped. *)
Lemma extractor_deferred_error_reaches_loader_witness :
  (exists lazy_df,
     extract_csv_data_from_blob example_download example_scan_csv
       "taxonomy.csv" taxonomy_relevant_columns taxonomy_column_mapping
       taxonomy_schema_overrides = Some lazy_df /\
     collect lazy_df = inr PolarsError /\
     load_if_present (fun _ => no_fault) (Some lazy_df) "nucc_taxonomy"
       no_tables = Some (inr PolarsError)) /\
  NPPES_Data_Cleaning sample_fetch parse_decimal false example_download
    example_scan_csv sample_scan_parquet (fun _ => no_fault)
    (fun tables => inl tables) (fun _ => five_rows) upload_always_works
    sample_request no_tables = Some (mkResponse 500 None).
Proof.
  destruct (extractor_deferred_error_reaches_loader example_download
              example_scan_csv "taxonomy.csv" taxonomy_relevant_columns
              taxonomy_column_mapping taxonomy_schema_overrides
              ("Code,Grouping" +:+ Py.nl +:+ "101Y00000X,Behavioral" +:+ Py.nl))
    as (lazy_df & e & Hx & Hc & _ & Hskip).
  - reflexivity.
  - right.
    exists (mkLazyFrame ["Code"; "Grouping"]
              [[VStr "101Y00000X"; VStr "Behavioral"]]), "Classification".
    split; [vm_compute; reflexivity|].
    split; [right; right; left; reflexivity|].
    simpl. intros [E|[E|[]]]; discriminate.
  - split.
    + exists lazy_df.
      destruct (Hskip (fun _ => no_fault) "nucc_taxonomy" [] no_tables)
        as (Hl & _).
      vm_compute in Hx. injection Hx as <-.
      vm_compute in Hc. injection Hc as <-.
      split; [vm_compute; reflexivity|]. split; [reflexivity|exact Hl].
    + vm_compute. reflexivity.
Defined.

(** C5 as the specification words it fails: with an empty retain list the
    rename mapping is not applied; the column [ssa_code] keeps its name
    although the mapping renames it. *)
Lemma extractor_empty_retain_list_keeps_names :
  exists plan lazy_df,
    extract_csv_data_from_blob example_download example_scan_csv "ssa.csv"
      [] {[ "ssa_code" := "ssa" ]} ssa_schema_overrides = Some plan /\
    collect plan = inl lazy_df /\
    lf_columns lazy_df = ["ssa_code"; "fipscounty"] /\
    lf_columns lazy_df
      <> map (renamed {[ "ssa_code" := "ssa" ]}) ["ssa_code"; "fipscounty"].
Proof.
  eexists _, _. split; [vm_compute; reflexivity|].
  split; [vm_compute; reflexivity|].
  split; [reflexivity|]. vm_compute. discriminate.
Qed.

(** C5, as the code has it.  For a source that is downloaded and parsed,
    the lazy frame the extractor returns collects as follows: with an
    empty retain list to the parsed frame as it is, columns in the source's
    order and under the source's names, the mapping being left unused;
    with a non-empty retain list without repetition whose columns are all
    in the source, and a mapping that renames retained columns only and
    makes no two names equal, to the retained columns in the order of the
    retain list, each under the name the mapping gives it (its own name
    when the mapping has none), one row for each row of the source. *)
Theorem extractor_column_order
    (download_blob : string -> string -> string + exn)
    (scan_csv : string -> list (string * dtype) -> LazyFrame + exn)
    (filename : string) (relevant_columns : list string)
    (column_mapping : gmap string string)
    (schema_overrides : list (string * dtype))
    (buffer : string) (scanned : LazyFrame) :
  download_blob "nppes" filename = inl buffer ->
  scan_csv buffer schema_overrides = inl scanned ->
  (relevant_columns = [] ->
   exists plan,
     extract_csv_data_from_blob download_blob scan_csv filename
       relevant_columns column_mapping schema_overrides = Some plan /\
     collect plan = inl scanned) /\
  (relevant_columns <> [] ->
   NoDup relevant_columns ->
   (forall c, In c relevant_columns -> In c (lf_columns scanned)) ->
   (forall k v, column_mapping !! k = Some v -> In k relevant_columns) ->
   NoDup (map (renamed column_mapping) relevant_columns) ->
   exists plan lazy_df idxs,
     extract_csv_data_from_blob download_blob scan_csv filename
       relevant_columns column_mapping schema_overrides = Some plan /\
     collect plan = inl lazy_df /\
     lf_columns lazy_df = map (renamed column_mapping) relevant_columns /\
     indexes_of relevant_columns (lf_columns scanned) = Some idxs /\
     length idxs = length relevant_columns /\
     lf_rows lazy_df = map (project idxs) (lf_rows scanned)).
Proof.
  intros Hd Hs.
  destruct (extract_csv_plan download_blob scan_csv filename relevant_columns
              column_mapping schema_overrides buffer Hd) as (plan & Hx & Hc).
  rewrite Hs in Hc. split.
  - intros ->. exists plan. split; assumption.
  - intros Hne Hnodup Hin Hkeys Hnames.
    destruct relevant_columns as [|x xs]; [contradiction|].
    destruct (indexes_of_present (x :: xs) (lf_columns scanned) Hin)
      as (idxs & Hidxs & Hlen).
    cbn [bind_exn] in Hc. unfold select in Hc.
    rewrite (bool_decide_eq_true_2 _ Hnodup) in Hc. cbn [negb] in Hc.
    rewrite Hidxs in Hc. cbn [bind_exn] in Hc.
    rewrite rename_ok in Hc by assumption.
    exists plan,
           (mkLazyFrame (map (renamed column_mapping) (x :: xs))
              (map (project idxs) (lf_rows scanned))), idxs.
    repeat split; assumption.
Qed.

Lemma extractor_column_order_witness :
  exists plan lazy_df,
    extract_csv_data_from_blob example_download example_scan_csv
      "taxonomy.csv" ["Grouping"; "Code"]
      (list_to_map [("Code", "code"); ("Grouping", "grouping")])
      taxonomy_schema_overrides = Some plan /\
    collect plan = inl lazy_df /\
    lf_columns lazy_df = ["grouping"; "code"] /\
    lf_rows lazy_df = [[VStr "Behavioral"; VStr "101Y00000X"]].
Proof.
  destruct (extractor_column_order example_download example_scan_csv
              "taxonomy.csv" ["Grouping"; "Code"]
              (list_to_map [("Code", "code"); ("Grouping", "grouping")])
              taxonomy_schema_overrides
              ("Code,Grouping" +:+ Py.nl +:+ "101Y00000X,Behavioral" +:+ Py.nl)
              (mkLazyFrame ["Code"; "Grouping"]
                 [[VStr "101Y00000X"; VStr "Behavioral"]]))
    as (_ & H).
  - reflexivity.
  - vm_compute. reflexivity.
  - destruct H as (plan & lazy_df & idxs & Hrun & Hcol & Hcols & Hidxs & _ & Hrows).
    + discriminate.
    + apply (bool_decide_unpack _). vm_compute. exact I.
    + intros c Hc. simpl in Hc.
      destruct Hc as [<-|[<-|[]]]; simpl; auto.
    + intros k v Hkv.
      apply elem_of_list_to_map_2 in Hkv.
      apply list_elem_of_In in Hkv. simpl in Hkv.
      destruct Hkv as [E|[E|[]]]; injection E as <- <-;
        [right; left | left]; reflexivity.
    + apply (bool_decide_unpack _). vm_compute. exact I.
    + exists plan, lazy_df. split; [exact Hrun|]. split; [exact Hcol|].
      split; [exact Hcols|].
      rewrite Hrows. vm_compute in Hidxs. injection Hidxs as <-. reflexivity.
Defined.

(* ===================================================================== *)
(** ** Properties of the API snapshot loader *)
(* ===================================================================== *)

Lemma indexes_of_length (names columns : list string) : forall idxs,
  indexes_of names columns = Some idxs -> length idxs = length names.
Proof.
  induction names as [|x names IH]; intros idxs H; simpl in H.
  - now injection H as <-.
  - destruct (index_of x columns); [|discriminate].
    destruct (indexes_of names columns) as [rest|]; [|discriminate].
    injection H as <-. simpl. now rewrite (IH rest).
Qed.

Lemma select_shape (columns : list string) (lf df : LazyFrame) :
  select columns lf = inl df ->
  lf_columns df = columns /\
  Forall (fun r => length r = length columns) (lf_rows df).
Proof.
  unfold select. destruct (negb _); [discriminate|].
  destruct (indexes_of columns (lf_columns lf)) as [idxs|] eqn:E; [|discriminate].
  intros H. injection H as <-. split; [reflexivity|].
  simpl. apply List.Forall_forall. intros r Hr.
  apply in_map_iff in Hr. destruct Hr as (r0 & <- & _).
  unfold project. rewrite length_map. now apply indexes_of_length in E.
Qed.

Lemma api_frame_shape (headers : list string) (rows : list row) (df : DataFrame) :
  api_frame headers rows = inl df ->
  lf_columns df = db_columns /\ Forall (fun r => length r = 4) (lf_rows df).
Proof.
  unfold api_frame, bind_exn.
  destruct (rename _ _) as [f|e]; [|discriminate].
  apply select_shape.
Qed.

Lemma four_cells (r : row) :
  length r = 4 -> exists a b c d, r = [a; b; c; d].
Proof.
  destruct r as [|a [|b [|c [|d [|x r]]]]]; try discriminate. eauto.
Qed.

Section ApiLoaderFacts.

Variable parse_int : string -> option Z.

Abbreviation cast := (cast_int32 parse_int).

Lemma coerce_population_db (rows : list row) :
  coerce_population parse_int (mkLazyFrame db_columns rows)
  = inl (mkLazyFrame db_columns (map (alter cast 1) rows)).
Proof. reflexivity. Qed.

Lemma drop_null_rows_db (rows : list row) :
  Forall (fun r => length r = 4) rows ->
  drop_null_rows (mkLazyFrame db_columns rows)
  = inl (mkLazyFrame db_columns (List.filter all_not_null rows)).
Proof.
  intros H. unfold drop_null_rows, filter_on.
  change (indexes_of _ _) with (Some [1; 0; 2; 3]). cbn [lf_columns lf_rows].
  do 2 f_equal. apply filter_ext_in. intros r Hr.
  rewrite List.Forall_forall in H.
  destruct (four_cells r (H r Hr)) as (a & b & c & d & ->).
  unfold all_not_null. simpl.
  destruct (is_none a), (is_none b), (is_none c), (is_none d); reflexivity.
Qed.

Lemma with_column_db (name : string) (i : nat) (f : value -> value)
    (rows : list row) :
  index_of name db_columns = Some i ->
  with_column name f (mkLazyFrame db_columns rows)
  = inl (mkLazyFrame db_columns (map (alter f i) rows)).
Proof. intros H. unfold with_column. cbn [lf_columns]. now rewrite H. Qed.

Lemma trim_columns_db (rows : list row) :
  Forall (fun r => length r = 4) rows ->
  trim_columns (mkLazyFrame db_columns rows)
  = inl (mkLazyFrame db_columns (map (map to_trimmed_text) rows)).
Proof.
  intros H. unfold trim_columns, db_columns at 1.
  cbn [fold_left bind_exn].
  rewrite (with_column_db "name" 0) by reflexivity. cbn [bind_exn].
  rewrite (with_column_db "population" 1) by reflexivity. cbn [bind_exn].
  rewrite (with_column_db "state_fips" 2) by reflexivity. cbn [bind_exn].
  rewrite (with_column_db "county_fips" 3) by reflexivity.
  do 2 f_equal. rewrite !map_map. apply map_ext_in. intros r Hr.
  rewrite List.Forall_forall in H.
  destruct (four_cells r (H r Hr)) as (a & b & c & d & ->). reflexivity.
Qed.

Lemma drop_blank_rows_db (rows : list row) :
  Forall (fun r => length r = 4) rows ->
  drop_blank_rows (mkLazyFrame db_columns rows)
  = inl (mkLazyFrame db_columns (List.filter some_not_empty rows)).
Proof.
  intros H. unfold drop_blank_rows, filter_on.
  change (indexes_of _ _) with (Some [0; 1; 2; 3]). cbn [lf_columns lf_rows].
  do 2 f_equal. apply filter_ext_in. intros r Hr.
  rewrite List.Forall_forall in H.
  destruct (four_cells r (H r Hr)) as (a & b & c & d & ->). reflexivity.
Qed.

Lemma Forall_length_alter (f : value -> value) (i : nat) (rows : list row) :
  Forall (fun r => length r = 4) rows ->
  Forall (fun r => length r = 4) (map (alter f i) rows).
Proof.
  intros H. apply List.Forall_forall. intros r Hr.
  apply in_map_iff in Hr. destruct Hr as (r0 & <- & Hr0).
  rewrite List.Forall_forall in H.
  transitivity (length r0); [apply (length_alter f r0 i) | now apply H].
Qed.

Lemma Forall_length_filter (p : row -> bool) (rows : list row) :
  Forall (fun r => length r = 4) rows ->
  Forall (fun r => length r = 4) (List.filter p rows).
Proof.
  intros H. apply List.Forall_forall. intros r Hr.
  apply filter_In in Hr. rewrite List.Forall_forall in H. now apply H.
Qed.

Lemma Forall_length_map (f : value -> value) (rows : list row) :
  Forall (fun r => length r = 4) rows ->
  Forall (fun r => length r = 4) (map (map f) rows).
Proof.
  intros H. apply List.Forall_forall. intros r Hr.
  apply in_map_iff in Hr. destruct Hr as (r0 & <- & Hr0).
  rewrite List.Forall_forall in H. rewrite length_map. now apply H.
Qed.

(** The frame written out, from the frame of the four columns. *)
Lemma clean_frame_rows (headers : list string) (rows : list row) (df : DataFrame) :
  api_frame headers rows = inl df ->
  clean_frame parse_int headers rows
  = inl (mkLazyFrame db_columns
           (List.filter some_not_empty
              (map (map to_trimmed_text)
                 (List.filter all_not_null
                    (map (alter cast 1) (lf_rows df)))))).
Proof.
  intros Hdf. destruct (api_frame_shape _ _ _ Hdf) as [Hcols Hlen].
  unfold clean_frame. rewrite Hdf. cbn [bind_exn].
  destruct df as [columns0 rows0]. simpl in Hcols, Hlen. subst columns0.
  rewrite coerce_population_db. cbn [bind_exn lf_rows].
  rewrite drop_null_rows_db by now apply Forall_length_alter.
  cbn [bind_exn].
  rewrite trim_columns_db
    by now apply Forall_length_filter, Forall_length_alter.
  cbn [bind_exn].
  now rewrite drop_blank_rows_db
    by now apply Forall_length_map, Forall_length_filter, Forall_length_alter.
Qed.

End ApiLoaderFacts.

Lemma all_not_null_spec (r : row) : all_not_null r = true <-> ~ In VNone r.
Proof.
  unfold all_not_null. rewrite forallb_forall. split.
  - intros H Hin. specialize (H VNone Hin). discriminate.
  - intros H v Hv. destruct v; [contradiction | reflexivity | reflexivity].
Qed.

(** What [cast(polars.Int32, strict=False)] makes of a value: an integer
    of 32 bits or null; it is the integer [z] exactly when [z] fits in 32
    bits and the value is [z] or a text that polars reads as [z]. *)
Lemma cast_int32_spec (parse_int : string -> option Z) (b : value) :
  (cast_int32 parse_int b = VNone \/ exists z, cast_int32 parse_int b = VInt z) /\
  forall z,
    cast_int32 parse_int b = VInt z <->
    (- 2147483648 <= z <= 2147483647)%Z /\
    (b = VInt z \/ exists s, b = VStr s /\ parse_int s = Some z).
Proof.
  assert (Hr : forall z, in_int32 z = true
                         <-> (- 2147483648 <= z <= 2147483647)%Z).
  { intros z. unfold in_int32. rewrite andb_true_iff, !Z.leb_le. reflexivity. }
  destruct b as [|s|z0]; simpl.
  - split; [now left|]. intros z. split; [discriminate|].
    intros (_ & [H | (s & H & _)]); discriminate H.
  - destruct (parse_int s) as [z0|] eqn:Ep.
    + destruct (in_int32 z0) eqn:Ei.
      * split; [right; eauto|]. intros z. split.
        -- intros H. injection H as <-. apply Hr in Ei. split; [exact Ei|].
           right. exists s. split; [reflexivity | exact Ep].
        -- intros (_ & [H | (s' & H & Hp)]); [discriminate H|].
           injection H as <-. rewrite Ep in Hp. now injection Hp as <-.
      * split; [now left|]. intros z. split; [discriminate|].
        intros (Hz & [H | (s' & H & Hp)]); [discriminate H|].
        injection H as <-. rewrite Ep in Hp. injection Hp as <-.
        apply Hr in Hz. congruence.
    + split; [now left|]. intros z. split; [discriminate|].
      intros (_ & [H | (s' & H & Hp)]); [discriminate H|].
      injection H as <-. rewrite Ep in Hp. discriminate Hp.
  - destruct (in_int32 z0) eqn:Ei.
    + split; [right; eauto|]. intros z. split.
      * intros H. injection H as <-. apply Hr in Ei. split; [exact Ei | now left].
      * intros (_ & [H | (s & H & _)]); [now injection H as <- | discriminate H].
    + split; [now left|]. intros z. split; [discriminate|].
      intros (Hz & [H | (s & H & _)]); [|discriminate H].
      injection H as <-. apply Hr in Hz. congruence.
Qed.

(** C9.  On the frame of the four columns, the population column is
    coerced value by value and the other columns are left as they are: the
    coerced population is an integer or null; it is the integer [z]
    exactly when [z] fits in 32 bits and the value was [z] or a text that
    polars reads as [z], so that a text polars cannot read as an integer,
    and an integer outside 32 bits, become null.  The rows kept are then
    exactly the coerced rows without a null, in their order; the frame
    that is written out is made of these rows only.  In particular, when
    polars cannot read abc as an integer, a row whose population is abc
    has a null population after the coercion and is not kept. *)
Theorem api_loader_drops_null_rows (parse_int : string -> option Z)
    (headers : list string) (rows : list row) (df : DataFrame) :
  api_frame headers rows = inl df ->
  exists coerced kept final,
    coerce_population parse_int df = inl coerced /\
    drop_null_rows coerced = inl kept /\
    clean_frame parse_int headers rows = inl final /\
    lf_columns df = ["name"; "population"; "state_fips"; "county_fips"] /\
    Forall2
      (fun r r' =>
         exists a b c d b',
           r = [a; b; c; d] /\ r' = [a; b'; c; d] /\
           (b' = VNone \/ exists z, b' = VInt z) /\
           (forall z,
              b' = VInt z <->
              (- 2147483648 <= z <= 2147483647)%Z /\
              (b = VInt z \/ exists s, b = VStr s /\ parse_int s = Some z)))
      (lf_rows df) (lf_rows coerced) /\
    lf_rows kept = List.filter all_not_null (lf_rows coerced) /\
    (forall r, In r (lf_rows kept) <-> In r (lf_rows coerced) /\ ~ In VNone r) /\
    lf_rows final
      = List.filter some_not_empty (map (map to_trimmed_text) (lf_rows kept)) /\
    (parse_int "abc" = None ->
     forall k a c d,
       nth_error (lf_rows df) k = Some [a; VStr "abc"; c; d] ->
       nth_error (lf_rows coerced) k = Some [a; VNone; c; d] /\
       ~ In [a; VNone; c; d] (lf_rows kept)).
Proof.
  intros Hdf. destruct (api_frame_shape _ _ _ Hdf) as [Hcols Hlen].
  pose proof (clean_frame_rows parse_int _ _ _ Hdf) as Hfinal.
  destruct df as [columns0 rows0]. simpl in Hcols, Hlen. subst columns0.
  cbn [lf_rows] in Hfinal.
  set (coerced_rows := map (alter (cast_int32 parse_int) 1) rows0) in *.
  assert (Hiff : forall r, In r (List.filter all_not_null coerced_rows)
                           <-> In r coerced_rows /\ ~ In VNone r).
  { intros r. rewrite filter_In, all_not_null_spec. reflexivity. }
  exists (mkLazyFrame db_columns coerced_rows),
         (mkLazyFrame db_columns (List.filter all_not_null coerced_rows)),
         (mkLazyFrame db_columns
            (List.filter some_not_empty
               (map (map to_trimmed_text)
                  (List.filter all_not_null coerced_rows)))).
  split; [apply coerce_population_db|].
  split; [apply drop_null_rows_db; now apply Forall_length_alter|].
  split; [exact Hfinal|].
  split; [reflexivity|]. cbn [lf_rows]. split.
  { unfold coerced_rows. clear Hfinal Hiff coerced_rows Hdf.
    induction Hlen as [|r rows0 Hr Hrows IH]; [constructor|].
    cbn [map]. constructor; [|exact IH].
    destruct (four_cells r Hr) as (a & b & c & d & ->).
    exists a, b, c, d, (cast_int32 parse_int b).
    split; [reflexivity|]. split; [reflexivity|].
    apply cast_int32_spec. }
  split; [reflexivity|]. split; [exact Hiff|]. split; [reflexivity|].
  intros Habc k a c d Hk.
  assert (Hco : nth_error coerced_rows k = Some [a; VNone; c; d]).
  { unfold coerced_rows. rewrite nth_error_map, Hk. cbn [option_map].
    f_equal. change (alter (cast_int32 parse_int) 1 [a; VStr "abc"; c; d])
      with [a; cast_int32 parse_int (VStr "abc"); c; d].
    simpl. now rewrite Habc. }
  split; [exact Hco|].
  intros Hin. apply Hiff in Hin. destruct Hin as [_ Hno].
  apply Hno. right. now left.
Qed.

Lemma api_loader_drops_null_rows_witness :
  exists coerced,
    coerce_population parse_decimal
      (mkLazyFrame db_columns
         [ [VStr "Alpha County"; VStr "1200"; VStr "01"; VStr "001"];
           [VStr "Beta County"; VStr "abc"; VStr "01"; VStr "003"];
           [VStr "Gamma County"; VStr "77"; VNone; VStr "005"] ])
    = inl coerced /\
    lf_rows coerced
    = [ [VStr "Alpha County"; VInt 1200; VStr "01"; VStr "001"];
        [VStr "Beta County"; VNone; VStr "01"; VStr "003"];
        [VStr "Gamma County"; VInt 77; VNone; VStr "005"] ] /\
    cleaned_lines parse_decimal census_headers
      [ [VStr "Alpha County"; VStr "1200"; VStr "01"; VStr "001"];
        [VStr "Beta County"; VStr "abc"; VStr "01"; VStr "003"];
        [VStr "Gamma County"; VStr "77"; VNone; VStr "005"] ]
    = inl ["Alpha County" +:+ String Py.tab "1200" +:+ String Py.tab "01"
             +:+ String Py.tab "001"].
Proof.
  destruct (api_loader_drops_null_rows parse_decimal census_headers
              [ [VStr "Alpha County"; VStr "1200"; VStr "01"; VStr "001"];
                [VStr "Beta County"; VStr "abc"; VStr "01"; VStr "003"];
                [VStr "Gamma County"; VStr "77"; VNone; VStr "005"] ]
              (mkLazyFrame db_columns
                 [ [VStr "Alpha County"; VStr "1200"; VStr "01"; VStr "001"];
                   [VStr "Beta County"; VStr "abc"; VStr "01"; VStr "003"];
                   [VStr "Gamma County"; VStr "77"; VNone; VStr "005"] ]))
    as (coerced & kept & final & Hco & _).
  - vm_compute. reflexivity.
  - exists coerced. split; [exact Hco|].
    vm_compute in Hco. injection Hco as <-.
    split; vm_compute; reflexivity.
Defined.

(* ===================================================================== *)
(** ** Lines of the API snapshot that reach the bulk insert *)
(* ===================================================================== *)

Lemma split_length (sep : ascii) (s : string) :
  length (Py.split sep s) = S (count_char sep s).
Proof.
  induction s as [|c s IH]; [reflexivity|].
  simpl. destruct (c =? sep)%char.
  - simpl. now rewrite IH.
  - destruct (Py.split sep s) as [|w ws]; simpl in *; lia.
Qed.

Lemma count_char_app (c : ascii) (a b : string) :
  count_char c (a +:+ b) = count_char c a + count_char c b.
Proof.
  induction a as [|x a IH]; [reflexivity|].
  rewrite string_app_cons. simpl. rewrite IH. lia.
Qed.

Lemma has_char_app (p : ascii -> bool) (a b : string) :
  has_char p (a +:+ b) = has_char p a || has_char p b.
Proof.
  induction a as [|x a IH]; [reflexivity|].
  rewrite string_app_cons. simpl. rewrite IH. now rewrite orb_assoc.
Qed.

Lemma count_char_escaped (c : ascii) (s : string) :
  c <> Py.quote ->
  count_char c (Py.replace_char Py.quote (Py.dq +:+ Py.dq) s) = count_char c s.
Proof.
  intros Hc. induction s as [|x s IH]; [reflexivity|].
  cbn [Py.replace_char]. destruct (Ascii.eqb_spec x Py.quote) as [E|E].
  - subst x. rewrite count_char_app, IH.
    change (count_char c (Py.dq +:+ Py.dq))
      with ((if (Py.quote =? c)%char then 1 else 0)
            + ((if (Py.quote =? c)%char then 1 else 0) + 0)).
    cbn [count_char].
    destruct (Ascii.eqb_spec Py.quote c) as [E'|E']; [congruence|lia].
  - cbn [count_char]. now rewrite IH.
Qed.

Lemma has_char_escaped (p : ascii -> bool) (s : string) :
  p Py.quote = false ->
  has_char p (Py.replace_char Py.quote (Py.dq +:+ Py.dq) s) = has_char p s.
Proof.
  intros Hp. induction s as [|x s IH]; [reflexivity|].
  cbn [Py.replace_char]. destruct (Ascii.eqb_spec x Py.quote) as [E|E].
  - subst x. rewrite has_char_app, IH.
    change (has_char p (Py.dq +:+ Py.dq))
      with (p Py.quote || (p Py.quote || false)).
    cbn [has_char]. now rewrite Hp.
  - cbn [has_char]. now rewrite IH.
Qed.

Lemma has_char_count (c : ascii) (s : string) :
  has_char (fun x => (x =? c)%char) s = true -> 1 <= count_char c s.
Proof.
  induction s as [|x s IH]; [discriminate|].
  simpl. destruct (x =? c)%char; simpl; [lia|].
  intros H. specialize (IH H). lia.
Qed.

(** Quoting adds no separator to a field. *)
Lemma write_field_tabs (s : string) :
  count_char Py.tab (write_field Py.tab (VStr s)) = count_char Py.tab s.
Proof.
  unfold write_field. destruct s as [|x s]; [reflexivity|].
  destruct (needs_quotes Py.tab (String x s)); [|reflexivity].
  rewrite !count_char_app, count_char_escaped by discriminate.
  simpl. lia.
Qed.

(** Quoting adds no line break to a field. *)
Lemma write_field_breaks (s : string) :
  has_char Py.is_linebreak (write_field Py.tab (VStr s))
  = has_char Py.is_linebreak s.
Proof.
  unfold write_field. destruct s as [|x s]; [reflexivity|].
  destruct (needs_quotes Py.tab (String x s)); [|reflexivity].
  rewrite !has_char_app, has_char_escaped by reflexivity.
  simpl. now rewrite orb_false_r.
Qed.

Lemma write_row_four (a b c d : string) :
  write_row Py.tab [VStr a; VStr b; VStr c; VStr d]
  = write_field Py.tab (VStr a) +:+ String Py.tab EmptyString
    +:+ write_field Py.tab (VStr b) +:+ String Py.tab EmptyString
    +:+ write_field Py.tab (VStr c) +:+ String Py.tab EmptyString
    +:+ write_field Py.tab (VStr d).
Proof. reflexivity. Qed.

(** A row of four texts is written with three separators more than its
    texts hold. *)
Lemma write_row_fields (a b c d : string) :
  length (Py.split Py.tab (write_row Py.tab [VStr a; VStr b; VStr c; VStr d]))
  = 4 + count_char Py.tab a + count_char Py.tab b
      + count_char Py.tab c + count_char Py.tab d.
Proof.
  rewrite split_length, write_row_four, !count_char_app, !write_field_tabs.
  simpl. lia.
Qed.

Lemma write_row_breaks (a b c d : string) :
  has_char Py.is_linebreak (write_row Py.tab [VStr a; VStr b; VStr c; VStr d])
  = row_has Py.is_linebreak [VStr a; VStr b; VStr c; VStr d].
Proof.
  rewrite write_row_four, !has_char_app, !write_field_breaks. simpl.
  rewrite !orb_false_r. now rewrite !orb_assoc.
Qed.

Lemma not_linebreak_not_cr (c : ascii) :
  Py.is_linebreak c = false -> (Py.code c =? 13) = false.
Proof.
  unfold Py.is_linebreak. simpl. intros H.
  repeat (apply orb_false_iff in H; destruct H as [? H]). assumption.
Qed.

(** A line without a line break, followed by a newline, is read back as
    that line. *)
Lemma splitlines_line (l rest : string) :
  has_char Py.is_linebreak l = false ->
  Py.splitlines (l +:+ Py.nl +:+ rest) = l :: Py.splitlines rest.
Proof.
  induction l as [|c l IH]; intros H.
  - reflexivity.
  - simpl in H. apply orb_false_iff in H. destruct H as [Hc Hl].
    rewrite string_app_cons. cbn [Py.splitlines].
    rewrite (not_linebreak_not_cr c Hc), Hc, (IH Hl). reflexivity.
Qed.

Lemma splitlines_lines (lines : list string) :
  Forall (fun l => has_char Py.is_linebreak l = false) lines ->
  Py.splitlines (String.concat EmptyString (map (fun l => l +:+ Py.nl) lines))
  = lines.
Proof.
  induction 1 as [|l lines Hl _ IH]; [reflexivity|].
  destruct lines as [|l2 lines].
  - simpl. rewrite <- (string_app_nil_r (l +:+ Py.nl)).
    rewrite <- (string_app_assoc_nl l EmptyString).
    now rewrite splitlines_line.
  - change (String.concat EmptyString (map (fun l => l +:+ Py.nl) (l :: l2 :: lines)))
      with ((l +:+ Py.nl) +:+ EmptyString
            +:+ String.concat EmptyString (map (fun l => l +:+ Py.nl) (l2 :: lines))).
    change (EmptyString +:+ ?x) with x.
    rewrite <- string_app_assoc_nl, splitlines_line by assumption.
    now rewrite IH.
Qed.

Lemma to_trimmed_text_str (v : value) : exists s, to_trimmed_text v = VStr s.
Proof. destruct v; simpl; eauto. Qed.

(** The rows that are written out are rows of four texts. *)
Lemma final_rows_texts (parse_int : string -> option Z) (headers : list string)
    (rows : list row) (final : DataFrame) :
  clean_frame parse_int headers rows = inl final ->
  forall r, In r (lf_rows final) ->
  exists a b c d, r = [VStr a; VStr b; VStr c; VStr d].
Proof.
  intros Hfinal r Hr.
  destruct (api_frame headers rows) as [df|e] eqn:Hdf.
  2:{ unfold clean_frame in Hfinal. rewrite Hdf in Hfinal.
      cbn [bind_exn] in Hfinal. discriminate Hfinal. }
  destruct (api_frame_shape _ _ _ Hdf) as [_ Hlen].
  rewrite (clean_frame_rows parse_int _ _ _ Hdf) in Hfinal.
  injection Hfinal as <-. cbn [lf_rows] in Hr.
  apply filter_In in Hr. destruct Hr as [Hr _].
  apply in_map_iff in Hr. destruct Hr as (r0 & <- & Hr0).
  apply filter_In in Hr0. destruct Hr0 as [Hr0 _].
  pose proof (Forall_length_alter (cast_int32 parse_int) 1 _ Hlen) as Hlen'.
  rewrite List.Forall_forall in Hlen'.
  destruct (four_cells r0 (Hlen' r0 Hr0)) as (a & b & c & d & ->).
  destruct (to_trimmed_text_str a) as (sa & Ea).
  destruct (to_trimmed_text_str b) as (sb & Eb).
  destruct (to_trimmed_text_str c) as (sc & Ec).
  destruct (to_trimmed_text_str d) as (sd & Ed).
  exists sa, sb, sc, sd. simpl. now rewrite Ea, Eb, Ec, Ed.
Qed.

Lemma line_ok_spec (line : string) :
  line_ok line = true ->
  Py.strip line <> EmptyString /\ length (Py.split Py.tab line) = 4.
Proof.
  unfold line_ok. intros H. apply andb_true_iff in H. destruct H as [H1 H2].
  split.
  - intros E. rewrite E in H1. discriminate.
  - now apply Nat.eqb_eq.
Qed.

(** C10 as it is worded fails: a row whose name holds a line feed
    passes the filters on nulls and blanks, is written on two lines, and
    the second of them, which has four fields, is loaded. *)
Lemma api_loader_line_feed_fragment_loaded :
  clean_frame parse_decimal census_headers
    [ [VStr ("a" +:+ Py.nl +:+ "b"); VStr "5"; VStr "01"; VStr "001"] ]
  = inl (mkLazyFrame db_columns
           [ [VStr ("a" +:+ Py.nl +:+ "b"); VStr "5"; VStr "01"; VStr "001"] ]) /\
  cleaned_lines parse_decimal census_headers
    [ [VStr ("a" +:+ Py.nl +:+ "b"); VStr "5"; VStr "01"; VStr "001"] ]
  = inl [ "b" +:+ Py.dq +:+ String Py.tab "5" +:+ String Py.tab "01"
          +:+ String Py.tab "001" ] /\
  table_of
    (committed
       (snd (load_api_data parse_decimal false census_headers
               [ [VStr ("a" +:+ Py.nl +:+ "b"); VStr "5"; VStr "01"; VStr "001"] ]
               (fresh_conn no_tables))))
    "census_county_population"
  = [ [VStr ("b" +:+ Py.dq); VStr "5"; VStr "01"; VStr "001"] ].
Proof. repeat split; vm_compute; reflexivity. Qed.

(** C10, as the code has it.  Every line handed to the bulk insert is
    non-blank and splits into exactly four tab-separated fields.  When no
    text of the frame that is written out holds a line break, the lines
    read back are the lines of its rows, one for one, so that the lines
    loaded are those of the rows that pass the test; a row with a
    tabulation in one of its texts is written with more than four fields,
    fails the test, and its line is not loaded. *)
Theorem api_loader_line_filter (parse_int : string -> option Z)
    (headers : list string) (rows : list row) (final : DataFrame) :
  clean_frame parse_int headers rows = inl final ->
  exists lines,
    cleaned_lines parse_int headers rows = inl lines /\
    Forall (fun l => Py.strip l <> EmptyString /\
                     length (Py.split Py.tab l) = 4) lines /\
    ((forall r, In r (lf_rows final) -> row_has Py.is_linebreak r = false) ->
     lines = List.filter line_ok (map (write_row Py.tab) (lf_rows final)) /\
     forall r, In r (lf_rows final) -> row_has is_tab r = true ->
       line_ok (write_row Py.tab r) = false /\
       ~ In (write_row Py.tab r) lines).
Proof.
  intros Hfinal. exists (cleaned_lines_of final).
  assert (Hok : Forall (fun l => Py.strip l <> EmptyString /\
                          length (Py.split Py.tab l) = 4)
                       (cleaned_lines_of final)).
  { apply List.Forall_forall. intros l Hl. unfold cleaned_lines_of in Hl.
    apply filter_In in Hl. destruct Hl as [_ Hl].
    exact (line_ok_spec l Hl). }
  split; [unfold cleaned_lines; now rewrite Hfinal|].
  split; [exact Hok|].
  intros Hbreaks.
  pose proof (final_rows_texts _ _ _ _ Hfinal) as Htexts.
  split.
  - unfold cleaned_lines_of, write_csv. f_equal.
    rewrite <- (map_map (write_row Py.tab) (fun l => l +:+ Py.nl)).
    apply splitlines_lines. apply List.Forall_forall. intros l Hl.
    apply in_map_iff in Hl. destruct Hl as (r & <- & Hr).
    destruct (Htexts r Hr) as (a & b & c & d & ->).
    rewrite write_row_breaks. now apply Hbreaks.
  - intros r Hr Htab.
    destruct (Htexts r Hr) as (a & b & c & d & ->).
    assert (Hfields : 5 <= length (Py.split Py.tab
                            (write_row Py.tab [VStr a; VStr b; VStr c; VStr d]))).
    { rewrite write_row_fields. unfold row_has in Htab. simpl in Htab.
      rewrite orb_false_r in Htab.
      repeat (apply orb_true_iff in Htab; destruct Htab as [Htab|Htab]);
        apply (has_char_count Py.tab) in Htab; lia. }
    split.
    + unfold line_ok. apply andb_false_iff. right. apply Nat.eqb_neq. lia.
    + intros Hin. rewrite List.Forall_forall in Hok.
      destruct (Hok _ Hin) as [_ Hfour]. lia.
Qed.

Lemma api_loader_line_filter_witness :
  cleaned_lines parse_decimal census_headers
    [ [VStr "Alpha County"; VStr "1200"; VStr "01"; VStr "001"];
      [VStr ("Beta" +:+ String Py.tab "County"); VStr "7"; VStr "01"; VStr "003"] ]
  = inl ["Alpha County" +:+ String Py.tab "1200" +:+ String Py.tab "01"
           +:+ String Py.tab "001"] /\
  line_ok (write_row Py.tab
             [VStr ("Beta" +:+ String Py.tab "County"); VStr "7"; VStr "01";
              VStr "003"]) = false.
Proof.
  destruct (api_loader_line_filter parse_decimal census_headers
              [ [VStr "Alpha County"; VStr "1200"; VStr "01"; VStr "001"];
                [VStr ("Beta" +:+ String Py.tab "County"); VStr "7"; VStr "01";
                 VStr "003"] ]
              (mkLazyFrame db_columns
                 [ [VStr "Alpha County"; VStr "1200"; VStr "01"; VStr "001"];
                   [VStr ("Beta" +:+ String Py.tab "County"); VStr "7";
                    VStr "01"; VStr "003"] ]))
    as (lines & Hlines & _ & Hrows).
  - vm_compute. reflexivity.
  - destruct Hrows as [Heq Hdrop].
    + intros r Hr. simpl in Hr.
      destruct Hr as [<-|[<-|[]]]; vm_compute; reflexivity.
    + split.
      * rewrite Hlines, Heq. vm_compute. reflexivity.
      * apply (Hdrop [VStr ("Beta" +:+ String Py.tab "County"); VStr "7";
                      VStr "01"; VStr "003"]).
        -- right. left. reflexivity.
        -- vm_compute. reflexivity.
Defined.

(* ===================================================================== *)
(** ** Further properties of the chunked loader *)
(* ===================================================================== *)

Lemma firstn_of_firstn_length {A : Type} (c : nat) (l : list A) :
  firstn (length (firstn c l)) l = firstn c l.
Proof.
  rewrite length_firstn.
  destruct (Nat.le_ge_cases c (length l)) as [H|H].
  - now rewrite Nat.min_l.
  - rewrite Nat.min_r by assumption. rewrite !firstn_all2; [reflexivity|lia|lia].
Qed.

Section LoaderTraces.

Variable raises : nat -> stmt -> bool.
Variable lazy_df : LazyFrame.
Variable target_table : string.
Variable chunk_size : nat.

Abbreviation loop := (load_loop raises lazy_df target_table chunk_size).
Abbreviation txn := (chunk_transaction raises lazy_df target_table).
Abbreviation events := (txn_events raises lazy_df target_table).

Lemma txn_events_closed cc b rest :
  transactions_closed false (events cc b ++ rest)
  = transactions_closed false rest.
Proof.
  unfold txn_events.
  destruct (cc =? 1), (raises cc CallTruncate), (raises cc CopyFrom);
    reflexivity.
Qed.

(** What any run of the loop leaves in the log: whole transactions, whose
    committed windows are consecutive rows of the dataset from the offset
    the run started at. *)
Lemma load_loop_trace fuel : forall cc total conn r conn',
  loop fuel cc total conn = Some (r, conn') ->
  exists evs m,
    log conn' = log conn ++ evs /\
    (forall rest, transactions_closed false (evs ++ rest)
                  = transactions_closed false rest) /\
    concat (committed_windows [] evs)
      = firstn m (skipn total (lf_rows lazy_df)) /\
    length (concat (committed_windows [] evs)) = m /\
    (forall total', r = inl total' -> total' = total + m).
Proof.
  induction fuel as [|fuel IH]; intros cc total conn r conn' H; [discriminate|].
  rewrite load_loop_step in H. cbv zeta in H.
  destruct (is_empty _) eqn:Eempty.
  { injection H as <- <-. exists [], 0. rewrite app_nil_r.
    repeat split; auto. intros total' E. injection E as <-. lia. }
  destruct (_ && _) eqn:Ecap.
  { injection H as <- <-. exists [], 0. rewrite app_nil_r.
    repeat split; auto. intros total' E. injection E as <-. lia. }
  set (batch := slice_collect lazy_df total chunk_size) in *.
  assert (Hbatch : firstn (length batch) (skipn total (lf_rows lazy_df)) = batch)
    by apply firstn_of_firstn_length.
  pose proof (txn_log raises lazy_df target_table (cc + 1) batch conn) as Hlog.
  pose proof (txn_result raises lazy_df target_table (cc + 1) batch conn) as Hres.
  pose proof (txn_events_windows raises lazy_df target_table (cc + 1) batch)
    as Hwin.
  destruct (txn (cc + 1) batch conn) as [[u|e] conn1]; simpl in Hlog, Hres.
  - destruct (txn_succeeds raises (cc + 1)); [|discriminate].
    destruct (length batch <? chunk_size).
    + injection H as <- <-. exists (events (cc + 1) batch), (length batch).
      split; [assumption|]. split; [intros; apply txn_events_closed|].
      rewrite <- (app_nil_r (events _ _)) at 1 2. rewrite Hwin. simpl.
      rewrite app_nil_r. split; [now rewrite Hbatch|].
      split; [reflexivity|].
      intros total' E. now injection E as <-.
    + apply IH in H. destruct H as (evs & m & Hl & Hcl & Hpre & Hlen & Htot).
      exists (events (cc + 1) batch ++ evs), (length batch + m).
      rewrite Hl, Hlog, <- app_assoc. split; [reflexivity|].
      split.
      { intros rest. rewrite <- app_assoc, txn_events_closed. apply Hcl. }
      rewrite Hwin. simpl. rewrite length_app, Hlen, Hpre. split.
      * rewrite firstn_plus, skipn_plus, Hbatch. reflexivity.
      * split; [reflexivity|].
        intros total' E. rewrite (Htot total' E). lia.
  - destruct (txn_succeeds raises (cc + 1)); [discriminate|].
    injection H as <- <-. exists (events (cc + 1) batch), 0.
    split; [assumption|]. split; [intros; apply txn_events_closed|].
    rewrite <- (app_nil_r (events _ _)) at 1 2. rewrite Hwin. simpl.
    split; [reflexivity|]. split; [reflexivity|].
    intros total' E. discriminate E.
Qed.

End LoaderTraces.

(** X1.  Whatever the store does, the log of a load is made of whole
    transactions followed by the close: every statement is followed by its
    commit or its rollback before the next transaction begins, no
    transaction is open when the connection is closed, and the connection
    is closed when the function returns or raises. *)
Theorem loader_transactions_closed (raises : nat -> stmt -> bool)
    (lf : LazyFrame) (t : string) (c : nat) (tables : gmap string (list row)) :
  exists r conn',
    load_chunked_blob_data_to_postgres raises lf t c (fresh_conn tables)
      = Some (r, conn') /\
    transactions_closed false (log conn') = true /\
    closed conn' = true /\
    working conn' = committed conn'.
Proof.
  rewrite load_ready.
  destruct (load_loop_total raises lf t c (S (length (lf_rows lf))) 0 0
              (fresh_conn tables)) as (r & conn1 & Hrun); [lia|].
  rewrite Hrun. exists r, (close conn1). split; [reflexivity|].
  apply load_loop_trace in Hrun. destruct Hrun as (evs & m & Hlog & Hcl & _).
  simpl in Hlog. simpl. rewrite Hlog, Hcl. auto.
Qed.

(** X2.  Whatever the store does, the windows a load has committed are,
    put end to end, a prefix of the dataset: rows are committed in the
    order of the dataset, none twice and none skipped; when the function
    returns, the number it reports is the length of that prefix. *)
Theorem loader_commits_a_prefix (raises : nat -> stmt -> bool)
    (lf : LazyFrame) (t : string) (c : nat) (tables : gmap string (list row)) :
  exists r conn' m,
    load_chunked_blob_data_to_postgres raises lf t c (fresh_conn tables)
      = Some (r, conn') /\
    concat (committed_windows [] (log conn')) = firstn m (lf_rows lf) /\
    m <= length (lf_rows lf) /\
    length (concat (committed_windows [] (log conn'))) = m /\
    (forall total, r = inl total -> total = m).
Proof.
  rewrite load_ready.
  destruct (load_loop_total raises lf t c (S (length (lf_rows lf))) 0 0
              (fresh_conn tables)) as (r & conn1 & Hrun); [lia|].
  rewrite Hrun.
  apply load_loop_trace in Hrun.
  destruct Hrun as (evs & m & Hlog & _ & Hpre & Hlen & Htot).
  simpl in Hlog. change (skipn 0 (lf_rows lf)) with (lf_rows lf) in Hpre.
  exists r, (close conn1), m.
  split; [reflexivity|].
  simpl. rewrite Hlog, committed_windows_close.
  split; [exact Hpre|].
  split; [rewrite <- Hlen, Hpre, length_firstn; lia|].
  split; [exact Hlen|].
  intros total E. now rewrite (Htot total E).
Qed.

(** The committed tables after a load the store accepts and the cap does
    not cut. *)
Lemma uncapped_load_tables (lf : LazyFrame) (t : string) (c : nat)
    (tables : gmap string (list row)) :
  0 < c ->
  (t <> "nppes_providers" \/ length (lf_rows lf) <= 5 * c) ->
  exists conn',
    load_chunked_blob_data_to_postgres no_fault lf t c (fresh_conn tables)
      = Some (inl (length (lf_rows lf)), conn') /\
    committed conn'
      = (if is_empty (lf_rows lf) then tables else <[t := lf_rows lf]> tables).
Proof.
  intros Hc Hcap.
  destruct (ceil_div_covers (length (lf_rows lf)) c Hc) as [Hcover Hpos].
  eexists. split; [now apply load_no_fault_uncapped|].
  change (committed (close ?x)) with (committed x).
  destruct (lf_rows lf) as [|r rows] eqn:Erows.
  - simpl (length []). rewrite (ceil_div_split 0 c Hc).
    rewrite Nat.Div0.div_0_l, Nat.Div0.mod_0_l. reflexivity.
  - destruct (ceil_div (length (r :: rows)) c) as [|k] eqn:Ek.
    { simpl in Hpos. lia. }
    rewrite run_full_committed by reflexivity.
    simpl (0 =? 0). cbv iota. rewrite app_nil_l, concat_windows.
    rewrite Erows. simpl is_empty. cbv iota. f_equal.
    apply firstn_all2. lia.
Qed.

(** X3.  Chunking does not show in the result: for a table without cap
    and a store that accepts every statement, two loads of one dataset with
    any two chunk sizes (the size of the dataset included, which is a load
    in one piece) report the same number of rows and leave the same
    committed tables; with either size the rows handed to the store in the
    committed bulk inserts are, put end to end, the rows of the dataset,
    and every table other than the target is as it was. *)
Theorem loader_chunk_size_transparent (lf : LazyFrame) (t : string)
    (c1 c2 : nat) (tables : gmap string (list row)) :
  0 < c1 -> 0 < c2 -> t <> "nppes_providers" ->
  exists conn1 conn2,
    load_chunked_blob_data_to_postgres no_fault lf t c1 (fresh_conn tables)
      = Some (inl (length (lf_rows lf)), conn1) /\
    load_chunked_blob_data_to_postgres no_fault lf t c2 (fresh_conn tables)
      = Some (inl (length (lf_rows lf)), conn2) /\
    committed conn1 = committed conn2 /\
    concat (committed_windows [] (log conn1)) = lf_rows lf /\
    concat (committed_windows [] (log conn2)) = lf_rows lf /\
    (forall t', t' <> t -> committed conn1 !! t' = tables !! t').
Proof.
  intros H1 H2 Ht.
  destruct (uncapped_load_tables lf t c1 tables H1 (or_introl Ht))
    as (conn1 & Hrun1 & Hc1).
  destruct (uncapped_load_tables lf t c2 tables H2 (or_introl Ht))
    as (conn2 & Hrun2 & Hc2).
  destruct (uncapped_load_all_rows lf t c1 tables H1 (or_introl Ht))
    as (conn1' & Hrun1' & Hw1).
  destruct (uncapped_load_all_rows lf t c2 tables H2 (or_introl Ht))
    as (conn2' & Hrun2' & Hw2).
  rewrite Hrun1 in Hrun1'. injection Hrun1' as <-.
  rewrite Hrun2 in Hrun2'. injection Hrun2' as <-.
  exists conn1, conn2. split; [exact Hrun1|]. split; [exact Hrun2|].
  split; [now rewrite Hc1, Hc2|].
  split; [exact Hw1|]. split; [exact Hw2|].
  rewrite Hc1. intros t' Hne.
  destruct (is_empty (lf_rows lf)); [reflexivity|].
  now apply lookup_insert_ne.
Qed.

Lemma loader_chunk_size_transparent_witness :
  exists conn1 conn2,
    load_chunked_blob_data_to_postgres no_fault (demo_frame 7) "zip_county" 2
      (fresh_conn old_tables) = Some (inl 7, conn1) /\
    load_chunked_blob_data_to_postgres no_fault (demo_frame 7) "zip_county" 7
      (fresh_conn old_tables) = Some (inl 7, conn2) /\
    committed conn1 = committed conn2 /\
    length (committed_windows [] (log conn1)) = 4 /\
    length (committed_windows [] (log conn2)) = 1.
Proof.
  destruct (loader_chunk_size_transparent (demo_frame 7) "zip_county" 2 7
              old_tables) as (conn1 & conn2 & H1 & H2 & H3 & _).
  - lia.
  - lia.
  - discriminate.
  - exists conn1, conn2. split; [exact H1|]. split; [exact H2|].
    split; [exact H3|].
    vm_compute in H1. injection H1 as <-.
    vm_compute in H2. injection H2 as <-.
    split; reflexivity.
Defined.

(** X4.  Loading the same dataset a second time changes nothing: for a
    store that accepts every statement and a load the cap does not cut, the
    committed tables after the second load are those after the first (the
    first chunk of each load empties the table before it fills it). *)
Theorem loader_rerun_idempotent (lf : LazyFrame) (t : string) (c : nat)
    (tables : gmap string (list row)) :
  0 < c ->
  (t <> "nppes_providers" \/ length (lf_rows lf) <= 5 * c) ->
  exists conn1 conn2,
    load_chunked_blob_data_to_postgres no_fault lf t c (fresh_conn tables)
      = Some (inl (length (lf_rows lf)), conn1) /\
    load_chunked_blob_data_to_postgres no_fault lf t c
      (fresh_conn (committed conn1))
      = Some (inl (length (lf_rows lf)), conn2) /\
    committed conn2 = committed conn1.
Proof.
  intros Hc Hcap.
  destruct (uncapped_load_tables lf t c tables Hc Hcap) as (conn1 & Hrun1 & Hc1).
  destruct (uncapped_load_tables lf t c (committed conn1) Hc Hcap)
    as (conn2 & Hrun2 & Hc2).
  exists conn1, conn2. split; [exact Hrun1|]. split; [exact Hrun2|].
  rewrite Hc2. destruct (is_empty (lf_rows lf)); [reflexivity|].
  rewrite Hc1. apply insert_insert_eq.
Qed.

Lemma loader_rerun_idempotent_witness :
  exists conn1 conn2,
    load_chunked_blob_data_to_postgres no_fault (demo_frame 5) "zip_county" 2
      (fresh_conn old_tables) = Some (inl 5, conn1) /\
    load_chunked_blob_data_to_postgres no_fault (demo_frame 5) "zip_county" 2
      (fresh_conn (committed conn1)) = Some (inl 5, conn2) /\
    committed conn2 = committed conn1.
Proof.
  destruct (loader_rerun_idempotent (demo_frame 5) "zip_county" 2 old_tables)
    as (conn1 & conn2 & H).
  - lia.
  - left. discriminate.
  - exists conn1, conn2. exact H.
Defined.

(** X5.  A load of an empty dataset, and a load with chunk size 0, sends
    no statement to the store: the function reports 0 rows, the table keeps
    the rows it had (nothing is truncated), and the connection is closed. *)
Theorem loader_nothing_to_load (raises : nat -> stmt -> bool) (lf : LazyFrame)
    (t : string) (c : nat) (tables : gmap string (list row)) :
  lf_rows lf = [] \/ c = 0 ->
  exists conn',
    load_chunked_blob_data_to_postgres raises lf t c (fresh_conn tables)
      = Some (inl 0, conn') /\
    log conn' = [EvClose] /\
    committed conn' = tables.
Proof.
  intros H. rewrite load_ready.
  rewrite load_loop_step. cbv zeta.
  assert (E : slice_collect lf 0 c = []).
  { unfold slice_collect. destruct H as [-> | ->]; [apply firstn_nil | reflexivity]. }
  rewrite E. simpl. eexists. repeat split.
Qed.

Lemma loader_nothing_to_load_witness :
  exists conn',
    load_chunked_blob_data_to_postgres no_fault (demo_frame 4) "zip_county" 0
      (fresh_conn old_tables) = Some (inl 0, conn') /\
    log conn' = [EvClose] /\
    committed conn' = old_tables.
Proof.
  apply (loader_nothing_to_load no_fault (demo_frame 4) "zip_county" 0
           old_tables).
  right. reflexivity.
Defined.

(** X6.  When the store refuses the truncate call of the first chunk, the
    loader sends no bulk insert: it rolls back, closes the connection and
    raises, and the committed tables are the ones it found. *)
Theorem loader_truncate_refused (raises : nat -> stmt -> bool) (lf : LazyFrame)
    (t : string) (c : nat) (tables : gmap string (list row)) :
  lf_rows lf <> [] -> 0 < c -> raises 1 CallTruncate = true ->
  exists conn',
    load_chunked_blob_data_to_postgres raises lf t c (fresh_conn tables)
      = Some (inr (StoreError 1), conn') /\
    log conn' = [EvTruncate t; EvRollback; EvClose] /\
    List.filter is_copy (log conn') = [] /\
    committed conn' = tables.
Proof.
  intros Hne Hc Hr. rewrite load_ready.
  rewrite load_loop_step. cbv zeta.
  destruct (slice_collect lf 0 c) as [|r batch] eqn:E.
  { exfalso. unfold slice_collect in E. simpl in E.
    destruct (lf_rows lf); [contradiction|].
    destruct c; [lia|discriminate]. }
  simpl is_empty. cbv iota.
  change ((0 + 1 =? 6) && (t =? "nppes_providers")%string) with false.
  cbv iota. unfold chunk_transaction. change (0 + 1) with 1.
  simpl (1 =? 1). cbv iota. rewrite Hr.
  eexists. repeat split.
Qed.

Lemma loader_truncate_refused_witness :
  exists conn',
    load_chunked_blob_data_to_postgres refuse_truncate (demo_frame 4)
      "zip_county" 2 (fresh_conn old_tables)
      = Some (inr (StoreError 1), conn') /\
    committed conn' = old_tables.
Proof.
  destruct (loader_truncate_refused refuse_truncate (demo_frame 4) "zip_county"
              2 old_tables) as (conn' & H1 & _ & _ & H4).
  - discriminate.
  - lia.
  - reflexivity.
  - exists conn'. split; [exact H1 | exact H4].
Defined.

(* ===================================================================== *)
(** ** Further properties of the extractors *)
(* ===================================================================== *)

Lemma index_of_nth (name : string) (columns : list string) : forall i,
  index_of name columns = Some i -> nth_error columns i = Some name.
Proof.
  induction columns as [|c columns IH]; intros i H; [discriminate|].
  simpl in H. destruct (String.eqb_spec c name) as [E|E].
  - injection H as <-. now subst.
  - destruct (index_of name columns) as [i'|]; [|discriminate].
    injection H as <-. simpl. now apply IH.
Qed.

Lemma indexes_of_nth (names columns : list string) : forall idxs j c,
  indexes_of names columns = Some idxs ->
  nth_error names j = Some c ->
  exists i, nth_error idxs j = Some i /\ index_of c columns = Some i.
Proof.
  induction names as [|x names IH]; intros idxs j c H Hj.
  - destruct j; discriminate.
  - simpl in H. destruct (index_of x columns) as [i|] eqn:Ei; [|discriminate].
    destruct (indexes_of names columns) as [rest|] eqn:Er; [|discriminate].
    injection H as <-. destruct j as [|j]; simpl in Hj.
    + injection Hj as <-. exists i. split; [reflexivity | exact Ei].
    + destruct (IH rest j c eq_refl Hj) as (i' & H1 & H2). exists i'. auto.
Qed.

Lemma project_nth (idxs : list nat) (r : row) (j i : nat) :
  nth_error idxs j = Some i -> nth j (project idxs r) VNone = nth i r VNone.
Proof.
  intros H. unfold project.
  apply nth_error_nth. now rewrite nth_error_map, H.
Qed.

Lemma select_inversion (columns : list string) (lf selected : LazyFrame) :
  select columns lf = inl selected ->
  NoDup columns /\
  exists idxs,
    indexes_of columns (lf_columns lf) = Some idxs /\
    selected = mkLazyFrame columns (map (project idxs) (lf_rows lf)).
Proof.
  unfold select. destruct (bool_decide (NoDup columns)) eqn:Hn; [|discriminate].
  cbn [negb]. destruct (indexes_of columns (lf_columns lf)) as [idxs|];
    [|discriminate].
  intros H. injection H as <-. split; [now apply bool_decide_eq_true_1 in Hn|].
  eauto.
Qed.

Lemma rename_inversion (mapping : gmap string string) (lf renamed_lf : LazyFrame) :
  rename mapping lf = inl renamed_lf ->
  NoDup (map (renamed mapping) (lf_columns lf)) /\
  renamed_lf = mkLazyFrame (map (renamed mapping) (lf_columns lf)) (lf_rows lf).
Proof.
  unfold rename. destruct (negb (forallb _ _)); [discriminate|].
  destruct (bool_decide (NoDup _)) eqn:Hn; [|discriminate].
  cbn [negb]. intros H. injection H as <-.
  split; [now apply bool_decide_eq_true_1 in Hn | reflexivity].
Qed.

(** X7.  Whenever the lazy frame the extractor returns for a non-empty
    retain list collects to a frame, the blob was downloaded and parsed,
    every retained column is a column of the source, the frame has the
    retained columns under their new names, all different, one row for
    each row of the source, and the value of a row under the j-th retained
    column is the value the source row has under that column (its first
    occurrence in the source). *)
Theorem extractor_projects_source_cells
    (download_blob : string -> string -> string + exn)
    (scan_csv : string -> list (string * dtype) -> LazyFrame + exn)
    (filename : string) (relevant_columns : list string)
    (column_mapping : gmap string string)
    (schema_overrides : list (string * dtype))
    (plan : LazyPlan) (lazy_df : LazyFrame) :
  relevant_columns <> [] ->
  extract_csv_data_from_blob download_blob scan_csv filename relevant_columns
    column_mapping schema_overrides = Some plan ->
  collect plan = inl lazy_df ->
  exists buffer scanned,
    download_blob "nppes" filename = inl buffer /\
    scan_csv buffer schema_overrides = inl scanned /\
    lf_columns lazy_df = map (renamed column_mapping) relevant_columns /\
    NoDup (lf_columns lazy_df) /\
    length (lf_rows lazy_df) = length (lf_rows scanned) /\
    forall k r j c,
      nth_error (lf_rows scanned) k = Some r ->
      nth_error relevant_columns j = Some c ->
      exists r' i,
        nth_error (lf_rows lazy_df) k = Some r' /\
        length r' = length relevant_columns /\
        nth_error (lf_columns scanned) i = Some c /\
        nth j r' VNone = nth i r VNone.
Proof.
  intros Hne H Hcol. unfold extract_csv_data_from_blob in H.
  destruct (download_blob "nppes" filename) as [buffer|e] eqn:Hd; [|discriminate].
  destruct relevant_columns as [|x xs]; [contradiction|].
  injection H as <-. cbn [collect] in Hcol.
  destruct (scan_csv buffer schema_overrides) as [scanned|e] eqn:Hs;
    [|discriminate].
  cbn [bind_exn] in Hcol.
  destruct (select (x :: xs) scanned) as [selected|e] eqn:Hsel; [|discriminate].
  cbn [bind_exn] in Hcol.
  apply select_inversion in Hsel. destruct Hsel as (_ & idxs & Hidxs & ->).
  apply rename_inversion in Hcol. destruct Hcol as (Hnodup & ->).
  cbn [lf_columns lf_rows] in *.
  exists buffer, scanned. split; [reflexivity|]. split; [exact Hs|].
  split; [reflexivity|]. split; [exact Hnodup|].
  split; [apply length_map|].
  intros k r j c Hk Hj.
  destruct (indexes_of_nth _ _ _ _ _ Hidxs Hj) as (i & Hi & Hc).
  exists (project idxs r), i.
  split; [now rewrite nth_error_map, Hk|].
  split; [unfold project; rewrite length_map; now apply indexes_of_length in Hidxs|].
  split; [now apply index_of_nth | now apply project_nth].
Qed.

Lemma extractor_projects_source_cells_witness :
  exists plan lazy_df,
    extract_csv_data_from_blob sample_download example_scan_csv "zip.csv"
      ["USPS_ZIP_PREF_STATE"; "ZIP"] {[ "ZIP" := "zip" ]}
      zip_county_schema_overrides = Some plan /\
    collect plan = inl lazy_df /\
    lf_columns lazy_df = ["USPS_ZIP_PREF_STATE"; "zip"] /\
    lf_rows lazy_df = [[VStr "NY"; VStr "00501"]].
Proof.
  destruct (extract_csv_data_from_blob sample_download example_scan_csv
              "zip.csv" ["USPS_ZIP_PREF_STATE"; "ZIP"] {[ "ZIP" := "zip" ]}
              zip_county_schema_overrides)
    as [plan|] eqn:E; [|vm_compute in E; discriminate E].
  destruct (collect plan) as [lazy_df|e] eqn:Ec.
  2:{ vm_compute in E. injection E as <-. vm_compute in Ec. discriminate Ec. }
  destruct (extractor_projects_source_cells sample_download example_scan_csv
              "zip.csv" ["USPS_ZIP_PREF_STATE"; "ZIP"] {[ "ZIP" := "zip" ]}
              zip_county_schema_overrides plan lazy_df)
    as (buffer & scanned & _ & _ & Hcols & _).
  - discriminate.
  - exact E.
  - exact Ec.
  - exists plan, lazy_df. split; [reflexivity|]. split; [exact Ec|]. split.
    + rewrite Hcols. vm_compute. reflexivity.
    + vm_compute in E. injection E as <-.
      vm_compute in Ec. injection Ec as <-. reflexivity.
Defined.

Lemma select_present (columns : list string) (lf : LazyFrame) :
  NoDup columns ->
  (forall c, In c columns -> In c (lf_columns lf)) ->
  exists idxs,
    indexes_of columns (lf_columns lf) = Some idxs /\
    select columns lf
    = inl (mkLazyFrame columns (map (project idxs) (lf_rows lf))).
Proof.
  intros Hn Hin.
  destruct (indexes_of_present columns (lf_columns lf) Hin) as (idxs & Hi & _).
  exists idxs. split; [exact Hi|].
  unfold select. rewrite (bool_decide_eq_true_2 _ Hn). cbn [negb].
  now rewrite Hi.
Qed.

Lemma rename_checked (mapping : gmap string string) (columns : list string)
    (rows : list row) :
  forallb (fun k => bool_decide (k ∈ columns)) (map fst (map_to_list mapping))
    = true ->
  bool_decide (NoDup (map (renamed mapping) columns)) = true ->
  rename mapping (mkLazyFrame columns rows)
  = inl (mkLazyFrame (map (renamed mapping) columns) rows).
Proof.
  intros H1 H2. unfold rename. cbn [lf_columns lf_rows].
  now rewrite H1, H2.
Qed.

(** X8.  The column lists and rename mappings of the three CSV sources of
    [NPPES_Data_Cleaning] fit together: whenever the zip-county file (the
    taxonomy file) downloads and parses to a frame that has the retained
    columns, the lazy frame of its extraction collects to a frame with the
    canonical column names of the table, in the order of the retain list;
    the lazy frame of the crosswalk file, which has an empty retain list,
    collects to the file as parsed. *)
Theorem csv_sources_canonical_columns
    (download_blob : string -> string -> string + exn)
    (scan_csv : string -> list (string * dtype) -> LazyFrame + exn)
    (body : Body) :
  (forall buffer scanned,
     download_blob "nppes" (csv_target_file_1 body) = inl buffer ->
     scan_csv buffer zip_county_schema_overrides = inl scanned ->
     (forall c, In c zip_county_relevant_columns -> In c (lf_columns scanned)) ->
     exists plan lf,
       lazy_df_2 download_blob scan_csv body = Some plan /\
       collect plan = inl lf /\
       lf_columns lf
         = [ "zip"; "county"; "usps_zip_pref_city"; "usps_zip_pref_state";
             "res_ratio"; "bus_ratio"; "oth_ratio"; "tot_ratio" ] /\
       length (lf_rows lf) = length (lf_rows scanned)) /\
  (forall buffer scanned,
     download_blob "nppes" (csv_target_file_2 body) = inl buffer ->
     scan_csv buffer ssa_schema_overrides = inl scanned ->
     exists plan,
       lazy_df_3 download_blob scan_csv body = Some plan /\
       collect plan = inl scanned) /\
  (forall buffer scanned,
     download_blob "nppes" (csv_target_file_3 body) = inl buffer ->
     scan_csv buffer taxonomy_schema_overrides = inl scanned ->
     (forall c, In c taxonomy_relevant_columns -> In c (lf_columns scanned)) ->
     exists plan lf,
       lazy_df_4 download_blob scan_csv body = Some plan /\
       collect plan = inl lf /\
       lf_columns lf = [ "code"; "grouping"; "classification"; "specialization" ] /\
       length (lf_rows lf) = length (lf_rows scanned)).
Proof.
  split; [|split].
  - intros buffer scanned Hd Hs Hin.
    destruct (extract_csv_plan download_blob scan_csv (csv_target_file_1 body)
                zip_county_relevant_columns zip_county_column_mapping
                zip_county_schema_overrides buffer Hd) as (plan & Hx & Hc).
    change zip_county_relevant_columns
      with ("ZIP" :: tl zip_county_relevant_columns) in Hc at 1.
    cbv iota in Hc. rewrite Hs in Hc. cbn [bind_exn] in Hc.
    destruct (select_present zip_county_relevant_columns scanned)
      as (idxs & _ & Hsel); [apply (bool_decide_unpack _); vm_compute; exact I
                            | exact Hin |].
    rewrite Hsel in Hc. cbn [bind_exn] in Hc.
    rewrite rename_checked in Hc by (vm_compute; reflexivity).
    eexists plan, _. split; [exact Hx|]. split; [exact Hc|].
    split; [vm_compute; reflexivity|]. apply length_map.
  - intros buffer scanned Hd Hs.
    destruct (extract_csv_plan download_blob scan_csv (csv_target_file_2 body)
                [] ∅ ssa_schema_overrides buffer Hd) as (plan & Hx & Hc).
    exists plan. split; [exact Hx|]. now rewrite Hc.
  - intros buffer scanned Hd Hs Hin.
    destruct (extract_csv_plan download_blob scan_csv (csv_target_file_3 body)
                taxonomy_relevant_columns taxonomy_column_mapping
                taxonomy_schema_overrides buffer Hd) as (plan & Hx & Hc).
    change taxonomy_relevant_columns
      with ("Code" :: tl taxonomy_relevant_columns) in Hc at 1.
    cbv iota in Hc. rewrite Hs in Hc. cbn [bind_exn] in Hc.
    destruct (select_present taxonomy_relevant_columns scanned)
      as (idxs & _ & Hsel); [apply (bool_decide_unpack _); vm_compute; exact I
                            | exact Hin |].
    rewrite Hsel in Hc. cbn [bind_exn] in Hc.
    rewrite rename_checked in Hc by (vm_compute; reflexivity).
    eexists plan, _. split; [exact Hx|]. split; [exact Hc|].
    split; [vm_compute; reflexivity|]. apply length_map.
Qed.

Lemma csv_sources_canonical_columns_witness :
  exists plan lf,
    lazy_df_2 sample_download example_scan_csv sample_body = Some plan /\
    collect plan = inl lf /\
    lf_columns lf
      = [ "zip"; "county"; "usps_zip_pref_city"; "usps_zip_pref_state";
          "res_ratio"; "bus_ratio"; "oth_ratio"; "tot_ratio" ] /\
    length (lf_rows lf) = 1.
Proof.
  destruct (csv_sources_canonical_columns sample_download example_scan_csv
              sample_body) as (H & _).
  destruct (H sample_zip_text sample_zip_frame)
    as (plan & lf & H1 & H2 & H3 & H4).
  - reflexivity.
  - vm_compute. reflexivity.
  - intros c Hc. vm_compute in Hc. vm_compute. tauto.
  - exists plan, lf. split; [exact H1|]. split; [exact H2|].
    split; [exact H3|]. rewrite H4. reflexivity.
Defined.



(* ===================================================================== *)
(** ** Further properties of the exporter *)
(* ===================================================================== *)

Lemma append_rows_inv (rows : list row) : forall content out,
  append_rows rows content = inl out ->
  exists lines,
    out = content ++ lines /\
    Forall2 (fun r line => render_row r = inl line) rows lines.
Proof.
  induction rows as [|r rows IH]; intros content out H; simpl in H.
  - injection H as <-. exists []. split; [now rewrite app_nil_r | constructor].
  - destruct (render_row r) as [line|e] eqn:Er; [|discriminate].
    destruct (IH _ _ H) as (lines & -> & Hall).
    exists (line :: lines). rewrite <- app_assoc. split; [reflexivity|].
    now constructor.
Qed.

Section ExporterAnyView.

Variable view : list row.
Variable chunk_size : nat.

Abbreviation pages := (export_loop (get_export_chunk view) chunk_size).

(** When the loop ends normally, every row of the view from the offset it
    started at has been rendered, once and in order. *)
Lemma export_loop_inv fuel : forall chunk_start st st',
  0 < chunk_size ->
  pages fuel chunk_start st = Some (inl st') ->
  exists lines,
    csv_content st' = csv_content st ++ lines /\
    Forall2 (fun r line => render_row r = inl line)
            (skipn chunk_start view) lines.
Proof.
  induction fuel as [|fuel IH]; intros chunk_start st st' Hc H; [discriminate|].
  rewrite export_loop_step in H.
  pose proof (fetch_length view chunk_size chunk_start) as Hlen.
  unfold get_export_chunk in *.
  set (rest := skipn chunk_start view) in *.
  destruct (firstn chunk_size rest) as [|r rows] eqn:Epage.
  - injection H as <-. exists []. cbn [csv_content].
    split; [now rewrite app_nil_r|].
    assert (E : rest = []).
    { destruct rest; [reflexivity|]. destruct chunk_size; [lia|discriminate]. }
    rewrite E. constructor.
  - destruct (append_rows (r :: rows) (csv_content st)) as [content|e] eqn:Eapp;
      [|discriminate].
    destruct (append_rows_inv _ _ _ Eapp) as (lines & -> & Hall).
    destruct (Nat.ltb_spec (length (r :: rows)) chunk_size) as [Hlt|Hge].
    + injection H as <-. exists lines. cbn [csv_content].
      split; [reflexivity|].
      assert (E : firstn chunk_size rest = rest).
      { apply firstn_all2. rewrite Hlen in Hlt. unfold rest.
        rewrite length_skipn. lia. }
      rewrite <- E, Epage. exact Hall.
    + apply IH in H; [|assumption].
      destruct H as (lines' & Hcsv & Hall').
      cbn [csv_content] in Hcsv.
      exists (lines ++ lines'). rewrite Hcsv, <- app_assoc.
      split; [reflexivity|].
      rewrite <- (firstn_skipn chunk_size rest), Epage.
      apply Forall2_app; [exact Hall|].
      unfold rest. now rewrite skipn_plus.
Qed.

End ExporterAnyView.

Lemma Forall2_renders (view : list row) (lines : list string) :
  Forall2 (fun r line => render_row r = inl line) view lines ->
  forall r, In r view -> exists line, render_row r = inl line.
Proof.
  induction 1 as [|r line view lines Hr _ IH]; intros x Hx; [contradiction|].
  destruct Hx as [<-|Hx]; eauto.
Qed.

(** What the exporter has uploaded when it returns [True]. *)
Lemma export_success_lines (view : list row)
    (upload_error : string -> string -> option string) (p : nat)
    (filename : string) (result : ExportResult) :
  0 < p ->
  export_clean_data_to_csv_chunked view upload_error p filename = Some result ->
  export_success result = true ->
  exists lines,
    uploaded result = Some (filename, Py.join Py.nl (header_line :: lines)) /\
    upload_error filename (Py.join Py.nl (header_line :: lines)) = None /\
    Forall2 (fun r line => render_row r = inl line) view lines.
Proof.
  intros Hp Hrun Hok.
  unfold export_clean_data_to_csv_chunked in Hrun.
  destruct (export_loop (get_export_chunk view) p (S (length view)) 0
              (mkExported [header_line] 0 [])) as [[st|[e queried]]|] eqn:Eloop;
    [| |discriminate].
  - apply export_loop_inv in Eloop; [|assumption].
    destruct Eloop as (lines & Hcsv & Hall).
    cbn [csv_content] in Hcsv. change (skipn 0 view) with view in Hall.
    rewrite Hcsv in Hrun. change ([header_line] ++ lines)
      with (header_line :: lines) in Hrun.
    destruct (upload_error filename (Py.join Py.nl (header_line :: lines)))
      as [err|] eqn:Eup; injection Hrun as <-; cbn [export_success uploaded] in *.
    + discriminate.
    + exists lines. auto.
  - injection Hrun as <-. discriminate.
Qed.

(** The exporter uploads nothing when it returns [False]. *)
Lemma export_failure_nothing (view : list row)
    (upload_error : string -> string -> option string) (p : nat)
    (filename : string) (result : ExportResult) :
  export_clean_data_to_csv_chunked view upload_error p filename = Some result ->
  export_success result = false -> uploaded result = None.
Proof.
  unfold export_clean_data_to_csv_chunked.
  destruct (export_loop _ _ _ _ _) as [[st|[e queried]]|]; [| |discriminate].
  - destruct (upload_error _ _); intros H; injection H as <-;
      [reflexivity | discriminate].
  - intros H. injection H as <-. reflexivity.
Qed.

(** X10.  The export is all or nothing.  For a page size [p >= 1], on any
    view and with any behaviour of the upload, the exporter returns a
    boolean; when it returns [True] the blob it uploaded is the header line
    followed by the line of every row of the view, once and in order; when
    it returns [False] it has uploaded nothing; and it returns [False] as
    soon as one row of the view cannot be rendered. *)
Theorem exporter_all_or_nothing (view : list row)
    (upload_error : string -> string -> option string) (p : nat)
    (filename : string) :
  0 < p ->
  exists result,
    export_clean_data_to_csv_chunked view upload_error p filename
      = Some result /\
    (export_success result = true ->
     exists lines,
       uploaded result
         = Some (filename, Py.join Py.nl (header_line :: lines)) /\
       upload_error filename (Py.join Py.nl (header_line :: lines)) = None /\
       Forall2 (fun r line => render_row r = inl line) view lines) /\
    (export_success result = false -> uploaded result = None) /\
    (forall r e, In r view -> render_row r = inr e ->
                 export_success result = false).
Proof.
  intros Hp.
  destruct (export_total view upload_error p filename) as (result & Hrun).
  exists result. split; [exact Hrun|].
  split; [now apply (export_success_lines view upload_error p filename)|].
  split; [now apply (export_failure_nothing view upload_error p filename)|].
  intros r e Hr He.
  destruct (export_success result) eqn:Hok; [|reflexivity].
  destruct (export_success_lines _ _ _ _ _ Hp Hrun Hok) as (lines & _ & _ & Hall).
  destruct (Forall2_renders _ _ Hall r Hr) as (line & Hline).
  rewrite Hline in He. discriminate.
Qed.

Lemma exporter_all_or_nothing_witness :
  exists result,
    export_clean_data_to_csv_chunked ([VInt 1] :: wide_row :: five_rows)
      upload_always_works 2 "out.csv" = Some result /\
    export_success result = false /\
    uploaded result = None.
Proof.
  destruct (exporter_all_or_nothing ([VInt 1] :: wide_row :: five_rows)
              upload_always_works 2 "out.csv") as (result & Hrun & _ & Hno & Hbad).
  - lia.
  - exists result. split; [exact Hrun|].
    assert (Hfalse : export_success result = false).
    { apply (Hbad wide_row IndexError); [right; left; reflexivity|].
      vm_compute. reflexivity. }
    split; [exact Hfalse | exact (Hno Hfalse)].
Defined.

Lemma string_app_assoc (a b c : string) : (a +:+ b) +:+ c = a +:+ (b +:+ c).
Proof.
  induction a as [|x a IH]; [reflexivity|].
  now rewrite !string_app_cons, IH.
Qed.

(** Reading the body of a quoted field up to its closing quote. *)
Lemma parse_quoted_body (body : string) : forall cur done tail,
  parse_quoted InQuoted cur done
    (Py.replace_char Py.quote (Py.dq +:+ Py.dq) body +:+ Py.dq +:+ tail)
  = parse_quoted AfterQuote (cur +:+ body) done tail.
Proof.
  induction body as [|c body IH]; intros cur done tail.
  - rewrite string_app_nil_r. reflexivity.
  - cbn [Py.replace_char]. destruct (Ascii.eqb_spec c Py.quote) as [E|E].
    + subst c.
      change (parse_quoted InQuoted cur done
                (((Py.dq +:+ Py.dq)
                  +:+ Py.replace_char Py.quote (Py.dq +:+ Py.dq) body)
                 +:+ Py.dq +:+ tail))
        with (parse_quoted InQuoted (cur +:+ Py.dq) done
                (Py.replace_char Py.quote (Py.dq +:+ Py.dq) body
                 +:+ Py.dq +:+ tail)).
      rewrite IH. f_equal. apply string_app_assoc.
    + rewrite string_app_cons. cbn [parse_quoted].
      destruct (Ascii.eqb_spec c Py.quote) as [E'|_]; [contradiction|].
      rewrite IH. f_equal. apply string_app_assoc.
Qed.

Lemma parse_quoted_field (t : string) (done : list string) (tail : string) :
  parse_quoted AtFieldStart EmptyString done (quote_field t +:+ tail)
  = parse_quoted AfterQuote t done tail.
Proof.
  unfold quote_field.
  change (parse_quoted AtFieldStart EmptyString done
            ((Py.dq +:+ Py.replace_char Py.quote (Py.dq +:+ Py.dq) t +:+ Py.dq)
             +:+ tail))
    with (parse_quoted InQuoted EmptyString done
            ((Py.replace_char Py.quote (Py.dq +:+ Py.dq) t +:+ Py.dq)
             +:+ tail)).
  rewrite string_app_assoc. apply parse_quoted_body.
Qed.

Lemma parse_quoted_fields (ts : list string) : forall t done,
  parse_quoted AtFieldStart EmptyString done
    (Py.join "," (map quote_field (t :: ts)))
  = Some (done ++ t :: ts).
Proof.
  induction ts as [|t2 ts IH]; intros t done.
  - change (Py.join "," (map quote_field [t])) with (quote_field t).
    rewrite <- (string_app_nil_r (quote_field t)), parse_quoted_field.
    reflexivity.
  - change (Py.join "," (map quote_field (t :: t2 :: ts)))
      with (quote_field t
            +:+ String "," (Py.join "," (map quote_field (t2 :: ts)))).
    rewrite parse_quoted_field.
    change (parse_quoted AfterQuote t done (String "," ?z))
      with (parse_quoted AtFieldStart EmptyString (done ++ [t]) z).
    rewrite IH, <- app_assoc. reflexivity.
Qed.

Lemma escape_value_text (i : nat) (v : value) :
  i < 15 -> escape_value i v = inl (quote_field (field_text i v)).
Proof.
  intros Hi. rewrite (escape_value_spec i v Hi).
  destruct v; reflexivity.
Qed.

Lemma escape_row_from_texts (r : row) : forall i,
  i + length r <= 15 ->
  escape_row_from i r = inl (map quote_field (field_texts_from i r)).
Proof.
  induction r as [|v r IH]; intros i Hi; [reflexivity|].
  simpl in Hi. cbn [escape_row_from field_texts_from map].
  rewrite (escape_value_text i v) by lia. now rewrite IH by lia.
Qed.

(** X11.  A line of the export can be read back: for a row of at most
    fifteen values, reading the rendered line as quoted fields separated by
    commas gives back, field by field, the text of every value (the empty
    text for a null, the zero-filled text for the postal code), whatever
    commas and quotes the texts hold. *)
Theorem exporter_line_round_trip (r : row) :
  length r <= 15 ->
  exists line,
    render_row r = inl line /\
    read_csv_line line = Some (field_texts_from 0 r) /\
    length (field_texts_from 0 r) = length r.
Proof.
  intros Hr. unfold render_row.
  rewrite (escape_row_from_texts r 0) by lia.
  eexists. split; [reflexivity|]. split.
  - unfold read_csv_line. destruct r as [|v r]; [reflexivity|].
    cbn [field_texts_from]. apply (parse_quoted_fields _ _ []).
  - clear Hr. generalize 0. induction r as [|v r IH]; intros i; simpl;
      [reflexivity | now rewrite IH].
Qed.

Lemma exporter_line_round_trip_witness :
  exists line,
    render_row [VStr ("Acme, " +:+ Py.dq +:+ "Inc" +:+ Py.dq); VNone; VInt 42]
      = inl line /\
    read_csv_line line
      = Some ["Acme, " +:+ Py.dq +:+ "Inc" +:+ Py.dq; ""; "42"].
Proof.
  destruct (exporter_line_round_trip
              [VStr ("Acme, " +:+ Py.dq +:+ "Inc" +:+ Py.dq); VNone; VInt 42])
    as (line & H1 & H2 & _).
  - simpl. lia.
  - exists line. split; [exact H1 | exact H2].
Defined.

(* ===================================================================== *)
(** ** Further properties of the API snapshot loader *)
(* ===================================================================== *)

Lemma has_char_weaken (p q : ascii -> bool) (s : string) :
  (forall c, p c = true -> q c = true) ->
  has_char q s = false -> has_char p s = false.
Proof.
  intros Hpq. induction s as [|c s IH]; [reflexivity|].
  simpl. intros H. apply orb_false_iff in H. destruct H as [Hc Hs].
  rewrite (IH Hs), orb_false_r.
  destruct (p c) eqn:E; [|reflexivity]. rewrite (Hpq c E) in Hc. discriminate.
Qed.

Lemma uint_decimal (d : Decimal.uint) :
  has_char (fun c => negb (decimal_char c)) (NilEmpty.string_of_uint d) = false.
Proof. induction d; simpl; auto. Qed.

(** The text of an integer is not empty and is made of digits and of a
    minus sign. *)
Lemma str_int_decimal (z : Z) :
  has_char (fun c => negb (decimal_char c)) (Py.str (VInt z)) = false /\
  0 < String.length (Py.str (VInt z)).
Proof.
  unfold Py.str, NilZero.string_of_int.
  assert (Hu : forall d,
             has_char (fun c => negb (decimal_char c)) (NilZero.string_of_uint d)
             = false /\ 0 < String.length (NilZero.string_of_uint d)).
  { intros d. split.
    - destruct d; try apply (uint_decimal (_ d)); reflexivity.
    - destruct d; simpl; lia. }
  destruct (Z.to_int z) as [d|d].
  - apply Hu.
  - destruct (Hu d) as [H1 H2]. split; [simpl; exact H1 | simpl; lia].
Qed.

Lemma space_not_decimal (c : ascii) :
  polars_is_space c = true -> negb (decimal_char c) = true.
Proof.
  destruct c as [[|] [|] [|] [|] [|] [|] [|] [|]]; vm_compute; auto.
Qed.

Lemma lstrip_none (ws : ascii -> bool) (s : string) :
  has_char ws s = false -> Py.lstrip ws s = s.
Proof.
  destruct s as [|c s]; [reflexivity|]. simpl. intros H.
  apply orb_false_iff in H. destruct H as [-> _]. reflexivity.
Qed.

Lemma rstrip_none (ws : ascii -> bool) (s : string) :
  has_char ws s = false -> Py.rstrip ws s = s.
Proof.
  induction s as [|c s IH]; [reflexivity|]. simpl. intros H.
  apply orb_false_iff in H. destruct H as [Hc Hs].
  rewrite (IH Hs), Hc. now destruct s.
Qed.

Lemma strip_chars_decimal (z : Z) :
  strip_chars (Py.str (VInt z)) = Py.str (VInt z).
Proof.
  destruct (str_int_decimal z) as [H _].
  pose proof (has_char_weaken polars_is_space _ _ space_not_decimal H) as Hs.
  unfold strip_chars. now rewrite (rstrip_none _ _ Hs), (lstrip_none _ _ Hs).
Qed.

Lemma cast_int32_cases (parse_int : string -> option Z) (v : value) :
  cast_int32 parse_int v = VNone \/
  exists z, cast_int32 parse_int v = VInt z /\ in_int32 z = true.
Proof.
  destruct v as [|s|z]; simpl.
  - now left.
  - destruct (parse_int s) as [z|]; [|now left].
    destruct (in_int32 z) eqn:E; [right; eauto | now left].
  - destruct (in_int32 z) eqn:E; [right; eauto | now left].
Qed.

Lemma filter_all {A : Type} (f : A -> bool) (l : list A) :
  (forall x, In x l -> f x = true) -> List.filter f l = l.
Proof.
  induction l as [|x l IH]; intros H; [reflexivity|].
  simpl. rewrite (H x) by now left. f_equal. apply IH.
  intros y Hy. apply H. now right.
Qed.

(** The rows kept after the null filter, once trimmed: four texts, the
    second being the decimal writing of a 32-bit integer. *)
Lemma trimmed_row_shape (parse_int : string -> option Z) (rows0 : list row)
    (r : row) :
  Forall (fun r => length r = 4) rows0 ->
  In r (map (map to_trimmed_text)
          (List.filter all_not_null
             (map (alter (cast_int32 parse_int) 1) rows0))) ->
  exists a z c d,
    r = [VStr a; VStr (Py.str (VInt z)); VStr c; VStr d] /\
    in_int32 z = true.
Proof.
  intros Hlen Hr. apply in_map_iff in Hr. destruct Hr as (r0 & <- & Hr0).
  apply filter_In in Hr0. destruct Hr0 as [Hr0 Hnn].
  apply in_map_iff in Hr0. destruct Hr0 as (r1 & <- & Hr1).
  rewrite List.Forall_forall in Hlen.
  destruct (four_cells r1 (Hlen r1 Hr1)) as (a & b & c & d & ->).
  change (alter (cast_int32 parse_int) 1 [a; b; c; d])
    with [a; cast_int32 parse_int b; c; d] in *.
  destruct (cast_int32_cases parse_int b) as [E|(z & E & Hz)]; rewrite E in *.
  - exfalso. apply all_not_null_spec in Hnn. apply Hnn. right. now left.
  - destruct (to_trimmed_text_str a) as (sa & Ea).
    destruct (to_trimmed_text_str c) as (sc & Ec).
    destruct (to_trimmed_text_str d) as (sd & Ed).
    exists sa, z, sc, sd. split; [|exact Hz].
    cbn [map]. rewrite Ea, Ec, Ed. cbn [to_trimmed_text].
    now rewrite strip_chars_decimal.
Qed.

(** X12.  The filter on fully blank rows removes nothing: a row that
    passed the null filter has an integer of 32 bits as population, whose
    text is not empty.  The frame that is written out is made of the rows
    kept by the null filter, each value trimmed, and its population column
    holds the decimal writing of the integer (007 is written 7). *)
Theorem api_loader_blank_filter_keeps_all (parse_int : string -> option Z)
    (headers : list string) (rows : list row) (df : DataFrame) :
  api_frame headers rows = inl df ->
  exists final,
    clean_frame parse_int headers rows = inl final /\
    lf_rows final
      = map (map to_trimmed_text)
          (List.filter all_not_null
             (map (alter (cast_int32 parse_int) 1) (lf_rows df))) /\
    drop_blank_rows final = inl final /\
    forall r, In r (lf_rows final) ->
      exists a z c d,
        r = [VStr a; VStr (Py.str (VInt z)); VStr c; VStr d] /\
        in_int32 z = true.
Proof.
  intros Hdf. destruct (api_frame_shape _ _ _ Hdf) as [_ Hlen].
  pose proof (clean_frame_rows parse_int _ _ _ Hdf) as Hfinal.
  set (trimmed := map (map to_trimmed_text)
                    (List.filter all_not_null
                       (map (alter (cast_int32 parse_int) 1) (lf_rows df)))) in *.
  assert (Hshape : forall r, In r trimmed ->
            exists a z c d,
              r = [VStr a; VStr (Py.str (VInt z)); VStr c; VStr d] /\
              in_int32 z = true).
  { intros r Hr. now apply (trimmed_row_shape parse_int (lf_rows df)). }
  assert (Hkeep : List.filter some_not_empty trimmed = trimmed).
  { apply filter_all. intros r Hr.
    destruct (Hshape r Hr) as (a & z & c & d & -> & _).
    unfold some_not_empty. cbn [existsb len_chars].
    destruct (str_int_decimal z) as [_ Hpos].
    apply Nat.ltb_lt in Hpos. rewrite Hpos. now rewrite orb_true_r. }
  rewrite Hkeep in Hfinal.
  exists (mkLazyFrame db_columns trimmed).
  split; [exact Hfinal|]. split; [reflexivity|]. split; [|exact Hshape].
  rewrite drop_blank_rows_db.
  - now rewrite Hkeep.
  - apply List.Forall_forall. intros r Hr.
    destruct (Hshape r Hr) as (a & z & c & d & -> & _). reflexivity.
Qed.

Lemma api_loader_blank_filter_keeps_all_witness :
  clean_frame parse_decimal census_headers
    [ [VStr "  "; VStr "007"; VStr " 01 "; VStr "001"] ]
  = inl (mkLazyFrame db_columns
           [ [VStr ""; VStr "7"; VStr "01"; VStr "001"] ]).
Proof.
  destruct (api_loader_blank_filter_keeps_all parse_decimal census_headers
              [ [VStr "  "; VStr "007"; VStr " 01 "; VStr "001"] ]
              (mkLazyFrame db_columns
                 [ [VStr "  "; VStr "007"; VStr " 01 "; VStr "001"] ]))
    as (final & H1 & H2 & _).
  - vm_compute. reflexivity.
  - rewrite H1. vm_compute in H1. injection H1 as <-. reflexivity.
Defined.

Lemma dict_keys_in (names : list string) : forall seen c,
  In c (dict_keys seen names) -> In c names.
Proof.
  induction names as [|x names IH]; intros seen c H; [contradiction|].
  simpl in H. destruct (existsb (String.eqb x) seen).
  - right. now apply (IH seen).
  - destruct H as [<-|H]; [now left | right; now apply (IH (x :: seen))].
Qed.

Lemma forallb_false_in {A : Type} (f : A -> bool) (l : list A) (x : A) :
  In x l -> f x = false -> forallb f l = false.
Proof.
  induction l as [|y l IH]; intros Hin Hf; [contradiction|].
  simpl. destruct Hin as [->|Hin].
  - now rewrite Hf.
  - rewrite (IH Hin Hf). apply andb_false_r.
Qed.

Lemma rename_missing_key (mapping : gmap string string) (lf : LazyFrame)
    (k : string) :
  In k (map fst (map_to_list mapping)) -> ~ In k (lf_columns lf) ->
  rename mapping lf = inr PolarsError.
Proof.
  intros Hk Hout. unfold rename.
  rewrite (forallb_false_in _ _ k Hk); [reflexivity|].
  apply bool_decide_eq_false_2. intros H. apply Hout.
  now apply list_elem_of_In.
Qed.

(** X13.  The snapshot loader raises, without opening a transaction or
    touching the store, when one of the four API fields is not among the
    headers that the transposition keeps: a header row without the field,
    a data row too short to reach it (the shortest row cuts every column
    after its length), or no data row at all. *)
Theorem api_loader_missing_field (parse_int : string -> option Z)
    (copy_raises : bool) (headers : list string) (rows : list row)
    (conn : Conn) (field : string) :
  In field ["NAME"; "B01001_001E"; "state"; "county"] ->
  ~ In field (firstn (zip_width rows) headers) ->
  load_api_data parse_int copy_raises headers rows conn
    = (inr PolarsError, conn) /\
  load_api_data parse_int copy_raises headers [] conn
    = (inr PolarsError, conn).
Proof.
  assert (Hgen : forall rows' f,
            In f ["NAME"; "B01001_001E"; "state"; "county"] ->
            ~ In f (firstn (zip_width rows') headers) ->
            load_api_data parse_int copy_raises headers rows' conn
            = (inr PolarsError, conn)).
  { intros rows' f Hf Hout.
    unfold load_api_data, cleaned_lines, clean_frame, api_frame.
    rewrite (rename_missing_key api_column_mapping _ f); [reflexivity| |].
    - vm_compute. vm_compute in Hf. tauto.
    - unfold frame_of_dict. cbn [lf_columns]. intros H.
      apply Hout. now apply dict_keys_in in H. }
  intros Hf Hout. split; [now apply (Hgen rows field)|].
  apply (Hgen [] "NAME"); [now left | intros []].
Qed.

Lemma api_loader_missing_field_witness :
  load_api_data parse_decimal false census_headers
    [ [VStr "Alpha County"; VStr "1200"; VStr "01"; VStr "001"];
      [VStr "Beta County"; VStr "50"; VStr "01"] ]
    (fresh_conn no_tables)
  = (inr PolarsError, fresh_conn no_tables).
Proof.
  apply (api_loader_missing_field parse_decimal false census_headers
           [ [VStr "Alpha County"; VStr "1200"; VStr "01"; VStr "001"];
             [VStr "Beta County"; VStr "50"; VStr "01"] ]
           (fresh_conn no_tables) "county").
  - right. right. right. left. reflexivity.
  - vm_compute. intros [H|[H|[H|[]]]]; discriminate H.
Defined.

(** X14.  The snapshot load is additive.  When the frame is built, a load
    the store accepts appends the rows of the cleaned lines to
    [census_county_population] without truncating it and leaves the other
    tables as they were; a load the store refuses leaves every table as it
    was and raises; both close the connection.  Loading the same snapshot
    twice therefore stores its rows twice. *)
Theorem api_loader_appends (parse_int : string -> option Z)
    (headers : list string) (rows : list row) (lines : list string)
    (tables : gmap string (list row)) :
  cleaned_lines parse_int headers rows = inl lines ->
  exists conn1 conn2 conn3,
    load_api_data parse_int false headers rows (fresh_conn tables)
      = (inl tt, conn1) /\
    committed conn1
      = <[ "census_county_population" :=
             table_of tables "census_county_population"
             ++ map copied_row lines ]> tables /\
    List.filter is_truncate (log conn1) = [] /\
    transactions_closed false (log conn1) = true /\
    closed conn1 = true /\
    load_api_data parse_int false headers rows (fresh_conn (committed conn1))
      = (inl tt, conn2) /\
    table_of (committed conn2) "census_county_population"
      = table_of tables "census_county_population"
        ++ map copied_row lines ++ map copied_row lines /\
    load_api_data parse_int true headers rows (fresh_conn tables)
      = (inr (StoreError 1), conn3) /\
    committed conn3 = tables /\
    closed conn3 = true.
Proof.
  intros Hlines. unfold load_api_data. rewrite Hlines.
  eexists. eexists. eexists.
  split; [reflexivity|]. split; [reflexivity|]. split; [reflexivity|].
  split; [reflexivity|]. split; [reflexivity|]. split; [reflexivity|].
  split.
  { cbn [committed close commit copy_from fresh_conn working].
    rewrite !table_of_insert. now rewrite <- app_assoc. }
  split; [reflexivity|]. split; reflexivity.
Qed.

Lemma api_loader_appends_witness :
  exists conn1,
    load_api_data parse_decimal false census_headers
      [ [VStr "Alpha County"; VStr "1200"; VStr "01"; VStr "001"] ]
      (fresh_conn old_tables) = (inl tt, conn1) /\
    committed conn1
      = <[ "census_county_population" :=
             [ [VStr "Alpha County"; VStr "1200"; VStr "01"; VStr "001"] ] ]>
          old_tables.
Proof.
  destruct (api_loader_appends parse_decimal census_headers
              [ [VStr "Alpha County"; VStr "1200"; VStr "01"; VStr "001"] ]
              [ "Alpha County" +:+ String Py.tab "1200" +:+ String Py.tab "01"
                +:+ String Py.tab "001" ]
              old_tables) as (conn1 & _ & _ & H1 & H2 & _).
  - vm_compute. reflexivity.
  - exists conn1. split; [exact H1|]. rewrite H2. reflexivity.
Defined.

Lemma needs_quotes_unsafe (s : string) :
  has_char unsafe_char s = false -> needs_quotes Py.tab s = false.
Proof.
  unfold needs_quotes. induction s as [|c s IH]; [reflexivity|].
  simpl. intros H. apply orb_false_iff in H. destruct H as [Hc Hs].
  rewrite (IH Hs), orb_false_r.
  unfold unsafe_char, is_tab in Hc.
  apply orb_false_iff in Hc. destruct Hc as [Hc _].
  apply orb_false_iff in Hc. destruct Hc as [Hc Hbreak].
  apply orb_false_iff in Hc. destruct Hc as [Htab Hquote].
  rewrite Htab, Hquote. cbn [orb].
  unfold Py.is_linebreak in Hbreak. simpl in Hbreak.
  repeat (apply orb_false_iff in Hbreak; destruct Hbreak as [? Hbreak]).
  apply orb_false_iff. split; assumption.
Qed.

Lemma write_field_plain (s : string) :
  s <> EmptyString -> has_char unsafe_char s = false ->
  write_field Py.tab (VStr s) = s.
Proof.
  intros Hne Hs. unfold write_field. destruct s as [|c s]; [contradiction|].
  now rewrite (needs_quotes_unsafe _ Hs).
Qed.

Lemma split_no_sep (sep : ascii) (s : string) :
  has_char (fun c => (c =? sep)%char) s = false -> Py.split sep s = [s].
Proof.
  induction s as [|c s IH]; [reflexivity|]. simpl. intros H.
  apply orb_false_iff in H. destruct H as [Hc Hs].
  now rewrite Hc, (IH Hs).
Qed.

Lemma split_at_sep (sep : ascii) (a rest : string) :
  has_char (fun c => (c =? sep)%char) a = false ->
  Py.split sep (a +:+ String sep rest) = a :: Py.split sep rest.
Proof.
  induction a as [|c a IH]; intros H.
  - change (EmptyString +:+ ?x) with x. cbn [Py.split].
    now rewrite Ascii.eqb_refl.
  - simpl in H. apply orb_false_iff in H. destruct H as [Hc Ha].
    rewrite string_app_cons. cbn [Py.split]. now rewrite Hc, (IH Ha).
Qed.

Lemma rstrip_keeps (ws : ascii -> bool) (s : string) :
  has_char (fun c => negb (ws c)) (Py.rstrip ws s)
  = has_char (fun c => negb (ws c)) s.
Proof.
  induction s as [|c s IH]; [reflexivity|].
  cbn [Py.rstrip]. destruct (Py.rstrip ws s) as [|k kept] eqn:E.
  - cbn [has_char] in IH. cbn [has_char]. rewrite <- IH.
    destruct (ws c) eqn:Ec; simpl; rewrite ?Ec; reflexivity.
  - cbn [has_char] in *. now rewrite <- IH.
Qed.

Lemma lstrip_keeps (ws : ascii -> bool) (s : string) :
  has_char (fun c => negb (ws c)) (Py.lstrip ws s)
  = has_char (fun c => negb (ws c)) s.
Proof.
  induction s as [|c s IH]; [reflexivity|].
  cbn [Py.lstrip]. destruct (ws c) eqn:E; [|reflexivity].
  cbn [has_char]. now rewrite E, IH.
Qed.

(** A line with a character that is not white space is not blank. *)
Lemma strip_not_blank (s : string) :
  has_char not_space s = true -> Py.strip s <> EmptyString.
Proof.
  intros H E.
  assert (H' : has_char not_space (Py.strip s) = true).
  { unfold Py.strip, not_space. now rewrite lstrip_keeps, rstrip_keeps. }
  rewrite E in H'. discriminate.
Qed.

Lemma decimal_not_space (c : ascii) :
  negb (not_space c) = true -> negb (decimal_char c) = true.
Proof.
  destruct c as [[|] [|] [|] [|] [|] [|] [|] [|]]; vm_compute; auto.
Qed.

Lemma decimal_has_not_space (z : Z) :
  has_char not_space (Py.str (VInt z)) = true.
Proof.
  destruct (str_int_decimal z) as [Hdec Hpos].
  pose proof (has_char_weaken (fun c => negb (not_space c)) _ _
                decimal_not_space Hdec) as Hs.
  destruct (Py.str (VInt z)) as [|c s]; [simpl in Hpos; lia|].
  simpl in Hs. apply orb_false_iff in Hs. destruct Hs as [Hc _].
  simpl. apply negb_false_iff in Hc. now rewrite Hc.
Qed.

Lemma unsafe_tab (s : string) :
  has_char unsafe_char s = false -> has_char is_tab s = false.
Proof.
  apply has_char_weaken. intros c H. unfold unsafe_char. now rewrite H.
Qed.

Lemma unsafe_break (s : string) :
  has_char unsafe_char s = false -> has_char Py.is_linebreak s = false.
Proof.
  apply has_char_weaken. intros c H. unfold unsafe_char.
  now rewrite H, orb_true_r.
Qed.

Lemma unsafe_backslash (s : string) :
  has_char unsafe_char s = false -> has_char is_backslash s = false.
Proof.
  apply has_char_weaken. intros c H. unfold unsafe_char.
  now rewrite H, orb_true_r.
Qed.

Lemma split_cons (sep : ascii) (s : string) :
  exists w ws, Py.split sep s = w :: ws.
Proof.
  destruct s as [|c s]; simpl; [eauto|].
  destruct (c =? sep)%char; [eauto|].
  destruct (Py.split sep s); eauto.
Qed.

(** On a line without backslash the fields of the text format are the
    pieces between the tabulations. *)
Lemma copy_fields_plain (s : string) :
  has_char is_backslash s = false ->
  copy_fields s
  = map (fun f => (match f with EmptyString => true | _ => false end, f))
        (Py.split Py.tab s).
Proof.
  induction s as [|c s IH]; intros H; [reflexivity|].
  cbn [has_char] in H. apply orb_false_iff in H. destruct H as [Hc Hs].
  cbn [copy_fields Py.split]. rewrite Hc.
  destruct (c =? Py.tab)%char.
  - cbn [map]. now rewrite (IH Hs).
  - rewrite (IH Hs). destruct (split_cons Py.tab s) as (w & ws & ->).
    reflexivity.
Qed.

Lemma copied_row_plain (s : string) :
  has_char is_backslash s = false ->
  copied_row s
  = map (fun f => match f with EmptyString => VNone | _ => VStr f end)
        (Py.split Py.tab s).
Proof.
  intros H. unfold copied_row. rewrite (copy_fields_plain s H), map_map.
  apply map_ext. intros f. now destruct f.
Qed.

Lemma row_unsafe_break (r : row) :
  row_has unsafe_char r = false -> row_has Py.is_linebreak r = false.
Proof.
  unfold row_has. induction r as [|v r IH]; [reflexivity|].
  simpl. intros H. apply orb_false_iff in H. destruct H as [Hv Hr].
  now rewrite (unsafe_break _ Hv), (IH Hr).
Qed.

(** The line of a row of four plain texts, and what is read from it. *)
Lemma plain_row_line (a b c d : string) (z : Z) :
  b = Py.str (VInt z) ->
  a <> EmptyString -> c <> EmptyString -> d <> EmptyString ->
  row_has unsafe_char [VStr a; VStr b; VStr c; VStr d] = false ->
  line_ok (write_row Py.tab [VStr a; VStr b; VStr c; VStr d]) = true /\
  copied_row (write_row Py.tab [VStr a; VStr b; VStr c; VStr d])
    = [VStr a; VStr b; VStr c; VStr d].
Proof.
  intros Hb Ha Hc Hd Hplain.
  assert (Hbne : b <> EmptyString).
  { intros E. destruct (str_int_decimal z) as [_ Hpos].
    rewrite <- Hb, E in Hpos. simpl in Hpos. lia. }
  unfold row_has in Hplain. simpl in Hplain. rewrite orb_false_r in Hplain.
  apply orb_false_iff in Hplain. destruct Hplain as [Pa Hplain].
  apply orb_false_iff in Hplain. destruct Hplain as [Pb Hplain].
  apply orb_false_iff in Hplain. destruct Hplain as [Pc Pd].
  assert (Hline : write_row Py.tab [VStr a; VStr b; VStr c; VStr d]
                  = a +:+ String Py.tab (b +:+ String Py.tab
                            (c +:+ String Py.tab d))).
  { rewrite write_row_four, !write_field_plain by assumption. reflexivity. }
  assert (Hsplit : Py.split Py.tab
                     (a +:+ String Py.tab (b +:+ String Py.tab
                        (c +:+ String Py.tab d))) = [a; b; c; d]).
  { rewrite !split_at_sep by now apply unsafe_tab.
    now rewrite split_no_sep by now apply unsafe_tab. }
  rewrite Hline. split.
  - unfold line_ok. rewrite Hsplit. cbn [length Nat.eqb].
    rewrite andb_true_r. apply negb_true_iff.
    destruct (String.eqb_spec (Py.strip (a +:+ String Py.tab
                (b +:+ String Py.tab (c +:+ String Py.tab d)))) EmptyString)
      as [E|E]; [|reflexivity].
    exfalso. revert E. apply strip_not_blank.
    rewrite has_char_app. cbn [has_char]. rewrite has_char_app, Hb.
    rewrite decimal_has_not_space. now rewrite !orb_true_r.
  - rewrite copied_row_plain, Hsplit.
    + cbn [map].
      destruct a; [contradiction|]. destruct b; [contradiction|].
      destruct c; [contradiction|]. destruct d; [contradiction|]. reflexivity.
    + rewrite !has_char_app. cbn [has_char].
      rewrite !has_char_app. cbn [has_char].
      rewrite !has_char_app. cbn [has_char].
      rewrite (unsafe_backslash a Pa), (unsafe_backslash b Pb),
        (unsafe_backslash c Pc), (unsafe_backslash d Pd).
      reflexivity.
Qed.

(** The frame that is written out, with the shape of its rows. *)
Lemma api_loader_blank_rows_shape (parse_int : string -> option Z)
    (headers : list string) (rows : list row) (df : DataFrame) :
  api_frame headers rows = inl df ->
  exists final,
    clean_frame parse_int headers rows = inl final /\
    forall r, In r (lf_rows final) ->
      exists a z c d,
        r = [VStr a; VStr (Py.str (VInt z)); VStr c; VStr d] /\
        in_int32 z = true.
Proof.
  intros Hdf. destruct (api_frame_shape _ _ _ Hdf) as [_ Hlen].
  rewrite (clean_frame_rows parse_int _ _ _ Hdf).
  eexists. split; [reflexivity|]. cbn [lf_rows]. intros r Hr.
  apply filter_In in Hr. destruct Hr as [Hr _].
  now apply (trimmed_row_shape parse_int (lf_rows df)).
Qed.

(** X15.  Plain rows go through unchanged.  When every text of the frame
    that is written out is non-empty and holds no tabulation, no quote, no
    line break and no backslash, the lines handed to the bulk insert are
    the lines of its rows, all of them and in order, and the rows the text
    format of the store reads from them are the rows of the frame. *)
Theorem api_loader_plain_rows_round_trip (parse_int : string -> option Z)
    (headers : list string) (rows : list row) (final : DataFrame) :
  clean_frame parse_int headers rows = inl final ->
  (forall r, In r (lf_rows final) ->
     row_has unsafe_char r = false /\
     Forall (fun v => cell_text v <> EmptyString) r) ->
  cleaned_lines parse_int headers rows
    = inl (map (write_row Py.tab) (lf_rows final)) /\
  map copied_row (map (write_row Py.tab) (lf_rows final)) = lf_rows final /\
  forall tables,
    table_of
      (committed
         (snd (load_api_data parse_int false headers rows (fresh_conn tables))))
      "census_county_population"
    = table_of tables "census_county_population" ++ lf_rows final.
Proof.
  intros Hfinal Hplain.
  destruct (api_frame headers rows) as [df|e] eqn:Hdf.
  2:{ unfold clean_frame in Hfinal. rewrite Hdf in Hfinal.
      cbn [bind_exn] in Hfinal. discriminate Hfinal. }
  destruct (api_loader_blank_rows_shape parse_int headers rows df Hdf)
    as (final' & Hfinal' & Hshape).
  rewrite Hfinal in Hfinal'. injection Hfinal' as <-.
  assert (Hrow : forall r, In r (lf_rows final) ->
            line_ok (write_row Py.tab r) = true /\
            copied_row (write_row Py.tab r) = r /\
            has_char Py.is_linebreak (write_row Py.tab r) = false).
  { intros r Hr. destruct (Hshape r Hr) as (a & z & c & d & -> & _).
    destruct (Hplain _ Hr) as [Hunsafe Hne].
    inversion Hne as [|? ? Ha Hne1]; subst.
    inversion Hne1 as [|? ? Hb Hne2]; subst.
    inversion Hne2 as [|? ? Hc Hne3]; subst.
    inversion Hne3 as [|? ? Hd _]; subst.
    destruct (plain_row_line a _ c d z eq_refl Ha Hc Hd Hunsafe) as [H1 H2].
    split; [exact H1|]. split; [exact H2|].
    rewrite write_row_breaks. now apply row_unsafe_break. }
  assert (Hlines : cleaned_lines_of final = map (write_row Py.tab) (lf_rows final)).
  { unfold cleaned_lines_of, write_csv.
    rewrite <- (map_map (write_row Py.tab) (fun l => l +:+ Py.nl)).
    rewrite splitlines_lines.
    - apply filter_all. intros l Hl. apply in_map_iff in Hl.
      destruct Hl as (r & <- & Hr). apply (Hrow r Hr).
    - apply List.Forall_forall. intros l Hl. apply in_map_iff in Hl.
      destruct Hl as (r & <- & Hr). apply (Hrow r Hr). }
  assert (Hcopied : map copied_row (map (write_row Py.tab) (lf_rows final))
                    = lf_rows final).
  { rewrite map_map. rewrite <- (map_id (lf_rows final)) at 2.
    apply map_ext_in. intros r Hr. apply (Hrow r Hr). }
  split; [unfold cleaned_lines; rewrite Hfinal; cbn [bind_exn];
          now rewrite Hlines|].
  split; [exact Hcopied|].
  intros tables. unfold load_api_data, cleaned_lines. rewrite Hfinal.
  cbn [bind_exn]. rewrite Hlines, Hcopied.
  cbn [snd committed close commit copy_from fresh_conn working].
  now rewrite table_of_insert.
Qed.

Lemma api_loader_plain_rows_round_trip_witness :
  cleaned_lines parse_decimal census_headers
    [ [VStr " Alpha County "; VStr "001200"; VStr "01"; VStr "001"] ]
  = inl (map (write_row Py.tab)
           [ [VStr "Alpha County"; VStr "1200"; VStr "01"; VStr "001"] ]) /\
  map copied_row
    (map (write_row Py.tab)
       [ [VStr "Alpha County"; VStr "1200"; VStr "01"; VStr "001"] ])
  = [ [VStr "Alpha County"; VStr "1200"; VStr "01"; VStr "001"] ].
Proof.
  destruct (api_loader_plain_rows_round_trip parse_decimal census_headers
              [ [VStr " Alpha County "; VStr "001200"; VStr "01"; VStr "001"] ]
              (mkLazyFrame db_columns
                 [ [VStr "Alpha County"; VStr "1200"; VStr "01"; VStr "001"] ]))
    as (H1 & H2 & _).
  - vm_compute. reflexivity.
  - intros r Hr. simpl in Hr. destruct Hr as [<-|[]].
    split; [vm_compute; reflexivity|].
    repeat constructor; discriminate.
  - split; [exact H1 | exact H2].
Defined.

(* ===================================================================== *)
(** ** Properties of the routes *)
(* ===================================================================== *)

Lemma load_if_present_total (raises : string -> nat -> stmt -> bool)
    (lazy_df : option LazyPlan) (t : string) (tables : gmap string (list row)) :
  exists r, load_if_present raises lazy_df t tables = Some r.
Proof.
  unfold load_if_present. destruct lazy_df as [plan|]; [|eauto].
  destruct (load_plan_total (raises t) plan t default_chunk_size
              (fresh_conn tables)) as ([total|e] & conn' & ->); eauto.
Qed.

(** The load phase returns or raises, whatever the sources and the store. *)
Lemma run_sources_total (raises : string -> nat -> stmt -> bool)
    (sources : list (option LazyPlan * string)) :
  forall tables, exists r, run_sources raises sources tables = Some r.
Proof.
  induction sources as [|[lazy_df t] sources IH]; intros tables.
  - simpl. eauto.
  - cbn [run_sources].
    destruct (load_if_present_total raises lazy_df t tables) as ([tables'|e] & ->);
      [apply IH | eauto].
Qed.

(** A source whose lazy frame cannot be collected ends the load phase with
    an exception: its own, or the one of a load before it. *)
Lemma run_sources_bad_plan (raises : string -> nat -> stmt -> bool)
    (sources : list (option LazyPlan * string)) :
  forall tables plan e t,
    In (Some plan, t) sources -> collect plan = inr e ->
    exists e', run_sources raises sources tables = Some (inr e').
Proof.
  induction sources as [|[lazy_df t0] sources IH];
    intros tables plan e t Hin Hc; [contradiction|].
  cbn [run_sources]. destruct Hin as [E|Hin].
  - injection E as -> ->. unfold load_if_present.
    rewrite (load_collect_error _ plan _ _ e _ Hc). eauto.
  - destruct (load_if_present_total raises lazy_df t0 tables)
      as ([tables'|e0] & ->); [|eauto].
    exact (IH tables' plan e t Hin Hc).
Qed.



(** X17.  The export route answers 200 only after a whole export: for a
    page size [p >= 1] (50000 when the request names none) the answer is
    200 or 500; with 200 the blob uploaded, under the name asked for
    ([nppes_clean_export.csv] when the request names none), is the header
    line followed by the line of every row of the view; with 500 nothing
    was uploaded. *)
Theorem export_route_status
    (export_view : gmap string (list row) -> list row)
    (upload_error : string -> string -> option string)
    (req : ExportRequest) (tables : gmap string (list row)) :
  0 < default default_export_chunk_size (chunk_size_field req) ->
  exists resp,
    export_clean_csv export_view upload_error req tables = Some resp /\
    (status_code resp = 200 \/ status_code resp = 500) /\
    (status_code resp = 200 ->
     exists lines,
       artifact resp
         = Some (default default_export_filename (output_filename_field req),
                 Py.join Py.nl (header_line :: lines)) /\
       Forall2 (fun r line => render_row r = inl line)
               (export_view tables) lines) /\
    (status_code resp = 500 -> artifact resp = None).
Proof.
  intros Hp. unfold export_clean_csv.
  destruct (export_total (export_view tables) upload_error
              (default default_export_chunk_size (chunk_size_field req))
              (default default_export_filename (output_filename_field req)))
    as (result & Hrun).
  rewrite Hrun. destruct (export_success result) eqn:Hok.
  - eexists. split; [reflexivity|]. cbn [status_code artifact].
    split; [now left|]. split; [|discriminate].
    intros _.
    destruct (export_success_lines _ _ _ _ _ Hp Hrun Hok)
      as (lines & Hup & _ & Hall).
    exists lines. auto.
  - eexists. split; [reflexivity|]. cbn [status_code artifact].
    split; [now right|]. split; [discriminate|].
    intros _. exact (export_failure_nothing _ _ _ _ _ Hrun Hok).
Qed.

Lemma export_route_status_witness :
  exists resp,
    export_clean_csv (fun _ => five_rows) upload_always_works
      (mkExportRequest (Some 2) None) no_tables = Some resp /\
    status_code resp = 200 /\
    option_map fst (artifact resp) = Some "nppes_clean_export.csv".
Proof.
  destruct (export_route_status (fun _ => five_rows) upload_always_works
              (mkExportRequest (Some 2) None) no_tables)
    as (resp & Hrun & _ & Hok & _).
  - simpl. lia.
  - exists resp. split; [exact Hrun|].
    assert (Hs : status_code resp = 200).
    { vm_compute in Hrun. injection Hrun as <-. reflexivity. }
    split; [exact Hs|].
    destruct (Hok Hs) as (lines & -> & _). reflexivity.
Defined.

(* ===================================================================== *)
(** ** Lazy frames between the extractor and the loader *)
(* ===================================================================== *)



